(** * sdwriter: a shallow embedding of [sdwriter.c]

    The program writes a disk image to an SD card, or compares the card with
    the image.  This development embeds the C source function by function and
    states the properties of its copy/verify engine, progress cadence,
    mismatch report, device enumeration and exit status.

    Data model.  The integer types are those of an LP64 target (Linux and
    macOS on 64-bit hardware, two of the three platforms the source supports):
    [int] and [unsigned] have 32 bits, [off_t], [time_t], [suseconds_t],
    [ssize_t] and [size_t] have 64 bits, [unsigned long long] has 64 bits.
    A value of such a type is a [Z]; every assignment that narrows writes its
    wrap-around out ([to_int], [to_uint], [to_long], [to_ulong]).  C's [/] on
    signed operands truncates towards zero and is [Z.quot]; on unsigned
    operands it is [Z.div].  Storing a value that a signed type cannot hold
    is implementation-defined in C; the compilers of these targets reduce it
    modulo [2 ^ N], which is [wrap_signed].  Overflow in signed arithmetic,
    which C leaves undefined, is written as the same wrap-around; it occurs
    only for sizes beyond those the statements below are about.  A [char]
    buffer is a function from index to byte: an array keeps whatever it held
    outside the part a call fills. *)

From Stdlib Require Import ZArith List Bool Lia.
From Stdlib.Strings Require Import String Ascii Byte.
From Stdlib.Numbers Require Import DecimalString.
Import ListNotations.
Local Open Scope Z_scope.

(** ** Machine integers *)

Module C.

Definition wrap_unsigned (w z : Z) : Z := z mod 2 ^ w.
Definition wrap_signed (w z : Z) : Z := (z + 2 ^ (w - 1)) mod 2 ^ w - 2 ^ (w - 1).

(** [int] *)
Definition to_int : Z -> Z := wrap_signed 32.
(** [unsigned] *)
Definition to_uint : Z -> Z := wrap_unsigned 32.
(** [long], [off_t], [time_t], [ssize_t] *)
Definition to_long : Z -> Z := wrap_signed 64.
(** [unsigned long], [size_t], [unsigned long long] *)
Definition to_ulong : Z -> Z := wrap_unsigned 64.

Definition INT_MAX : Z := 2 ^ 31 - 1.

End C.
Import C.

(** ** [mseconds_elapsed] (lines 84-95) *)

Record timeval : Type := { tv_sec : Z; tv_usec : Z }.

(** [t1] is what [gettimeofday] stores; the subtraction, the product and the
    sum are [long] arithmetic, the assignment to [mseconds] narrows to
    [unsigned]. *)
Definition mseconds_elapsed (t0 t1 : timeval) : Z :=
  let mseconds :=
    to_uint (to_long (to_long (to_long (tv_sec t1 - tv_sec t0) * 1000) +
                      Z.quot (to_long (tv_usec t1 - tv_usec t0)) 1000)) in
  if mseconds <? 1 then 1 else mseconds.

(** ** The progress cadence (lines 638-645 of [write_image]) *)

(** [sizeof(buf)], the chunk size. *)
Definition sizeof_buf : Z := 32 * 1024.

(** [progress_len = (nbytes + sizeof(buf) - 1) / sizeof(buf)]: the sum is
    [unsigned long] arithmetic (the [off_t] operand is converted), the
    quotient is stored in an [int]. *)
Definition progress_len0 (nbytes : Z) : Z :=
  to_int (to_ulong (to_ulong (to_ulong nbytes + sizeof_buf) - 1) / sizeof_buf).

(** The [for (progress_step=1; ; progress_step<<=1)] loop.  It has no bound
    of its own, so the model counts iterations down from [fuel]; [None] is
    "no answer within [fuel] iterations" or a division by zero.  The result is
    the pair [(progress_len, progress_step)] at the [break]. *)
Fixpoint cadence_loop (fuel : nat) (nbytes progress_step : Z) : option (Z * Z) :=
  match fuel with
  | O => None
  | S fuel' =>
      let progress_len := progress_len0 nbytes in
      if progress_step =? 0 then None
      else if Z.quot progress_len progress_step <? 64 then
        let progress_len := to_int (progress_len + (progress_step - 1)) in
        let progress_len := Z.quot progress_len progress_step in
        Some (progress_len, progress_step)
      else cadence_loop fuel' nbytes (to_int (Z.shiftl progress_step 1))
  end.

(** An [int] has 32 bits, so 32 shifts exhaust the values of
    [progress_step]. *)
Definition cadence (nbytes : Z) : option (Z * Z) := cadence_loop 32 nbytes 1.

Definition progress_step_of (nbytes : Z) : option Z := option_map snd (cadence nbytes).
Definition progress_len_of (nbytes : Z) : option Z := option_map fst (cadence nbytes).


(** ** Text *)

Definition nl : string := String (ascii_of_nat 10) EmptyString.
Definition backspace : ascii := ascii_of_nat 8.

(** [%d] and [%u]. *)
Definition fmt_d (z : Z) : string := NilZero.string_of_int (Z.to_int z).

Definition hex_digit (d : Z) : ascii :=
  nth (Z.to_nat d)
    ["0"; "1"; "2"; "3"; "4"; "5"; "6"; "7"; "8"; "9"; "A"; "B"; "C"; "D"; "E"; "F"]%char
    "?"%char.

(** The digits of [n], most significant first, in front of [acc]; [n] has at
    most [fuel] digits. *)
Fixpoint hex_digits (fuel : nat) (n : Z) (acc : string) : string :=
  match fuel with
  | O => acc
  | S fuel' =>
      let acc' := String (hex_digit (n mod 16)) acc in
      if n / 16 =? 0 then acc' else hex_digits fuel' (n / 16) acc'
  end.

(** [%X] of an [unsigned]: no leading zero, one digit for 0. *)
Definition fmt_X (n : Z) : string := hex_digits 8 (to_uint n) EmptyString.

Fixpoint zeros (k : nat) : string :=
  match k with O => EmptyString | S k' => String "0" (zeros k') end.

(** [%0wX]: padded with zeros on the left to [w] characters. *)
Definition fmt_0X (w : nat) (n : Z) : string :=
  let digits := fmt_X n in (zeros (w - String.length digits) ++ digits)%string.

(** Reading a rendering back: the value of a hexadecimal digit, and of a
    string of them, most significant first. *)
Definition hex_digit_value (c : ascii) : Z :=
  let n := Z.of_nat (nat_of_ascii c) in
  if (48 <=? n) && (n <=? 57) then n - 48
  else if (65 <=? n) && (n <=? 70) then n - 55
  else 0.

Fixpoint hex_value (s : string) : Z :=
  match s with
  | EmptyString => 0
  | String c rest => hex_digit_value c * 16 ^ Z.of_nat (String.length rest) + hex_value rest
  end.

(** [print_symbols] (lines 477-481): what [while (cnt-- > 0) putchar(symbol)]
    writes. *)
Fixpoint symbols (symbol : ascii) (cnt : nat) : string :=
  match cnt with O => EmptyString | S cnt' => String symbol (symbols symbol cnt') end.

Definition print_symbols_text (symbol : ascii) (cnt : Z) : string :=
  symbols symbol (Z.to_nat cnt).

(** ** The process: what it has done and how it ends *)

(** A [char] array.  Only the indices inside the array are ever read. *)
Definition buffer : Type := Z -> byte.

(** The calls and the output a run makes, in the order it makes them. *)
Inductive event : Type :=
| EvOut (text : string)            (* printf, putchar on stdout *)
| EvErr (text : string)            (* fprintf(stderr, ...) *)
| EvPerror (name : string)         (* perror(name) *)
| EvSize (nbytes : Z)              (* the "Size: %.1f MB" line *)
| EvSpeed (nbytes mseconds : Z)    (* the "Speed: %.1f MB/sec" line *)
| EvOpenSrc                        (* open(filename, O_RDONLY) *)
| EvOpenDest                       (* disk_open(device_name) *)
| EvRead (pos n : Z)               (* read(src, buf, n) at file offset pos *)
| EvDiskWrite (pos n : Z)          (* disk_write(dest, buf, n) at device offset pos *)
| EvDiskRead (pos n : Z)           (* disk_read(dest, buf, n) at device offset pos *)
| EvFlush                          (* disk_flush(dest) *)
| EvMark                           (* putchar('#'); fflush(stdout) in progress *)
| EvCloseSrc                       (* close(src) *)
| EvCloseDest.                     (* disk_close(dest) *)

(** The mutable state a run threads: the global [progress_count], the two
    file offsets the kernel keeps, the bytes on the device, and the events so
    far, newest first. *)
Record state : Type := mkState {
  progress_count : Z;
  src_pos : Z;
  dest_pos : Z;
  disk : Z -> byte;
  trace : list event
}.

Definition emit (e : event) (s : state) : state :=
  mkState (progress_count s) (src_pos s) (dest_pos s) (disk s) (e :: trace s).
Definition set_progress_count (c : Z) (s : state) : state :=
  mkState c (src_pos s) (dest_pos s) (disk s) (trace s).
Definition set_src_pos (p : Z) (s : state) : state :=
  mkState (progress_count s) p (dest_pos s) (disk s) (trace s).
Definition set_dest_pos (p : Z) (s : state) : state :=
  mkState (progress_count s) (src_pos s) p (disk s) (trace s).
Definition set_disk (d : Z -> byte) (s : state) : state :=
  mkState (progress_count s) (src_pos s) (dest_pos s) d (trace s).

(** The place in the source where a run ends. *)
Inductive site : Type :=
| AtInterrupted      (* interrupted, line 78 *)
| AtUdev             (* get_devices, line 111 *)
| AtNoDevices        (* ask_device, line 429 *)
| AtStdinEof         (* ask_device, line 447 *)
| AtCancelled        (* ask_device, line 451 *)
| AtOpenSrc          (* write_image, line 628 *)
| AtOpenDest         (* disk_open, line 545 *)
| AtReadSrc          (* write_image, lines 661 and 689 *)
| AtDiskWrite        (* disk_write, line 577 *)
| AtDiskRead         (* disk_read, line 596 *)
| AtMismatch         (* print_mismatch, line 518, and write_image, line 700 *)
| AtUsage            (* usage, line 742 *)
| AtVersion          (* main, line 781 *)
| AtDone.            (* main, line 798 *)

(** A call returns a value, or the process has ended in [exit(status)], or
    the model gave up: [OutOfFuel] when a loop outlived its iteration budget,
    [Undefined] where C gives the operation no meaning. *)
Inductive res (A : Type) : Type :=
| Ret (a : A) (s : state)
| Exit (status : Z) (why : site) (s : state)
| OutOfFuel
| Undefined.
Arguments Ret {A} a s.
Arguments Exit {A} status why s.
Arguments OutOfFuel {A}.
Arguments Undefined {A}.

Definition M (A : Type) : Type := state -> res A.

Definition ret {A : Type} (a : A) : M A := fun s => Ret a s.

Definition bind {A B : Type} (m : M A) (k : A -> M B) : M B :=
  fun s =>
    match m s with
    | Ret a s' => k a s'
    | Exit status why s' => Exit status why s'
    | OutOfFuel => OutOfFuel
    | Undefined => Undefined
    end.

Declare Scope proc_scope.
Delimit Scope proc_scope with proc.
Notation "x <- m ;; k" := (bind m (fun x => k))
  (at level 61, m at next level, right associativity) : proc_scope.
Notation "m ;; k" := (bind m (fun _ => k))
  (at level 61, right associativity) : proc_scope.
Local Open Scope proc_scope.

Definition log (e : event) : M unit := fun s => Ret tt (emit e s).
Definition printf (text : string) : M unit := log (EvOut text).
Definition eprintf (text : string) : M unit := log (EvErr text).

(** [exit(status)]. *)
Definition c_exit {A : Type} (why : site) (status : Z) : M A :=
  fun s => Exit status why s.

(** [quit] (lines 67-70): [exit(ok ? 0 : -1)]. *)
Definition quit {A : Type} (why : site) (ok : Z) : M A :=
  c_exit why (if ok =? 0 then -1 else 0).

(** The status the parent process reads: [status & 0377]. *)
Definition wait_status (status : Z) : Z := Z.land status 255.


(** ** The environment of one job *)

(** What the operating system answers to the calls of [write_image]: whether
    the two [open]s succeed, the size [fstat] reports, the bytes of the image,
    whether a transfer of [n] bytes at offset [pos] moves all [n] bytes, what
    the two stack arrays hold when [write_image] is entered, and the clock
    when the speed is computed. *)
Record world : Type := {
  src_opens : bool;
  dest_opens : bool;
  st_size : Z;
  file : Z -> byte;
  read_ok : Z -> Z -> bool;
  write_ok : Z -> Z -> bool;
  disk_read_ok : Z -> Z -> bool;
  stack_buf : buffer;
  stack_buf2 : buffer;
  clock_start : timeval;
  clock_end : timeval
}.

(** A transfer of [n] bytes into an array: the first [n] elements become the
    bytes of [data] from [pos] on, the others stay. *)
Definition fill (b : buffer) (data : Z -> byte) (pos n : Z) : buffer :=
  fun i => if (0 <=? i) && (i <? n) then data (pos + i) else b i.

(** A transfer of [n] bytes out of an array onto [data] at [pos]. *)
Definition store (data : Z -> byte) (b : buffer) (pos n : Z) : Z -> byte :=
  fun i => if (pos <=? i) && (i <? pos + n) then b (i - pos) else data i.

(** ** The block device (lines 526-611) *)

(** [disk_open]: [open(name, O_RDWR)], [perror] and [quit(0)] on failure. *)
Definition disk_open (w : world) (device_name : string) : M unit :=
  log EvOpenDest ;;
  if dest_opens w then fun s => Ret tt (set_dest_pos 0 s)
  else log (EvPerror device_name) ;; quit AtOpenDest 0.

(** [disk_close]. *)
Definition disk_close : M unit := log EvCloseDest.

(** [disk_write]: [write(dest, buf, nbytes) != nbytes] ends the run.  The
    parameter is an [unsigned]; its callers pass a [chunk_len], between 0 and
    32768, which the conversion leaves as it is. *)
Definition disk_write (w : world) (device_name : string) (buf : buffer) (nbytes : Z)
  : M unit :=
  fun s =>
    let pos := dest_pos s in
    let s := emit (EvDiskWrite pos nbytes) s in
    if write_ok w pos nbytes then
      Ret tt (set_dest_pos (pos + nbytes) (set_disk (store (disk s) buf pos nbytes) s))
    else (eprintf (device_name ++ ": Write error" ++ nl) ;; quit AtDiskWrite 0) s.

(** [disk_read]: [read(src, buf, nbytes) != nbytes] ends the run; otherwise
    the array holds the device's bytes. *)
Definition disk_read (w : world) (device_name : string) (buf : buffer) (nbytes : Z)
  : M buffer :=
  fun s =>
    let pos := dest_pos s in
    let s := emit (EvDiskRead pos nbytes) s in
    if disk_read_ok w pos nbytes then
      Ret (fill buf (disk s) pos nbytes) (set_dest_pos (pos + nbytes) s)
    else (eprintf (device_name ++ ": Read error" ++ nl) ;; quit AtDiskRead 0) s.

(** [disk_flush]. *)
Definition disk_flush : M unit := log EvFlush.

(** [read(src, buf, n)] on the image; [None] when it does not return [n]. *)
Definition read_src (w : world) (buf : buffer) (n : Z) : M (option buffer) :=
  fun s =>
    let pos := src_pos s in
    let s := emit (EvRead pos n) s in
    if read_ok w pos n then Ret (Some (fill buf (file w) pos n)) (set_src_pos (pos + n) s)
    else Ret None s.

(** ** [progress] (lines 486-495) *)

(** [step] arrives as an [unsigned]; [progress_count % 0] has no meaning. *)
Definition progress (step : Z) : M bool :=
  fun s =>
    let step := to_uint step in
    let s := set_progress_count (to_uint (progress_count s + 1)) s in
    if step =? 0 then Undefined
    else if progress_count s mod step =? 0 then Ret true (emit EvMark s)
    else Ret false s.

(** ** [print_mismatch] (lines 500-521) *)

(** What the report says. *)
Record mismatch : Type := {
  mm_offset : Z;
  mm_expected : byte;
  mm_byte : byte
}.

Definition byte_value (b : byte) : Z := Z.of_N (Byte.to_N b).

(** The address as [print_mismatch] prints it after "0x". *)
Definition fmt_address (offset : Z) : string :=
  if Z.shiftr offset 32 =? 0 then fmt_X (Z.land offset 4294967295)
  else fmt_X (Z.shiftr offset 32) ++ fmt_0X 8 (Z.land offset 4294967295).

Definition mismatch_text (m : mismatch) : string :=
  nl ++ "Error at address 0x" ++ fmt_address (mm_offset m)
     ++ ": file=0x" ++ fmt_0X 2 (byte_value (mm_expected m))
     ++ ", disk=0x" ++ fmt_0X 2 (byte_value (mm_byte m)) ++ nl.

(** The loop [for (i=0; i<nbytes; i++)], [cnt] iterations from index [i] on:
    the first index where the arrays differ, with [offset += i]. *)
Fixpoint find_mismatch (cnt : nat) (valid invalid : buffer) (i offset : Z)
  : option mismatch :=
  match cnt with
  | O => None
  | S cnt' =>
      let expected := valid i in
      let byte := invalid i in
      if Byte.eqb byte expected then find_mismatch cnt' valid invalid (i + 1) offset
      else Some {| mm_offset := to_ulong (offset + i);
                   mm_expected := expected;
                   mm_byte := byte |}
  end.

Definition print_mismatch (valid invalid : buffer) (nbytes offset : Z) : M unit :=
  match find_mismatch (Z.to_nat nbytes) valid invalid 0 offset with
  | Some m => printf (mismatch_text m) ;; quit AtMismatch 0
  | None => ret tt
  end.

(** [memcmp(a, b, n) != 0]. *)
Fixpoint differ_from (cnt : nat) (a b : buffer) (i : Z) : bool :=
  match cnt with
  | O => false
  | S cnt' => negb (Byte.eqb (a i) (b i)) || differ_from cnt' a b (i + 1)
  end.

Definition memcmp_ne (a b : buffer) (n : Z) : bool := differ_from (Z.to_nat n) a b 0.

(** ** [write_image] (lines 616-710) *)

(** [n = nbytes - count; if (n > sizeof(buf)) n = sizeof(buf);] with [n] an
    [int]: the difference of two [off_t] is narrowed to 32 bits, and the
    comparison with a [size_t] converts [n] to [unsigned long]. *)
Definition chunk_len (nbytes count : Z) : Z :=
  let n := to_int (to_long (nbytes - count)) in
  if sizeof_buf <? to_ulong n then to_int sizeof_buf else n.

(** [count += sizeof(buf)]. *)
Definition next_count (count : Z) : Z := to_long (to_ulong (to_ulong count + sizeof_buf)).

(** The loop of write mode (lines 654-671), at most [fuel] chunks. *)
Fixpoint write_chunks (fuel : nat) (w : world) (filename device_name : string)
    (nbytes progress_step count : Z) (buf : buffer) : M buffer :=
  match fuel with
  | O => fun _ => OutOfFuel
  | S fuel' =>
      if count <? nbytes then
        let n := chunk_len nbytes count in
        got <- read_src w buf n ;;
        match got with
        | None =>
            eprintf (filename ++ ": Read error, n=" ++ fmt_d n ++ nl) ;;
            quit AtReadSrc 0
        | Some buf =>
            disk_write w device_name buf n ;;
            mark <- progress progress_step ;;
            (if mark : bool then disk_flush else ret tt) ;;
            write_chunks fuel' w filename device_name nbytes progress_step
              (next_count count) buf
        end
      else ret buf
  end.

(** The loop of verify mode (lines 682-703).  The destination is read into
    [buf], over the image's bytes, and [buf] is compared with [buf2]. *)
Fixpoint verify_chunks (fuel : nat) (w : world) (filename device_name : string)
    (nbytes progress_step count : Z) (buf buf2 : buffer) : M buffer :=
  match fuel with
  | O => fun _ => OutOfFuel
  | S fuel' =>
      if count <? nbytes then
        let n := chunk_len nbytes count in
        got <- read_src w buf n ;;
        match got with
        | None =>
            eprintf (filename ++ ": Read error" ++ nl) ;;
            quit AtReadSrc 0
        | Some buf =>
            buf <- disk_read w device_name buf n ;;
            (if memcmp_ne buf buf2 n then
               eprintf ("DATA ERROR!" ++ nl) ;;
               (fun s => print_mismatch buf buf2 n
                           (to_ulong (to_long (src_pos s - n))) s) ;;
               quit AtMismatch 0
             else ret tt) ;;
            progress progress_step ;;
            verify_chunks fuel' w filename device_name nbytes progress_step
              (next_count count) buf buf2
        end
      else ret buf
  end.

(** The quotient rounded up, for a positive divisor. *)
Definition cdiv (a b : Z) : Z := (a + b - 1) / b.

(** The chunks of an image of [nbytes] bytes, and an iteration budget no loop
    over them outlives. *)
Definition total_chunks (nbytes : Z) : Z := cdiv nbytes sizeof_buf.
Definition chunk_fuel (nbytes : Z) : nat := S (Z.to_nat (total_chunks nbytes)).

Definition write_image (w : world) (filename device_name : string) (verify_only : Z)
  : M unit :=
  log EvOpenSrc ;;
  (if src_opens w then fun s => Ret tt (set_src_pos 0 s)
   else log (EvPerror filename) ;; quit AtOpenSrc 0) ;;
  disk_open w device_name ;;
  let nbytes := to_long (st_size w) in
  printf ("     Source: " ++ filename ++ nl) ;;
  printf ("Destination: " ++ device_name ++ nl) ;;
  log (EvSize nbytes) ;;
  match cadence nbytes with
  | None => fun _ => Undefined
  | Some (progress_len, progress_step) =>
      (fun s => Ret tt (set_progress_count 0 s)) ;;
      (if verify_only =? 0 then
         printf "      Write: " ;;
         printf (print_symbols_text "." progress_len) ;;
         printf (print_symbols_text backspace progress_len) ;;
         write_chunks (chunk_fuel nbytes) w filename device_name nbytes progress_step 0
           (stack_buf w) ;;
         printf (" done      " ++ nl) ;;
         disk_flush
       else ret tt) ;;
      (if verify_only =? 0 then ret tt
       else
         printf "     Verify: " ;;
         printf (print_symbols_text "." progress_len) ;;
         printf (print_symbols_text backspace progress_len) ;;
         verify_chunks (chunk_fuel nbytes) w filename device_name nbytes progress_step 0
           (stack_buf w) (stack_buf2 w) ;;
         printf (" done       " ++ nl)) ;;
      log EvCloseSrc ;;
      disk_close ;;
      log (EvSpeed nbytes (mseconds_elapsed (clock_start w) (clock_end w)))
  end.

(** The state a process starts in, over a device holding [d]. *)
Definition boot (d : Z -> byte) : state := mkState 0 0 0 d [].

(** The events of a run, oldest first. *)
Definition events_of {A : Type} (r : res A) : list event :=
  match r with
  | Ret _ s => rev_append (trace s) []
  | Exit _ _ s => rev_append (trace s) []
  | _ => []
  end.

(** ** [get_devices], the Linux backend (lines 104-185, 380) *)

(** The USB ancestor of a block device, as udev describes it. *)
Record usb_device : Type := {
  manufacturer : string;
  product : string
}.

(** One entry of the enumeration of the "block" subsystem: its USB ancestor
    if it has one, its "removable" attribute if it has one, its "size"
    attribute as [strtoul] reads it, and its node under /dev. *)
Record udev_entry : Type := {
  usb_parent : option usb_device;
  removable : option string;
  size_blocks : Z;
  devnode : string
}.

(** What libudev answers: whether [udev_new] gives an object, and the
    entries of the enumeration. *)
Record platform : Type := {
  udev_new_ok : bool;
  block_devices : list udev_entry
}.

(** [! removable || *removable != '1'] *)
Definition not_removable (attr : option string) : bool :=
  match attr with
  | Some (String c _) => negb (Ascii.eqb c "1")
  | _ => true
  end.

(** The [udev_list_entry_foreach] loop; [ndev] entries are stored already. *)
Fixpoint scan_entries (entries : list udev_entry) (maxdev ndev : Z) : list string :=
  match entries with
  | [] => []
  | dev :: rest =>
      if maxdev <=? ndev then []
      else
        match usb_parent dev with
        | None => scan_entries rest maxdev ndev
        | Some usb =>
            if not_removable (removable dev) then scan_entries rest maxdev ndev
            else
              let size := to_uint (size_blocks dev) in
              if size =? 0 then scan_entries rest maxdev ndev
              else
                (devnode dev ++ " - " ++ manufacturer usb ++ " " ++ product usb
                   ++ ", size " ++ fmt_d (size / 2000) ++ " MB")%string
                :: scan_entries rest maxdev (to_int (ndev + 1))
        end
  end.

(** The array [devtab] up to its terminating null. *)
Definition get_devices (p : platform) (maxdev : Z) : M (list string) :=
  if udev_new_ok p then ret (scan_entries (block_devices p) maxdev 0)
  else printf ("Can't create udev" ++ nl) ;; quit AtUdev 0.

(** ** [ask_device] (lines 419-472) *)

Definition MAXDEV : Z := 9.

Definition char_code (c : ascii) : Z := Z.of_nat (nat_of_ascii c).
Definition char_of (z : Z) : string := String (ascii_of_nat (Z.to_nat z)) EmptyString.

(** [*reply]: the first character, the terminating null of an empty line. *)
Definition first_char (reply : string) : Z :=
  match reply with
  | EmptyString => 0
  | String c _ => char_code c
  end.

(** [p = strchr(devname, ' '); if (p) *p = 0;] *)
Fixpoint until_space (devname : string) : string :=
  match devname with
  | EmptyString => EmptyString
  | String c rest => if Ascii.eqb c " " then EmptyString else String c (until_space rest)
  end.

(** The menu lines ["  %c. %s\n"], the first numbered ['1' + ndev]. *)
Fixpoint menu_lines (devices : list string) (ndev : Z) : string :=
  match devices with
  | [] => EmptyString
  | d :: rest =>
      ("  " ++ char_of (char_code "1" + ndev) ++ ". " ++ d ++ nl
         ++ menu_lines rest (ndev + 1))%string
  end.

(** The [for (;;)] loop; [stdin] holds the lines [fgets] will return, and
    [fgets] returns null when they are used up. *)
Fixpoint ask_loop (devices : list string) (stdin : list string) : M string :=
  let ndev := Z.of_nat (List.length devices) in
  printf nl ;;
  printf (menu_lines devices 0) ;;
  printf ("  q. Cancel" ++ nl) ;;
  printf (nl ++ "Select disk device ") ;;
  (if 1 <? ndev then printf ("(1-" ++ char_of (char_code "0" + ndev) ++ ", q): ")
   else printf "(1, q): ") ;;
  match stdin with
  | [] => quit AtStdinEof 0
  | reply :: stdin' =>
      let c := first_char reply in
      if (c =? char_code "q") || (c =? char_code "Q") then
        printf ("Cancelled." ++ nl) ;; quit AtCancelled 0
      else if (char_code "1" <=? c) && (c <? char_code "1" + ndev) then
        let devname := nth (Z.to_nat (c - char_code "1")) devices EmptyString in
        printf nl ;;
        ret (until_space devname)
      else
        printf (nl ++ "Enter 1") ;;
        (if 1 <? ndev then printf ("..." ++ char_of (char_code "0" + ndev)) else ret tt) ;;
        printf (" to select a device," ++ nl) ;;
        printf ("or `Q' to cancel the operation." ++ nl) ;;
        ask_loop devices stdin'
  end.

Definition ask_device (p : platform) (stdin : list string) : M string :=
  devices <- get_devices p MAXDEV ;;
  match devices with
  | [] => printf ("No removable USB disks avalable." ++ nl) ;; quit AtNoDevices 0
  | _ => ask_loop devices stdin
  end.

(** ** [usage] (lines 715-743) and [main] (lines 745-800) *)

Definition copyright : string := "Copyright (C) 2015 Serge Vakulenko".

Fixpoint device_lines (devices : list string) : string :=
  match devices with
  | [] => EmptyString
  | d :: rest => ("        " ++ d ++ nl ++ device_lines rest)%string
  end.

Definition usage {A : Type} (p : platform) : M A :=
  printf (copyright ++ nl ++ nl) ;;
  printf ("Usage:" ++ nl) ;;
  printf ("       sdwriter [-v] [-d device] sdcard.img" ++ nl) ;;
  printf (nl ++ "Args:" ++ nl) ;;
  printf ("       sdcard.img          Binary file with SD card image" ++ nl) ;;
  printf ("       -v                  Verify only" ++ nl) ;;
  printf ("       -d device           Use specified disk device" ++ nl) ;;
  printf ("       -D                  Debug mode" ++ nl) ;;
  printf ("       -h, --help          Print this help message" ++ nl) ;;
  printf ("       -V, --version       Print version" ++ nl) ;;
  printf nl ;;
  devices <- get_devices p MAXDEV ;;
  match devices with
  | [] => printf ("No target disk devices available." ++ nl)
  | _ => printf ("Available disk devices:" ++ nl ++ nl) ;; printf (device_lines devices)
  end ;;
  printf nl ;;
  c_exit AtUsage 0.

(** The globals [main] sets from the command line. *)
Record settings : Type := {
  device_name : option string;
  verify_only : Z;
  debug_level : Z
}.

(** The [while ((ch = getopt_long(...)) != -1)] loop over what [getopt_long]
    returns: the option character and [optarg].  [opterr] is never cleared
    and the option string "vd:DhV" has no leading colon, so for an option it
    does not know, and for a [-d] without its argument, [getopt_long] writes
    a line on [stderr] before it returns ['?']; the second component then
    holds that line. *)
Fixpoint parse_options (p : platform) (options : list (ascii * string)) (g : settings)
  : M settings :=
  match options with
  | [] => ret g
  | (ch, optarg) :: rest =>
      if Ascii.eqb ch "v" then
        parse_options p rest
          {| device_name := device_name g;
             verify_only := to_int (verify_only g + 1);
             debug_level := debug_level g |}
      else if Ascii.eqb ch "d" then
        parse_options p rest
          {| device_name := Some optarg;
             verify_only := verify_only g;
             debug_level := debug_level g |}
      else if Ascii.eqb ch "D" then
        parse_options p rest
          {| device_name := device_name g;
             verify_only := verify_only g;
             debug_level := to_int (debug_level g + 1) |}
      else if Ascii.eqb ch "V" then c_exit AtVersion 0
      else
        (if Ascii.eqb ch "?" then eprintf optarg else ret tt) ;;
        usage p
  end.

(** [main], given what [getopt_long] finds on the command line, the operands
    left after the options, the lines on standard input and the answers of the
    operating system.  [return 0] from [main] ends the process as [exit(0)]
    does. *)
Definition main (p : platform) (w : world) (stdin : list string)
    (options : list (ascii * string)) (operands : list string) : M unit :=
  printf ("SD image writer, Version 1.0.0" ++ nl) ;;
  g <- parse_options p options
         {| device_name := None; verify_only := 0; debug_level := 0 |} ;;
  match operands with
  | [filename] =>
      printf (copyright ++ nl) ;;
      name <- match device_name g with
              | Some name => ret name
              | None => ask_device p stdin
              end ;;
      write_image w filename name (verify_only g) ;;
      quit AtDone 1
  | _ => usage p
  end.

(** ** Vocabulary of the statements *)

(** *** Events *)

Definition is_mark (e : event) : bool :=
  match e with EvMark => true | _ => false end.
Definition is_flush (e : event) : bool :=
  match e with EvFlush => true | _ => false end.
Definition is_close_src (e : event) : bool :=
  match e with EvCloseSrc => true | _ => false end.
Definition is_close_dest (e : event) : bool :=
  match e with EvCloseDest => true | _ => false end.
Definition is_disk_write (e : event) : bool :=
  match e with EvDiskWrite _ _ => true | _ => false end.
Definition is_transfer (e : event) : bool :=
  match e with EvRead _ _ | EvDiskWrite _ _ | EvDiskRead _ _ => true | _ => false end.

(** How many events of a list satisfy [p]. *)
Definition count (p : event -> bool) (l : list event) : Z :=
  Z.of_nat (List.length (filter p l)).

(** The progress marks of a run. *)
Definition marks {A : Type} (r : res A) : Z := count is_mark (events_of r).

(** The bytes a run handed to [disk_write], all calls together. *)
Fixpoint bytes_written (l : list event) : Z :=
  match l with
  | [] => 0
  | EvDiskWrite _ n :: rest => n + bytes_written rest
  | _ :: rest => bytes_written rest
  end.

(** *** How a run ends *)

(** A run that the model followed to its end. *)
Definition ended {A : Type} (r : res A) : Prop :=
  match r with Ret _ _ | Exit _ _ _ => True | _ => False end.

Definition returned {A : Type} (r : res A) : Prop :=
  match r with Ret _ _ => True | _ => False end.

Definition exited {A : Type} (r : res A) : Prop :=
  match r with Exit _ _ _ => True | _ => False end.

(** The status and the place of a run that ended in [exit]. *)
Definition ending {A : Type} (r : res A) : option (Z * site) :=
  match r with Exit status why _ => Some (status, why) | _ => None end.

(** Two runs that made the same calls, printed the same, left the same state
    and ended in the same way. *)
Definition same_run {A B : Type} (r : res A) (r' : res B) : Prop :=
  match r, r' with
  | Ret _ s, Ret _ s' => s = s'
  | Exit status why s, Exit status' why' s' => status = status' /\ why = why' /\ s = s'
  | OutOfFuel, OutOfFuel => True
  | Undefined, Undefined => True
  | _, _ => False
  end.

(** Where a run may end with the status 0, and where a job fails. *)
Definition is_success (why : site) : bool :=
  match why with AtDone | AtUsage | AtVersion => true | _ => false end.
Definition is_job_failure (why : site) : bool :=
  match why with
  | AtOpenSrc | AtOpenDest | AtReadSrc | AtDiskWrite | AtDiskRead | AtMismatch => true
  | _ => false
  end.


(** [wp m Q E s]: run from [s], [m] ends, and it ends either by returning a
    value and a state that satisfy [Q], or in [exit] with a status, a place
    and a state that satisfy [E].  A run that the model gave up on satisfies
    nothing. *)
Definition wp {A : Type} (m : M A) (Q : A -> state -> Prop)
    (E : Z -> site -> state -> Prop) (s : state) : Prop :=
  match m s with
  | Ret a s' => Q a s'
  | Exit status why s' => E status why s'
  | OutOfFuel => False
  | Undefined => False
  end.

(** *** The course of a job *)

(** An operating system on which nothing fails. *)
Definition fault_free (w : world) : Prop :=
  src_opens w = true /\ dest_opens w = true /\
  (forall pos n, read_ok w pos n = true) /\
  (forall pos n, write_ok w pos n = true) /\
  (forall pos n, disk_read_ok w pos n = true).

(** The state of a job, entered in [s0], that has done [k] chunks with the
    step [step]: the counter (an [unsigned]) has counted them, one mark is out
    for every [step] of them, and neither handle has been closed. *)
Definition at_chunk (s0 : state) (step k : Z) (s : state) : Prop :=
  progress_count s = to_uint k /\
  count is_mark (trace s) = count is_mark (trace s0) + k / step /\
  count is_close_src (trace s) = count is_close_src (trace s0) /\
  count is_close_dest (trace s) = count is_close_dest (trace s0).

(** What a job that failed at [why] blames: the answer of the operating
    system that made it fail there, in the mode that can fail there. *)
Definition blamed (w : world) (verify_only : Z) (why : site) : Prop :=
  match why with
  | AtOpenSrc => src_opens w = false
  | AtOpenDest => dest_opens w = false
  | AtReadSrc => exists pos n, read_ok w pos n = false
  | AtDiskWrite => verify_only = 0 /\ exists pos n, write_ok w pos n = false
  | AtDiskRead => verify_only <> 0 /\ exists pos n, disk_read_ok w pos n = false
  | AtMismatch => verify_only <> 0
  | _ => False
  end.

(** A job of [chunks] chunks, entered in [s0], that ended in [exit]: the
    status is -1, the place is one where a job fails and has its cause, no
    more marks are out than the whole job emits, and neither handle has been
    closed. *)
Definition job_failed (w : world) (verify_only : Z) (s0 : state) (step chunks : Z)
    (status : Z) (why : site) (s : state) : Prop :=
  status = -1 /\
  is_job_failure why = true /\
  blamed w verify_only why /\
  count is_mark (trace s0) <= count is_mark (trace s)
    <= count is_mark (trace s0) + chunks / step /\
  count is_close_src (trace s) = count is_close_src (trace s0) /\
  count is_close_dest (trace s) = count is_close_dest (trace s0).

(** A job of [chunks] chunks, entered in [s0], that returned: after the events
    [before], which hold every mark of the job and no [close], it closed the
    image, closed the device and printed the speed, in this order. *)
Definition job_done (s0 : state) (step chunks : Z) (s : state) : Prop :=
  exists (before : list event) (nbytes mseconds : Z),
    trace s = EvSpeed nbytes mseconds :: EvCloseDest :: EvCloseSrc :: before /\
    1 <= mseconds /\
    count is_mark before = count is_mark (trace s0) + chunks / step /\
    count is_close_src before = count is_close_src (trace s0) /\
    count is_close_dest before = count is_close_dest (trace s0).

(** What write mode is meant to do with the chunks from index [k] on, [todo]
    of them: read and write [min(32768, nbytes - 32768 k)] bytes at the
    chunk's offset, and mark and flush after every [step]-th chunk. *)
Fixpoint planned_chunks (todo : nat) (nbytes step k : Z) : list event :=
  match todo with
  | O => []
  | S todo' =>
      let n := Z.min sizeof_buf (nbytes - sizeof_buf * k) in
      EvRead (sizeof_buf * k) n :: EvDiskWrite (sizeof_buf * k) n ::
      (if (k + 1) mod step =? 0 then [EvMark; EvFlush] else [])
      ++ planned_chunks todo' nbytes step (k + 1)
  end.

(** The bytes the loop of write mode asks for in [todo] chunks from index [k]
    on. *)
Fixpoint sum_chunk_len (todo : nat) (nbytes k : Z) : Z :=
  match todo with
  | O => 0
  | S todo' => chunk_len nbytes (sizeof_buf * k) + sum_chunk_len todo' nbytes (k + 1)
  end.

(** *** Enumeration *)

(** What [get_devices] asks of an entry before it lists it. *)
Definition eligible (dev : udev_entry) : bool :=
  match usb_parent dev with
  | None => false
  | Some _ => negb (not_removable (removable dev)) && negb (to_uint (size_blocks dev) =? 0)
  end.

(** The line [sprintf] makes for an entry that is listed. *)
Definition entry_label (dev : udev_entry) : string :=
  match usb_parent dev with
  | None => EmptyString
  | Some usb =>
      devnode dev ++ " - " ++ manufacturer usb ++ " " ++ product usb
        ++ ", size " ++ fmt_d (to_uint (size_blocks dev) / 2000) ++ " MB"
  end.

(** *** Time *)

(** The microseconds from [t0] to [t1]. *)
Definition microseconds_between (t0 t1 : timeval) : Z :=
  1000000 * (tv_sec t1 - tv_sec t0) + (tv_usec t1 - tv_usec t0).

(** *** The card *)

(** What the card holds when a run has ended. *)
Definition card_after {A : Type} (r : res A) : option (Z -> byte) :=
  match r with
  | Ret _ s => Some (disk s)
  | Exit _ _ s => Some (disk s)
  | _ => None
  end.

(** A card that holds the first [m] bytes of [image], and beyond them what
    the card [d] held. *)
Definition holds_prefix (image d : Z -> byte) (m : Z) (card : Z -> byte) : Prop :=
  forall x, card x = if (0 <=? x) && (x <? m) then image x else d x.

(** The last thing a run did before it ended. *)
Definition last_event {A : Type} (r : res A) : option event :=
  match r with
  | Ret _ s => hd_error (trace s)
  | Exit _ _ s => hd_error (trace s)
  | _ => None
  end.

(** What write mode hands to [disk_write] of an image of [size] bytes when
    nothing fails: each multiple of 4 GiB in [size] costs one chunk cut down
    to [size mod 32768] bytes. *)
Definition bytes_kept (size : Z) : Z :=
  size - size / 2 ^ 32 * (sizeof_buf - size mod sizeof_buf).

(** *** The prompt *)

(** A name with no space in it. *)
Fixpoint no_space (name : string) : bool :=
  match name with
  | EmptyString => true
  | String c rest => negb (Ascii.eqb c " ") && no_space rest
  end.

(** A line that neither cancels nor names one of [ndev] devices. *)
Definition unusable_reply (ndev : Z) (reply : string) : bool :=
  let c := first_char reply in
  negb ((c =? char_code "q") || (c =? char_code "Q"))
  && negb ((char_code "1" <=? c) && (c <? char_code "1" + ndev)).

(** *** The command line *)

(** An option that [getopt_long] returned as the character [ch]. *)
Definition has_option (ch : ascii) (o : ascii * string) : bool := Ascii.eqb (fst o) ch.

(** The options after which the loop of [main] goes on: [-v], [-d] and [-D]. *)
Definition is_setting (o : ascii * string) : bool :=
  has_option "v" o || has_option "d" o || has_option "D" o.

(** How many times the option [ch] was given. *)
Definition count_options (ch : ascii) (options : list (ascii * string)) : Z :=
  Z.of_nat (List.length (filter (has_option ch) options)).

(** Output on [stdout]. *)
Definition is_output (e : event) : bool :=
  match e with EvOut _ => true | _ => false end.

(** Output on [stdout] or on [stderr]. *)
Definition is_message (e : event) : bool :=
  match e with EvOut _ | EvErr _ => true | _ => false end.

(** *** Calls that fail *)

(** The place where a run ends when the operating system fails the call
    [e]: an [open] that gives no handle, a transfer that does not move the
    bytes asked for. *)
Definition failed_call (w : world) (e : event) : option site :=
  match e with
  | EvOpenSrc => if src_opens w then None else Some AtOpenSrc
  | EvOpenDest => if dest_opens w then None else Some AtOpenDest
  | EvRead pos n => if read_ok w pos n then None else Some AtReadSrc
  | EvDiskWrite pos n => if write_ok w pos n then None else Some AtDiskWrite
  | EvDiskRead pos n => if disk_read_ok w pos n then None else Some AtDiskRead
  | _ => None
  end.

(** Events none of which is a call that failed. *)
Definition all_answered (w : world) (l : list event) : Prop :=
  forall e, In e l -> failed_call w e = None.

(** A run that ended in [exit(status)] at [why] after the events [l]: the
    status is -1, and a call among [l] that failed is the one made at
    [why]. *)
Definition ended_at_failure (w : world) (status : Z) (why : site) (l : list event)
  : Prop :=
  status = -1 /\ forall e why', In e l -> failed_call w e = Some why' -> why' = why.

(** [s'] is [s] after more events, all of which satisfy [p], with the card as
    it was. *)
Definition only_added (p : event -> bool) (s s' : state) : Prop :=
  disk s' = disk s /\
  exists added, trace s' = added ++ trace s /\ forallb p added = true.

(** A run that ended in [exit] with both handles as they were: [close] was
    called on neither. *)
Definition left_open {A : Type} (r : res A) : Prop :=
  exited r /\
  count is_close_src (events_of r) = 0 /\ count is_close_dest (events_of r) = 0.

(** ** Sample environments *)

(** A card, or an array, that holds [b] everywhere. *)
Definition card_of (b : byte) : Z -> byte := fun _ => b.

(** An array that holds [b] everywhere but at index [j], where it holds
    [b']. *)
Definition array_with (b : byte) (j : Z) (b' : byte) : buffer :=
  fun i => if i =? j then b' else b.

(** An image of [size] bytes, all ['A'], on an operating system on which
    nothing fails; the arrays on the stack hold zeros. *)
Definition steady (size : Z) : world := {|
  src_opens := true;
  dest_opens := true;
  st_size := size;
  file := card_of x41;
  read_ok := fun _ _ => true;
  write_ok := fun _ _ => true;
  disk_read_ok := fun _ _ => true;
  stack_buf := card_of x00;
  stack_buf2 := card_of x00;
  clock_start := {| tv_sec := 0; tv_usec := 0 |};
  clock_end := {| tv_sec := 0; tv_usec := 0 |}
|}.

(** The same, but the card takes no data: every [write] fails. *)
Definition write_protected (size : Z) : world := {|
  src_opens := true;
  dest_opens := true;
  st_size := size;
  file := card_of x41;
  read_ok := fun _ _ => true;
  write_ok := fun _ _ => false;
  disk_read_ok := fun _ _ => true;
  stack_buf := card_of x00;
  stack_buf2 := card_of x00;
  clock_start := {| tv_sec := 0; tv_usec := 0 |};
  clock_end := {| tv_sec := 0; tv_usec := 0 |}
|}.

(** The same operating system, a different image of the same size. *)
Definition with_image (w : world) (image : Z -> byte) : world := {|
  src_opens := src_opens w;
  dest_opens := dest_opens w;
  st_size := st_size w;
  file := image;
  read_ok := read_ok w;
  write_ok := write_ok w;
  disk_read_ok := disk_read_ok w;
  stack_buf := stack_buf w;
  stack_buf2 := stack_buf2 w;
  clock_start := clock_start w;
  clock_end := clock_end w
|}.

(** libudev out of order. *)
Definition no_udev : platform := {| udev_new_ok := false; block_devices := [] |}.

(** One USB card reader with a card of 3862528 blocks in it. *)
Definition one_card : platform := {|
  udev_new_ok := true;
  block_devices :=
    [ {| usb_parent := Some {| manufacturer := "Generic"; product := "Mass-Storage" |};
         removable := Some "1"%string;
         size_blocks := 3862528;
         devnode := "/dev/sdb" |} ]
|}.

(** A fixed disk (no USB ancestor), a card reader without a card, and a card
    reader with a card of 3862528 blocks. *)
Definition three_disks : platform := {|
  udev_new_ok := true;
  block_devices :=
    [ {| usb_parent := None;
         removable := Some "0"%string;
         size_blocks := 1953525168;
         devnode := "/dev/sda" |};
      {| usb_parent := Some {| manufacturer := "Generic"; product := "Mass-Storage" |};
         removable := Some "1"%string;
         size_blocks := 0;
         devnode := "/dev/sdb" |};
      {| usb_parent := Some {| manufacturer := "Generic"; product := "Mass-Storage" |};
         removable := Some "1"%string;
         size_blocks := 3862528;
         devnode := "/dev/sdc" |} ]
|}.

(** * Properties *)

(** ** Machine integers *)

Lemma to_int_small (z : Z) : - 2 ^ 31 <= z < 2 ^ 31 -> to_int z = z.
Proof.
  intros H. unfold to_int, wrap_signed.
  change (2 ^ (32 - 1)) with (2 ^ 31). change (2 ^ 32) with (2 * 2 ^ 31).
  rewrite Z.mod_small; lia.
Qed.

Lemma to_uint_small (z : Z) : 0 <= z < 2 ^ 32 -> to_uint z = z.
Proof. intros H. unfold to_uint, wrap_unsigned. apply Z.mod_small; lia. Qed.

Lemma to_long_small (z : Z) : - 2 ^ 63 <= z < 2 ^ 63 -> to_long z = z.
Proof.
  intros H. unfold to_long, wrap_signed.
  change (2 ^ (64 - 1)) with (2 ^ 63). change (2 ^ 64) with (2 * 2 ^ 63).
  rewrite Z.mod_small; lia.
Qed.

Lemma to_ulong_small (z : Z) : 0 <= z < 2 ^ 64 -> to_ulong z = z.
Proof. intros H. unfold to_ulong, wrap_unsigned. apply Z.mod_small; lia. Qed.

Lemma to_uint_range (z : Z) : 0 <= to_uint z < 2 ^ 32.
Proof. unfold to_uint, wrap_unsigned. apply Z.mod_pos_bound. lia. Qed.

Lemma to_int_range (z : Z) : - 2 ^ 31 <= to_int z < 2 ^ 31.
Proof.
  unfold to_int, wrap_signed.
  change (2 ^ (32 - 1)) with (2 ^ 31). change (2 ^ 32) with (2 * 2 ^ 31).
  pose proof (Z.mod_pos_bound (z + 2 ^ 31) (2 * 2 ^ 31)). lia.
Qed.

(** ** The elapsed time *)

Lemma mseconds_elapsed_range (t0 t1 : timeval) : 1 <= mseconds_elapsed t0 t1 < 2 ^ 32.
Proof.
  unfold mseconds_elapsed.
  match goal with |- context [to_uint ?x] =>
    pose proof (to_uint_range x); destruct (Z.ltb_spec (to_uint x) 1)
  end; lia.
Qed.

(** C10. [mseconds_elapsed] returns at least 1 (and an [unsigned]) for every
    start time and every end time, so the divisor of the speed,
    [nbytes / 1000.0 / mseconds_elapsed(&t0)], is never zero; a job that takes
    no time at all counts as one millisecond. *)
Theorem mseconds_elapsed_at_least_1 :
  forall t0 t1 : timeval,
    1 <= mseconds_elapsed t0 t1 < 2 ^ 32 /\
    mseconds_elapsed t0 t1 <> 0 /\
    mseconds_elapsed t0 t0 = 1.
Proof.
  intros t0 t1. pose proof (mseconds_elapsed_range t0 t1) as R.
  split; [exact R|split; [lia|]].
  unfold mseconds_elapsed. rewrite !Z.sub_diag. reflexivity.
Qed.

(** ** The progress cadence *)

Lemma total_chunks_range (nbytes : Z) :
  0 <= nbytes <= INT_MAX * sizeof_buf -> 0 <= total_chunks nbytes <= INT_MAX.
Proof.
  unfold total_chunks, cdiv, INT_MAX, sizeof_buf. intros H. split.
  - apply Z.div_pos; lia.
  - enough ((nbytes + 32 * 1024 - 1) / (32 * 1024) < 2 ^ 31) by lia.
    apply Z.div_lt_upper_bound; lia.
Qed.

(** While the chunks fit an [int], [progress_len] is their number. *)
Lemma progress_len0_exact (nbytes : Z) :
  0 <= nbytes <= INT_MAX * sizeof_buf -> progress_len0 nbytes = total_chunks nbytes.
Proof.
  intros H. pose proof (total_chunks_range nbytes H) as R.
  unfold progress_len0, total_chunks, cdiv in *. unfold INT_MAX, sizeof_buf in *.
  rewrite (to_ulong_small nbytes) by lia.
  rewrite (to_ulong_small (nbytes + 32 * 1024)) by lia.
  rewrite (to_ulong_small (nbytes + 32 * 1024 - 1)) by lia.
  apply to_int_small. lia.
Qed.

Lemma shift_pow2 (k : Z) : 0 <= k < 30 -> to_int (Z.shiftl (2 ^ k) 1) = 2 ^ (k + 1).
Proof.
  intros H. rewrite Z.shiftl_mul_pow2 by lia. rewrite Z.pow_add_r by lia.
  change (2 ^ 1) with 2. apply to_int_small.
  assert (2 ^ k <= 2 ^ 29) by (apply Z.pow_le_mono_r; lia).
  assert (0 < 2 ^ k) by (apply Z.pow_pos_nonneg; lia).
  change (2 ^ 31) with (4 * 2 ^ 29). lia.
Qed.

Lemma cadence_loop_step (fuel : nat) (nbytes progress_step : Z) :
  cadence_loop (S fuel) nbytes progress_step =
    if progress_step =? 0 then None
    else if Z.quot (progress_len0 nbytes) progress_step <? 64 then
      Some (Z.quot (to_int (progress_len0 nbytes + (progress_step - 1))) progress_step,
            progress_step)
    else cadence_loop fuel nbytes (to_int (Z.shiftl progress_step 1)).
Proof. reflexivity. Qed.

(** The loop entered with [progress_step = 2 ^ k], every smaller power having
    been refused, stops at the first power the test accepts. *)
Lemma cadence_loop_stops (nbytes : Z) :
  0 <= progress_len0 nbytes < 2 ^ 31 ->
  forall (fuel : nat) (k : Z),
    0 <= k <= 25 -> 26 <= k + Z.of_nat fuel ->
    (forall j, 0 <= j < k -> 64 <= progress_len0 nbytes / 2 ^ j) ->
    exists m, k <= m <= 25 /\
      cadence_loop fuel nbytes (2 ^ k) =
        Some (Z.quot (to_int (progress_len0 nbytes + (2 ^ m - 1))) (2 ^ m), 2 ^ m) /\
      progress_len0 nbytes / 2 ^ m < 64 /\
      (forall j, 0 <= j < m -> 64 <= progress_len0 nbytes / 2 ^ j).
Proof.
  intros Hlen. set (len := progress_len0 nbytes) in *.
  induction fuel as [|fuel IH]; intros k Hk Hfuel Hprev.
  - simpl in Hfuel. lia.
  - assert (Hpos : 0 < 2 ^ k) by (apply Z.pow_pos_nonneg; lia).
    rewrite cadence_loop_step. fold len.
    destruct (Z.eqb_spec (2 ^ k) 0) as [E|_]; [lia|].
    rewrite Z.quot_div_nonneg by lia.
    destruct (Z.ltb_spec (len / 2 ^ k) 64) as [Hlt|Hge].
    + exists k. repeat split; try lia; assumption.
    + assert (Hk' : k < 25).
      { destruct (Z.lt_ge_cases k 25) as [|Hk25]; [assumption|exfalso].
        assert (k = 25) by lia. subst k.
        assert (len / 2 ^ 25 < 64) by (apply Z.div_lt_upper_bound; lia). lia. }
      rewrite shift_pow2 by lia.
      destruct (IH (k + 1)) as (m & Hm & Hrun & Hacc & Hrej).
      * lia.
      * lia.
      * intros j Hj. destruct (Z.eq_dec j k) as [->|]; [assumption|apply Hprev; lia].
      * exists m. repeat split; try lia; assumption.
Qed.

(** Whatever the size, the loop stops within its 32 iterations, at a power of
    two no larger than [2 ^ 25]. *)
Lemma cadence_total (nbytes : Z) :
  exists len k, 0 <= k <= 25 /\ cadence nbytes = Some (len, 2 ^ k).
Proof.
  pose proof (to_int_range
    (to_ulong (to_ulong (to_ulong nbytes + sizeof_buf) - 1) / sizeof_buf)) as R.
  fold (progress_len0 nbytes) in R.
  destruct (Z.lt_ge_cases (progress_len0 nbytes) 0) as [Hneg|Hpos].
  - exists (Z.quot (to_int (progress_len0 nbytes + (1 - 1))) 1), 0. split; [lia|].
    unfold cadence. rewrite cadence_loop_step. simpl (1 =? 0).
    rewrite Z.quot_1_r.
    destruct (Z.ltb_spec (progress_len0 nbytes) 64); [reflexivity|lia].
  - destruct (cadence_loop_stops nbytes (conj Hpos (proj2 R)) 32 0) as (m & Hm & Hrun & _).
    + lia.
    + simpl. lia.
    + intros j Hj. lia.
    + exists (Z.quot (to_int (progress_len0 nbytes + (2 ^ m - 1))) (2 ^ m)), m.
      split; [lia|exact Hrun].
Qed.

(** C1 (as amended).  While the chunks fit the program's [int], that is for
    [0 <= nbytes <= (2^31 - 1) * 32768], [progress_step] is the smallest power
    of two by which the number of chunks, divided rounding down, is below 64;
    the quotient rounded up, the length of the indicator, is then at most
    64. *)
Theorem progress_step_smallest_power_of_two :
  forall nbytes : Z,
    0 <= nbytes <= INT_MAX * sizeof_buf ->
    exists k : Z,
      0 <= k /\
      progress_step_of nbytes = Some (2 ^ k) /\
      cdiv nbytes sizeof_buf / 2 ^ k < 64 /\
      (forall j, 0 <= j < k -> 64 <= cdiv nbytes sizeof_buf / 2 ^ j) /\
      cdiv (cdiv nbytes sizeof_buf) (2 ^ k) <= 64.
Proof.
  intros nbytes H.
  pose proof (total_chunks_range nbytes H) as R.
  pose proof (progress_len0_exact nbytes H) as Hlen.
  fold (total_chunks nbytes).
  destruct (cadence_loop_stops nbytes) with (fuel := 32%nat) (k := 0)
    as (m & Hm & Hrun & Hacc & Hrej).
  - rewrite Hlen. unfold INT_MAX in R. lia.
  - lia.
  - simpl. lia.
  - intros j Hj. lia.
  - rewrite Hlen in Hacc, Hrej.
    exists m. split; [lia|]. split; [|split; [exact Hacc|split; [exact Hrej|]]].
    + unfold progress_step_of, cadence.
      change (cadence_loop 32 nbytes 1) with (cadence_loop 32 nbytes (2 ^ 0)).
      rewrite Hrun. reflexivity.
    + assert (Hpos : 0 < 2 ^ m) by (apply Z.pow_pos_nonneg; lia).
      unfold cdiv at 1.
      enough ((total_chunks nbytes + 2 ^ m - 1) / 2 ^ m < 65) by lia.
      apply Z.div_lt_upper_bound; [lia|].
      assert (total_chunks nbytes < 2 ^ m * 64); [|lia].
      pose proof (Z.div_mod (total_chunks nbytes) (2 ^ m)).
      pose proof (Z.mod_pos_bound (total_chunks nbytes) (2 ^ m)). nia.
Qed.

Lemma progress_step_smallest_power_of_two_witness :
  exists k : Z,
    0 <= k /\
    progress_step_of 10485760 = Some (2 ^ k) /\
    cdiv 10485760 sizeof_buf / 2 ^ k < 64 /\
    (forall j, 0 <= j < k -> 64 <= cdiv 10485760 sizeof_buf / 2 ^ j) /\
    cdiv (cdiv 10485760 sizeof_buf) (2 ^ k) <= 64.
Proof.
  apply (progress_step_smallest_power_of_two 10485760).
  unfold INT_MAX, sizeof_buf. lia.
Defined.

(** C1, the counterexample.  An image of 127 chunks gets the step 2, and 127
    chunks in steps of 2, rounded up, are 64, which is not below 64; the
    smallest power of two that brings the rounded-up quotient below 64 is
    4. *)
Lemma progress_step_ceiling_not_below_64 :
  progress_step_of 4161536 = Some 2 /\
  cdiv 4161536 sizeof_buf = 127 /\
  ~ cdiv (cdiv 4161536 sizeof_buf) 2 < 64 /\
  cdiv (cdiv 4161536 sizeof_buf) 4 < 64.
Proof.
  repeat split; try reflexivity.
  vm_compute. intros H. discriminate H.
Qed.

(** X2.  For every size an [off_t] can hold, and any other, the loop that looks
    for the step stops within its 32 iterations, at a power of two that is at
    most [2 ^ 25]. *)
Theorem cadence_always_stops :
  forall nbytes : Z,
    exists len k, 0 <= k <= 25 /\ cadence nbytes = Some (len, 2 ^ k) /\
                  progress_step_of nbytes = Some (2 ^ k).
Proof.
  intros nbytes. destruct (cadence_total nbytes) as (len & k & Hk & Hcad).
  exists len, k. split; [exact Hk|]. split; [exact Hcad|].
  unfold progress_step_of. rewrite Hcad. reflexivity.
Qed.

(** ** The chunk loops *)



Lemma count_cons (p : event -> bool) (e : event) (l : list event) :
  count p (e :: l) = (if p e then 1 else 0) + count p l.
Proof.
  unfold count. cbn [filter]. destruct (p e); cbn [List.length]; lia.
Qed.

Lemma count_nonneg (p : event -> bool) (l : list event) : 0 <= count p l.
Proof. unfold count. lia. Qed.

Lemma count_rev (p : event -> bool) (l : list event) : count p (rev l) = count p l.
Proof.
  unfold count. induction l as [|e l IH]; [reflexivity|].
  cbn [rev]. rewrite filter_app, length_app. cbn [filter].
  destruct (p e); cbn [List.length]; lia.
Qed.

(** [count < nbytes] is "a chunk is left". *)
Lemma chunk_left (nbytes k : Z) :
  0 <= nbytes -> 0 <= k ->
  (sizeof_buf * k <? nbytes) = (k <? total_chunks nbytes).
Proof.
  intros Hn Hk. unfold total_chunks, cdiv, sizeof_buf.
  pose proof (Z.div_mod (nbytes + 32 * 1024 - 1) (32 * 1024)).
  pose proof (Z.mod_pos_bound (nbytes + 32 * 1024 - 1) (32 * 1024)).
  destruct (Z.ltb_spec (32 * 1024 * k) nbytes), (Z.ltb_spec k ((nbytes + 32 * 1024 - 1) / (32 * 1024)));
    try reflexivity; nia.
Qed.

Lemma next_count_exact (k : Z) :
  0 <= k -> sizeof_buf * k < 2 ^ 62 -> next_count (sizeof_buf * k) = sizeof_buf * (k + 1).
Proof.
  intros Hk Hb. unfold next_count, sizeof_buf in *.
  rewrite (to_ulong_small (32 * 1024 * k)) by lia.
  rewrite (to_ulong_small (32 * 1024 * k + 32 * 1024)) by lia.
  rewrite to_long_small by lia. lia.
Qed.

(** One more chunk on a counter that wraps at [2 ^ 32], read in steps of a
    power of two. *)
Lemma progress_arith (j k : Z) :
  0 <= j <= 25 -> 0 <= k ->
  to_uint (to_uint k + 1) = to_uint (k + 1) /\
  to_uint (2 ^ j) = 2 ^ j /\ 0 < 2 ^ j /\
  to_uint (k + 1) mod 2 ^ j = (k + 1) mod 2 ^ j /\
  (k + 1) / 2 ^ j = k / 2 ^ j + (if (k + 1) mod 2 ^ j =? 0 then 1 else 0).
Proof.
  intros Hj Hk.
  assert (Hpos : 0 < 2 ^ j) by (apply Z.pow_pos_nonneg; lia).
  assert (Hle : 2 ^ j <= 2 ^ 25) by (apply Z.pow_le_mono_r; lia).
  repeat split.
  - unfold to_uint, wrap_unsigned. apply Zplus_mod_idemp_l.
  - apply to_uint_small. lia.
  - exact Hpos.
  - unfold to_uint, wrap_unsigned. apply Z.mod_mod_divide.
    exists (2 ^ (32 - j)). rewrite <- Z.pow_add_r by lia. f_equal. lia.
  - pose proof (Z.div_mod k (2 ^ j)). pose proof (Z.mod_pos_bound k (2 ^ j)).
    pose proof (Z.div_mod (k + 1) (2 ^ j)). pose proof (Z.mod_pos_bound (k + 1) (2 ^ j)).
    destruct (Z.eqb_spec ((k + 1) mod 2 ^ j) 0); nia.
Qed.

Ltac state_simpl :=
  cbn [progress_count src_pos dest_pos disk trace emit
       set_progress_count set_src_pos set_dest_pos set_disk].

Ltac fail_leaf :=
  unfold bind, eprintf, printf, log, quit, c_exit, ret; cbv beta iota;
  unfold job_failed; state_simpl; rewrite ?count_cons;
  cbn [is_mark is_close_src is_close_dest is_job_failure blamed Z.eqb];
  repeat split; try reflexivity; try assumption; try lia;
  try (eexists _, _; eassumption).

Section ChunkLoops.

Variables (w : world) (filename device_name : string) (verify_only nbytes j : Z).
Variable s0 : state.
Hypothesis Hsize : 0 <= nbytes <= 2 ^ 62.
Hypothesis Hj : 0 <= j <= 25.

Lemma write_chunks_wp :
  forall (fuel : nat) (k : Z) (buf : buffer) (s : state),
    0 <= k <= total_chunks nbytes ->
    total_chunks nbytes - k < Z.of_nat fuel ->
    at_chunk s0 (2 ^ j) k s ->
    wp (write_chunks fuel w filename device_name nbytes (2 ^ j) (sizeof_buf * k) buf)
       (fun _ s' => at_chunk s0 (2 ^ j) (total_chunks nbytes) s')
       (job_failed w 0 s0 (2 ^ j) (total_chunks nbytes)) s.
Proof.
  induction fuel as [|fuel IH]; intros k buf s Hk Hfuel Hs.
  - simpl in Hfuel. lia.
  - cbn [write_chunks].
    pose proof (chunk_left nbytes k (proj1 Hsize) (proj1 Hk)) as Hleft.
    destruct (Z.ltb_spec (sizeof_buf * k) nbytes) as [Hcount|Hcount];
      symmetry in Hleft; [apply Z.ltb_lt in Hleft as Hlt|apply Z.ltb_ge in Hleft as Hge].
    + destruct (progress_arith j k Hj (proj1 Hk)) as (Hinc & Hstep & Hpos & Hmod & Hdiv).
      destruct Hs as (Hpc & Hmarks & Hcs & Hcd).
      assert (Hm0 : 0 <= k / 2 ^ j) by (apply Z.div_pos; lia).
      assert (Hm1 : k / 2 ^ j <= total_chunks nbytes / 2 ^ j) by (apply Z.div_le_mono; lia).
      unfold wp, bind, read_src.
      destruct (read_ok w (src_pos s) (chunk_len nbytes (sizeof_buf * k))) eqn:Hread.
      * unfold disk_write. state_simpl.
        destruct (write_ok w (dest_pos s) (chunk_len nbytes (sizeof_buf * k))) eqn:Hwrite.
        -- unfold progress. state_simpl.
           rewrite Hpc, Hinc, Hstep, Hmod.
           destruct (Z.eqb_spec (2 ^ j) 0) as [E|_]; [lia|].
           rewrite next_count_exact by lia.
           destruct (Z.eqb_spec ((k + 1) mod 2 ^ j) 0) as [Hhit|Hmiss];
             unfold disk_flush, log, ret; apply IH; try lia;
             unfold at_chunk; state_simpl; rewrite ?count_cons; cbn [is_mark is_close_src is_close_dest];
             repeat split; try lia.
        -- unfold eprintf, log, quit, c_exit. fail_leaf.
      * unfold eprintf, log, quit, c_exit. fail_leaf.
    + unfold wp, ret. assert (k = total_chunks nbytes) as -> by lia. exact Hs.
Qed.

Lemma verify_chunks_wp :
  forall (fuel : nat) (k : Z) (buf buf2 : buffer) (s : state),
    0 <= k <= total_chunks nbytes ->
    total_chunks nbytes - k < Z.of_nat fuel ->
    verify_only <> 0 ->
    at_chunk s0 (2 ^ j) k s ->
    wp (verify_chunks fuel w filename device_name nbytes (2 ^ j) (sizeof_buf * k) buf buf2)
       (fun _ s' => at_chunk s0 (2 ^ j) (total_chunks nbytes) s')
       (job_failed w verify_only s0 (2 ^ j) (total_chunks nbytes)) s.
Proof.
  induction fuel as [|fuel IH]; intros k buf buf2 s Hk Hfuel Hv Hs.
  - simpl in Hfuel. lia.
  - cbn [verify_chunks].
    pose proof (chunk_left nbytes k (proj1 Hsize) (proj1 Hk)) as Hleft.
    destruct (Z.ltb_spec (sizeof_buf * k) nbytes) as [Hcount|Hcount];
      symmetry in Hleft; [apply Z.ltb_lt in Hleft as Hlt|apply Z.ltb_ge in Hleft as Hge].
    + destruct (progress_arith j k Hj (proj1 Hk)) as (Hinc & Hstep & Hpos & Hmod & Hdiv).
      destruct Hs as (Hpc & Hmarks & Hcs & Hcd).
      assert (Hm0 : 0 <= k / 2 ^ j) by (apply Z.div_pos; lia).
      assert (Hm1 : k / 2 ^ j <= total_chunks nbytes / 2 ^ j) by (apply Z.div_le_mono; lia).
      set (n := chunk_len nbytes (sizeof_buf * k)).
      unfold wp, bind, read_src.
      destruct (read_ok w (src_pos s) n) eqn:Hread.
      * unfold disk_read. state_simpl.
        destruct (disk_read_ok w (dest_pos s) n) eqn:Hdread.
        -- match goal with |- context [memcmp_ne ?a ?b ?c] => destruct (memcmp_ne a b c) end.
           ++ unfold print_mismatch, bind, eprintf, log. state_simpl.
              match goal with |- context [find_mismatch ?a ?b ?c ?d ?e] =>
                destruct (find_mismatch a b c d e) end; fail_leaf.
           ++ unfold progress, ret. state_simpl.
              rewrite Hpc, Hinc, Hstep, Hmod.
              destruct (Z.eqb_spec (2 ^ j) 0) as [E|_]; [lia|].
              rewrite next_count_exact by lia.
              destruct (Z.eqb_spec ((k + 1) mod 2 ^ j) 0) as [Hhit|Hmiss];
                apply IH; try lia;
                unfold at_chunk; state_simpl; rewrite ?count_cons;
                cbn [is_mark is_close_src is_close_dest];
                repeat split; try lia.
        -- fail_leaf.
      * fail_leaf.
    + unfold wp, ret. assert (k = total_chunks nbytes) as -> by lia. exact Hs.
Qed.

End ChunkLoops.

(** ** The whole job *)

Lemma chunk_fuel_enough (nbytes : Z) :
  0 <= nbytes -> total_chunks nbytes - 0 < Z.of_nat (chunk_fuel nbytes).
Proof.
  intros H. unfold chunk_fuel.
  assert (0 <= total_chunks nbytes).
  { unfold total_chunks, cdiv, sizeof_buf. apply Z.div_pos; lia. }
  lia.
Qed.

Lemma total_chunks_nonneg (nbytes : Z) : 0 <= nbytes -> 0 <= total_chunks nbytes.
Proof.
  intros H. unfold total_chunks, cdiv, sizeof_buf. apply Z.div_pos; lia.
Qed.

Ltac start_of_job :=
  unfold at_chunk; state_simpl; rewrite ?count_cons;
  cbn [is_mark is_close_src is_close_dest]; rewrite Z.div_0_l by lia;
  repeat split; lia.

Lemma write_image_wp (w : world) (filename device_name : string) (verify_only : Z)
    (s : state) (len j : Z) :
  0 <= st_size w <= 2 ^ 62 ->
  0 <= j <= 25 ->
  cadence (st_size w) = Some (len, 2 ^ j) ->
  wp (write_image w filename device_name verify_only)
     (fun _ => job_done s (2 ^ j) (total_chunks (st_size w)))
     (job_failed w verify_only s (2 ^ j) (total_chunks (st_size w))) s.
Proof.
  intros Hsize Hj Hcad.
  pose proof (total_chunks_nonneg _ (proj1 Hsize)) as Hchunks.
  assert (Hq : 0 <= total_chunks (st_size w) / 2 ^ j).
  { apply Z.div_pos; [lia|apply Z.pow_pos_nonneg; lia]. }
  unfold write_image. rewrite to_long_small by lia. rewrite Hcad.
  unfold wp, bind, disk_open, log, printf.
  destruct (src_opens w) eqn:Hsrc; [|fail_leaf].
  unfold bind, log. state_simpl.
  destruct (dest_opens w) eqn:Hdest; [|fail_leaf].
  cbv beta iota. state_simpl.
  pose proof (mseconds_elapsed_range (clock_start w) (clock_end w)) as Hms.
  destruct (Z.eqb_spec verify_only 0) as [->|Hv].
  - match goal with |- context [write_chunks ?f _ _ _ _ _ _ ?b ?s1] =>
      pose proof (write_chunks_wp w filename device_name (st_size w) j s Hsize Hj
                    f 0 b s1 ltac:(lia) (chunk_fuel_enough _ (proj1 Hsize))
                    ltac:(start_of_job)) as Hloop
    end.
    rewrite Z.mul_0_r in Hloop. unfold wp in Hloop.
    match type of Hloop with match ?r with _ => _ end =>
      destruct r as [b' s'|status why s'| |]
    end; try contradiction.
    + destruct Hloop as (Hpc & Hmarks & Hcs & Hcd).
      unfold disk_flush, disk_close, log, ret. state_simpl.
      unfold job_done. state_simpl. do 3 eexists. split; [reflexivity|].
      rewrite ?count_cons. cbn [is_mark is_close_src is_close_dest].
      repeat split; lia.
    + exact Hloop.
  - unfold ret.
    match goal with |- context [verify_chunks ?f _ _ _ _ _ _ ?b ?b2 ?s1] =>
      pose proof (verify_chunks_wp w filename device_name verify_only (st_size w) j s
                    Hsize Hj
                    f 0 b b2 s1 ltac:(lia) (chunk_fuel_enough _ (proj1 Hsize)) Hv
                    ltac:(start_of_job)) as Hloop
    end.
    rewrite Z.mul_0_r in Hloop. unfold wp in Hloop.
    match type of Hloop with match ?r with _ => _ end =>
      destruct r as [b' s'|status why s'| |]
    end; try contradiction.
    + destruct Hloop as (Hpc & Hmarks & Hcs & Hcd).
      unfold disk_close, log. state_simpl.
      unfold job_done. state_simpl. do 3 eexists. split; [reflexivity|].
      rewrite ?count_cons. cbn [is_mark is_close_src is_close_dest].
      repeat split; lia.
    + exact Hloop.
Qed.

(** While the chunks fit an [int], the step found keeps their quotient,
    rounded down, below 64. *)
Lemma cadence_in_range (nbytes : Z) :
  0 <= nbytes <= INT_MAX * sizeof_buf ->
  exists len j, 0 <= j <= 25 /\ cadence nbytes = Some (len, 2 ^ j) /\
                total_chunks nbytes / 2 ^ j < 64.
Proof.
  intros H.
  pose proof (total_chunks_range nbytes H) as R.
  pose proof (progress_len0_exact nbytes H) as Hlen.
  destruct (cadence_loop_stops nbytes) with (fuel := 32%nat) (k := 0)
    as (m & Hm & Hrun & Hacc & _).
  - rewrite Hlen. unfold INT_MAX in R. lia.
  - lia.
  - simpl. lia.
  - intros i Hi. lia.
  - rewrite Hlen in Hacc. eexists _, m. split; [lia|]. split; [exact Hrun|exact Hacc].
Qed.

Lemma int_range_is_sane (nbytes : Z) :
  0 <= nbytes <= INT_MAX * sizeof_buf -> 0 <= nbytes <= 2 ^ 62.
Proof. unfold INT_MAX, sizeof_buf. lia. Qed.

(** On an operating system on which nothing fails, a job in write mode
    returns. *)
Lemma fault_free_write_returns (w : world) (filename device_name : string)
    (s : state) (len j : Z) :
  fault_free w ->
  0 <= st_size w <= 2 ^ 62 ->
  0 <= j <= 25 ->
  cadence (st_size w) = Some (len, 2 ^ j) ->
  match write_image w filename device_name 0 s with
  | Ret _ s' => job_done s (2 ^ j) (total_chunks (st_size w)) s'
  | _ => False
  end.
Proof.
  intros (Hsrc & Hdest & Hread & Hwrite & _) Hsize Hj Hcad.
  pose proof (write_image_wp w filename device_name 0 s len j Hsize Hj Hcad) as H.
  unfold wp in H.
  destruct (write_image w filename device_name 0 s) as [[] s'|status why s'| |];
    try assumption.
  destruct H as (_ & _ & Hblame & _).
  destruct why; cbn [blamed] in Hblame; try contradiction; try congruence.
  - destruct Hblame as (pos & n & E). rewrite Hread in E. discriminate E.
  - destruct Hblame as (_ & pos & n & E). rewrite Hwrite in E. discriminate E.
  - destruct Hblame as (E & _). contradiction.
Qed.

(** X18.  While the chunks and the rounding of [progress_len] fit the
    program's [int], that is for images of at most [2^46 - 2^40] bytes, a job
    in either mode ends, by return or by [exit], with fewer than 64 progress
    marks emitted. *)
Theorem marks_of_a_job_below_64 :
  forall (w : world) (filename device_name : string) (verify_only : Z) (d : Z -> byte),
    0 <= st_size w <= 2 ^ 46 - 2 ^ 40 ->
    ended (write_image w filename device_name verify_only (boot d)) /\
    0 <= marks (write_image w filename device_name verify_only (boot d)) < 64.
Proof.
  intros w filename device_name verify_only d Hsmall.
  assert (Hsize : 0 <= st_size w <= INT_MAX * sizeof_buf)
    by (unfold INT_MAX, sizeof_buf; lia).
  destruct (cadence_in_range _ Hsize) as (len & j & Hj & Hcad & Hq).
  pose proof (write_image_wp w filename device_name verify_only (boot d) len j
                (int_range_is_sane _ Hsize) Hj Hcad) as H.
  unfold wp in H. unfold marks, events_of. rewrite <- ?rev_alt.
  destruct (write_image w filename device_name verify_only (boot d))
    as [[] s'|status why s'| |]; try contradiction.
  - split; [exact I|].
    destruct H as (before & n & ms & Htrace & _ & Hmarks & _).
    rewrite <- rev_alt, count_rev, Htrace, !count_cons. cbn [is_mark boot trace] in *.
    pose proof (count_nonneg is_mark before).
    change (count is_mark []) with 0 in Hmarks. lia.
  - split; [exact I|].
    destruct H as (_ & _ & _ & Hmarks & _).
    rewrite <- rev_alt, count_rev. cbn [boot trace] in Hmarks.
    change (count is_mark []) with 0 in Hmarks. lia.
Qed.

Lemma marks_of_a_job_below_64_witness :
  ended (write_image (steady 10485760) "sdcard.img" "/dev/sdb" 0 (boot (card_of x00))) /\
  0 <= marks (write_image (steady 10485760) "sdcard.img" "/dev/sdb" 0
                (boot (card_of x00))) < 64.
Proof.
  apply (marks_of_a_job_below_64 (steady 10485760) "sdcard.img" "/dev/sdb" 0 (card_of x00)).
  cbn [st_size steady]. lia.
Defined.

(** C2, the code at an image of 64 TiB.  The image has [2 ^ 31] chunks, one
    more than the [int progress_len] holds: the count is stored as
    [- 2 ^ 31], the test [progress_len / progress_step < 64], which is there
    to keep the marks below 64, accepts the step 1, and the job, on an
    operating system on which nothing fails, returns after [2 ^ 31] marks,
    not fewer than 64. *)
Theorem marks_of_a_64_TiB_job :
  progress_step_of (2 ^ 46) = Some 1 /\
  returned (write_image (steady (2 ^ 46)) "sdcard.img" "/dev/sdb" 0 (boot (card_of x00))) /\
  marks (write_image (steady (2 ^ 46)) "sdcard.img" "/dev/sdb" 0 (boot (card_of x00)))
    = 2 ^ 31 /\
  ~ marks (write_image (steady (2 ^ 46)) "sdcard.img" "/dev/sdb" 0 (boot (card_of x00)))
      < 64.
Proof.
  assert (Hcad : cadence (st_size (steady (2 ^ 46))) = Some (- 2 ^ 31, 2 ^ 0))
    by (vm_compute; reflexivity).
  assert (Hfree : fault_free (steady (2 ^ 46))) by (repeat split).
  assert (Hsize : 0 <= st_size (steady (2 ^ 46)) <= 2 ^ 62) by (cbn [st_size steady]; lia).
  pose proof (fault_free_write_returns (steady (2 ^ 46)) "sdcard.img" "/dev/sdb"
                (boot (card_of x00)) _ 0 Hfree Hsize ltac:(lia) Hcad) as H.
  unfold marks, events_of, returned.
  destruct (write_image (steady (2 ^ 46)) "sdcard.img" "/dev/sdb" 0 (boot (card_of x00)))
    as [[] s'|status why s'| |]; try contradiction.
  destruct H as (before & n & ms & Htrace & _ & Hmarks & _).
  rewrite <- rev_alt.
  assert (Hcount : count is_mark (rev (trace s')) = 2 ^ 31).
  { rewrite count_rev, Htrace, !count_cons. cbn [is_mark]. rewrite Hmarks.
    cbn [boot trace st_size steady]. reflexivity. }
  split; [vm_compute; reflexivity|]. split; [exact I|]. split; [exact Hcount|].
  rewrite Hcount. vm_compute. intros E. discriminate E.
Qed.

(** ** The two handles *)

(** C7, the counterexample.  The card refuses the first [write]: the job ends
    in [exit(-1)] inside [disk_write], both handles open, and [close] is
    called on neither. *)
Lemma write_error_leaves_handles_open :
  exited (write_image (write_protected 70000) "sdcard.img" "/dev/sdb" 0
            (boot (card_of x00))) /\
  events_of (write_image (write_protected 70000) "sdcard.img" "/dev/sdb" 0
               (boot (card_of x00))) =
    [EvOpenSrc; EvOpenDest;
     EvOut ("     Source: sdcard.img" ++ nl); EvOut ("Destination: /dev/sdb" ++ nl);
     EvSize 70000; EvOut "      Write: "; EvOut "..."; 
     EvOut (print_symbols_text backspace 3);
     EvRead 0 32768; EvDiskWrite 0 32768; EvErr ("/dev/sdb: Write error" ++ nl)] /\
  count is_close_dest
    (events_of (write_image (write_protected 70000) "sdcard.img" "/dev/sdb" 0
                  (boot (card_of x00)))) <> 1 /\
  count is_close_src
    (events_of (write_image (write_protected 70000) "sdcard.img" "/dev/sdb" 0
                  (boot (card_of x00)))) <> 1.
Proof.
  repeat split; try (vm_compute; reflexivity); vm_compute; intros E; discriminate E.
Qed.

(** ** An empty image *)

(** C9.  For an image of no bytes, once both handles are open, the job
    returns, in either mode, without one transfer and without one progress
    mark; in write mode the only flush is the final one, after " done", and in
    verify mode there is none. *)
Theorem zero_length_job :
  forall (w : world) (filename device_name : string) (verify_only : Z) (d : Z -> byte),
    st_size w = 0 -> src_opens w = true -> dest_opens w = true ->
    returned (write_image w filename device_name verify_only (boot d)) /\
    count is_transfer (events_of (write_image w filename device_name verify_only (boot d)))
      = 0 /\
    marks (write_image w filename device_name verify_only (boot d)) = 0 /\
    progress_step_of (st_size w) = Some 1 /\
    events_of (write_image w filename device_name verify_only (boot d)) =
      [EvOpenSrc; EvOpenDest;
       EvOut ("     Source: " ++ filename ++ nl);
       EvOut ("Destination: " ++ device_name ++ nl);
       EvSize 0]
      ++ (if verify_only =? 0
          then [EvOut "      Write: "; EvOut ""; EvOut ""; EvOut (" done      " ++ nl);
                EvFlush]
          else [EvOut "     Verify: "; EvOut ""; EvOut ""; EvOut (" done       " ++ nl)])
      ++ [EvCloseSrc; EvCloseDest;
          EvSpeed 0 (mseconds_elapsed (clock_start w) (clock_end w))].
Proof.
  intros w filename device_name verify_only d Hsize Hsrc Hdest.
  assert (Hrun : write_image w filename device_name verify_only (boot d) =
    Ret tt (mkState 0 0 0 d
      (rev ([EvOpenSrc; EvOpenDest;
             EvOut ("     Source: " ++ filename ++ nl);
             EvOut ("Destination: " ++ device_name ++ nl);
             EvSize 0]
            ++ (if verify_only =? 0
                then [EvOut "      Write: "; EvOut ""; EvOut "";
                      EvOut (" done      " ++ nl); EvFlush]
                else [EvOut "     Verify: "; EvOut ""; EvOut "";
                      EvOut (" done       " ++ nl)])
            ++ [EvCloseSrc; EvCloseDest;
                EvSpeed 0 (mseconds_elapsed (clock_start w) (clock_end w))])))).
  { unfold write_image. rewrite Hsize, Hsrc.
    change (cadence (to_long 0)) with (Some (0, 1)).
    unfold bind, disk_open, log, printf, ret. rewrite Hdest.
    destruct (verify_only =? 0); reflexivity. }
  rewrite Hrun, Hsize. unfold marks, events_of. cbn [trace].
  rewrite <- rev_alt, rev_involutive.
  repeat split; destruct (verify_only =? 0); reflexivity.
Qed.

Lemma zero_length_job_witness :
  returned (write_image (steady 0) "empty.img" "/dev/sdb" 0 (boot (card_of x00))) /\
  count is_transfer
    (events_of (write_image (steady 0) "empty.img" "/dev/sdb" 0 (boot (card_of x00)))) = 0 /\
  marks (write_image (steady 0) "empty.img" "/dev/sdb" 0 (boot (card_of x00))) = 0 /\
  progress_step_of (st_size (steady 0)) = Some 1 /\
  events_of (write_image (steady 0) "empty.img" "/dev/sdb" 0 (boot (card_of x00))) =
    [EvOpenSrc; EvOpenDest;
     EvOut ("     Source: " ++ "empty.img" ++ nl);
     EvOut ("Destination: " ++ "/dev/sdb" ++ nl);
     EvSize 0]
    ++ (if 0 =? 0
        then [EvOut "      Write: "; EvOut ""; EvOut ""; EvOut (" done      " ++ nl);
              EvFlush]
        else [EvOut "     Verify: "; EvOut ""; EvOut ""; EvOut (" done       " ++ nl)])
    ++ [EvCloseSrc; EvCloseDest;
        EvSpeed 0 (mseconds_elapsed (clock_start (steady 0)) (clock_end (steady 0)))].
Proof.
  apply (zero_length_job (steady 0) "empty.img" "/dev/sdb" 0 (card_of x00));
    reflexivity.
Defined.

(** ** The mismatch report *)

Lemma hex_digit_value_of_digit (d : Z) : 0 <= d < 16 -> hex_digit_value (hex_digit d) = d.
Proof.
  intros H.
  assert (d = 0 \/ d = 1 \/ d = 2 \/ d = 3 \/ d = 4 \/ d = 5 \/ d = 6 \/ d = 7 \/
          d = 8 \/ d = 9 \/ d = 10 \/ d = 11 \/ d = 12 \/ d = 13 \/ d = 14 \/ d = 15)
    as D by lia.
  repeat (destruct D as [->|D]; [reflexivity|]). subst d. reflexivity.
Qed.

Lemma hex_digits_length (fuel : nat) :
  forall (n : Z) (acc : string),
    (String.length acc <= String.length (hex_digits fuel n acc) <= fuel + String.length acc)%nat
    /\ (fuel <> O -> String.length acc < String.length (hex_digits fuel n acc))%nat.
Proof.
  induction fuel as [|fuel IH]; intros n acc.
  - simpl. lia.
  - cbn [hex_digits]. destruct (n / 16 =? 0).
    + simpl. lia.
    + destruct (IH (n / 16) (String (hex_digit (n mod 16)) acc)) as [Hb _].
      cbn [String.length] in Hb. lia.
Qed.

(** The digits [hex_digits] writes are those of [n]. *)
Lemma hex_digits_value (fuel : nat) :
  forall (n : Z) (acc : string),
    0 <= n < 16 ^ Z.of_nat fuel ->
    hex_value (hex_digits fuel n acc) =
      n * 16 ^ Z.of_nat (String.length acc) + hex_value acc.
Proof.
  induction fuel as [|fuel IH]; intros n acc Hn.
  - change (16 ^ Z.of_nat 0) with 1 in Hn. assert (n = 0) as -> by lia. reflexivity.
  - cbn [hex_digits].
    pose proof (Z.div_mod n 16 ltac:(lia)) as Hdm.
    pose proof (Z.mod_pos_bound n 16 ltac:(lia)) as Hmod.
    assert (Hpow : 0 < 16 ^ Z.of_nat (String.length acc)) by (apply Z.pow_pos_nonneg; lia).
    destruct (Z.eqb_spec (n / 16) 0) as [Hz|Hnz].
    + cbn [hex_value]. rewrite hex_digit_value_of_digit by lia.
      replace (n mod 16) with n by lia. reflexivity.
    + rewrite IH.
      * cbn [hex_value String.length]. rewrite hex_digit_value_of_digit by lia.
        rewrite Nat2Z.inj_succ, Z.pow_succ_r by lia. nia.
      * rewrite Nat2Z.inj_succ, Z.pow_succ_r in Hn by lia.
        split; [apply Z.div_pos; lia|apply Z.div_lt_upper_bound; lia].
Qed.

Lemma fmt_X_value (n : Z) : 0 <= n < 2 ^ 32 -> hex_value (fmt_X n) = n.
Proof.
  intros H. unfold fmt_X. rewrite to_uint_small by lia.
  rewrite hex_digits_value.
  - cbn [String.length hex_value Z.of_nat]. change (16 ^ 0) with 1. lia.
  - change (16 ^ Z.of_nat 8) with (2 ^ 32). lia.
Qed.

Lemma fmt_X_length (n : Z) : (1 <= String.length (fmt_X n) <= 8)%nat.
Proof.
  unfold fmt_X.
  destruct (hex_digits_length 8 (to_uint n) EmptyString) as [Hb Hlo].
  specialize (Hlo ltac:(discriminate)). cbn [String.length] in Hb, Hlo. lia.
Qed.

Lemma hex_value_zeros (k : nat) (s : string) : hex_value (zeros k ++ s) = hex_value s.
Proof.
  induction k as [|k IH]; [reflexivity|].
  cbn [zeros append hex_value]. rewrite IH. reflexivity.
Qed.

Lemma length_zeros (k : nat) : String.length (zeros k) = k.
Proof. induction k as [|k IH]; [reflexivity|]. cbn [zeros String.length]. now rewrite IH. Qed.

Lemma length_append (s t : string) :
  String.length (s ++ t) = (String.length s + String.length t)%nat.
Proof. induction s as [|c s IH]; [reflexivity|]. cbn [append String.length]. now rewrite IH. Qed.

Lemma hex_value_append (s t : string) :
  hex_value (s ++ t) = hex_value s * 16 ^ Z.of_nat (String.length t) + hex_value t.
Proof.
  induction s as [|c s IH]; [reflexivity|].
  cbn [append hex_value]. rewrite IH, length_append, Nat2Z.inj_add, Z.pow_add_r by lia.
  ring.
Qed.

Lemma fmt_08X_length (n : Z) : String.length (fmt_0X 8 n) = 8%nat.
Proof.
  unfold fmt_0X. pose proof (fmt_X_length n) as H.
  rewrite length_append, length_zeros. lia.
Qed.

Lemma fmt_08X_value (n : Z) : 0 <= n < 2 ^ 32 -> hex_value (fmt_0X 8 n) = n.
Proof. intros H. unfold fmt_0X. rewrite hex_value_zeros. apply fmt_X_value, H. Qed.

(** The halves [print_mismatch] takes with [>> 32] and [& 0xffffffff]. *)
Lemma offset_halves (offset : Z) :
  0 <= offset < 2 ^ 64 ->
  Z.shiftr offset 32 = offset / 2 ^ 32 /\
  Z.land offset 4294967295 = offset mod 2 ^ 32 /\
  0 <= offset / 2 ^ 32 < 2 ^ 32 /\ 0 <= offset mod 2 ^ 32 < 2 ^ 32.
Proof.
  intros H. repeat split.
  - apply Z.shiftr_div_pow2. lia.
  - change 4294967295 with (Z.ones 32). apply Z.land_ones. lia.
  - apply Z.div_pos; lia.
  - apply Z.div_lt_upper_bound; lia.
  - apply Z.mod_pos_bound. lia.
  - apply Z.mod_pos_bound. lia.
Qed.

(** The address as printed reads back as the offset. *)
Lemma fmt_address_value (offset : Z) :
  0 <= offset < 2 ^ 64 -> hex_value (fmt_address offset) = offset.
Proof.
  intros H. destruct (offset_halves offset H) as (Hhi & Hlo & Rhi & Rlo).
  unfold fmt_address. rewrite Hhi, Hlo.
  pose proof (Z.div_mod offset (2 ^ 32) ltac:(lia)) as Hdm.
  destruct (Z.eqb_spec (offset / 2 ^ 32) 0) as [Hz|Hnz].
  - rewrite fmt_X_value by lia. lia.
  - rewrite hex_value_append, fmt_08X_length, fmt_X_value, fmt_08X_value by lia.
    change (16 ^ Z.of_nat 8) with (2 ^ 32). lia.
Qed.

(** The scan stops at the first index where the arrays differ. *)
Lemma find_mismatch_first (valid invalid : buffer) (offset : Z) (cnt : nat) :
  forall (i j : Z),
    i <= j < i + Z.of_nat cnt ->
    (forall x, i <= x < j -> invalid x = valid x) ->
    invalid j <> valid j ->
    find_mismatch cnt valid invalid i offset =
      Some {| mm_offset := to_ulong (offset + j);
              mm_expected := valid j;
              mm_byte := invalid j |}.
Proof.
  induction cnt as [|cnt IH]; intros i j Hj Hsame Hdiff.
  - simpl in Hj. lia.
  - cbn [find_mismatch]. destruct (Byte.eqb (invalid i) (valid i)) eqn:E.
    + apply Byte.byte_dec_bl in E.
      assert (i <> j) by (intros ->; contradiction).
      apply IH; [lia| |assumption]. intros x Hx. apply Hsame. lia.
    + assert (i = j) as ->; [|reflexivity].
      destruct (Z.eq_dec i j) as [|Hne]; [assumption|exfalso].
      rewrite (Hsame i) in E by lia.
      rewrite (Byte.byte_dec_lb eq_refl) in E. discriminate E.
Qed.

(** [%02X] of a byte: two digits, which read back as the byte. *)
Lemma byte_rendering (b : byte) :
  String.length (fmt_0X 2 (byte_value b)) = 2%nat /\
  hex_value (fmt_0X 2 (byte_value b)) = byte_value b.
Proof. destruct b; split; vm_compute; reflexivity. Qed.

(** The address as printed: [%X] of the offset below 4 GiB, and from there on
    [%X] of the high half followed by [%08X] of the low half. *)
Lemma fmt_address_halves (offset : Z) :
  0 <= offset < 2 ^ 64 ->
  fmt_address offset =
    if offset <? 2 ^ 32 then fmt_X offset
    else (fmt_X (offset / 2 ^ 32) ++ fmt_0X 8 (offset mod 2 ^ 32))%string.
Proof.
  intros H. destruct (offset_halves offset H) as (Hhi & Hlo & Rhi & Rlo).
  unfold fmt_address. rewrite Hhi, Hlo.
  pose proof (Z.div_mod offset (2 ^ 32) ltac:(lia)) as Hdm.
  destruct (Z.ltb_spec offset (2 ^ 32)) as [Hsmall|Hbig].
  - rewrite Z.div_small, Z.mod_small by lia. reflexivity.
  - destruct (Z.eqb_spec (offset / 2 ^ 32) 0) as [Hz|_]; [lia|reflexivity].
Qed.

(** C4.  Given two arrays that agree on their first [j] bytes and differ at
    index [j] of a chunk that starts at [chunk_index * 32768],
    [print_mismatch] finds the offset [chunk_index * 32768 + j], the byte of
    the first array as the expected one and the byte of the second as the
    actual one, and ends the run after one line, which is written out here:
    "Error at address 0x", the offset, ": file=0x", the expected byte,
    ", disk=0x", the actual byte.  The offset is [%X] of it below 4 GiB and,
    from 4 GiB on, [%X] of its high 32 bits followed by [%08X], eight digits,
    of its low 32 bits; each byte is [%02X], two digits.  All of them read
    back, as hexadecimal numbers, as the values they render. *)
Theorem mismatch_report_is_exact :
  forall (valid invalid : buffer) (nbytes chunk_index j : Z) (s : state),
    0 <= chunk_index -> 0 <= j < nbytes ->
    chunk_index * sizeof_buf + j < 2 ^ 64 ->
    (forall i, 0 <= i < j -> invalid i = valid i) ->
    invalid j <> valid j ->
    let offset := chunk_index * sizeof_buf + j in
    let report := {| mm_offset := offset; mm_expected := valid j; mm_byte := invalid j |} in
    find_mismatch (Z.to_nat nbytes) valid invalid 0 (chunk_index * sizeof_buf)
      = Some report /\
    print_mismatch valid invalid nbytes (chunk_index * sizeof_buf) s
      = Exit (-1) AtMismatch
          (emit (EvOut (nl ++ "Error at address 0x"
                          ++ (if (offset <? 2 ^ 32)%Z then fmt_X offset
                              else fmt_X (offset / 2 ^ 32)%Z
                                   ++ fmt_0X 8 (offset mod 2 ^ 32)%Z)
                          ++ ": file=0x" ++ fmt_0X 2 (byte_value (valid j))
                          ++ ", disk=0x" ++ fmt_0X 2 (byte_value (invalid j))
                          ++ nl)%string) s) /\
    (offset < 2 ^ 32 -> hex_value (fmt_X offset) = offset) /\
    String.length (fmt_0X 2 (byte_value (valid j))) = 2%nat /\
    hex_value (fmt_0X 2 (byte_value (valid j))) = byte_value (valid j) /\
    String.length (fmt_0X 2 (byte_value (invalid j))) = 2%nat /\
    hex_value (fmt_0X 2 (byte_value (invalid j))) = byte_value (invalid j) /\
    hex_value (fmt_address offset) = offset /\
    (2 ^ 32 <= offset ->
     fmt_address offset
       = (fmt_X (offset / 2 ^ 32) ++ fmt_0X 8 (offset mod 2 ^ 32))%string /\
     String.length (fmt_0X 8 (offset mod 2 ^ 32)) = 8%nat /\
     hex_value (fmt_X (offset / 2 ^ 32)) = offset / 2 ^ 32 /\
     hex_value (fmt_0X 8 (offset mod 2 ^ 32)) = offset mod 2 ^ 32).
Proof.
  intros valid invalid nbytes chunk_index j s Hc Hj Hmax Hsame Hdiff offset report.
  assert (Hoff : 0 <= offset < 2 ^ 64) by (unfold offset, sizeof_buf in *; lia).
  assert (Hfind : find_mismatch (Z.to_nat nbytes) valid invalid 0 (chunk_index * sizeof_buf)
                  = Some report).
  { rewrite (find_mismatch_first valid invalid (chunk_index * sizeof_buf)
               (Z.to_nat nbytes) 0 j); try assumption; [|lia].
    unfold report. f_equal. f_equal. apply to_ulong_small. exact Hoff. }
  destruct (byte_rendering (valid j)) as (Hlen1 & Hval1).
  destruct (byte_rendering (invalid j)) as (Hlen2 & Hval2).
  split; [exact Hfind|]. split; [|split; [|split; [|split; [|split; [|split; [|split]]]]]];
    try assumption.
  - unfold print_mismatch. rewrite Hfind.
    unfold mismatch_text, report. cbn [mm_offset mm_expected mm_byte].
    rewrite (fmt_address_halves offset Hoff). reflexivity.
  - intros Hsmall. apply fmt_X_value. lia.
  - apply fmt_address_value. exact Hoff.
  - intros Hbig. destruct (offset_halves offset Hoff) as (Hhi & Hlo & Rhi & Rlo).
    split; [|split; [apply fmt_08X_length|split]].
    + rewrite (fmt_address_halves offset Hoff).
      destruct (Z.ltb_spec offset (2 ^ 32)) as [Hsmall|_]; [lia|reflexivity].
    + apply fmt_X_value. exact Rhi.
    + apply fmt_08X_value. exact Rlo.
Qed.

Lemma mismatch_report_is_exact_witness :
  (find_mismatch (Z.to_nat 32768) (card_of x41) (array_with x41 5 x42) 0
     (131072 * sizeof_buf)
   = Some {| mm_offset := 131072 * sizeof_buf + 5;
             mm_expected := x41; mm_byte := x42 |} /\
   print_mismatch (card_of x41) (array_with x41 5 x42) 32768 (131072 * sizeof_buf)
     (boot (card_of x00))
   = Exit (-1) AtMismatch
       (emit (EvOut (nl ++ "Error at address 0x"
                       ++ (if (131072 * sizeof_buf + 5 <? 2 ^ 32)%Z
                           then fmt_X (131072 * sizeof_buf + 5)%Z
                           else fmt_X ((131072 * sizeof_buf + 5) / 2 ^ 32)%Z
                                ++ fmt_0X 8 ((131072 * sizeof_buf + 5) mod 2 ^ 32)%Z)
                       ++ ": file=0x" ++ fmt_0X 2 (byte_value x41)
                       ++ ", disk=0x" ++ fmt_0X 2 (byte_value x42)
                       ++ nl)%string) (boot (card_of x00))) /\
   (131072 * sizeof_buf + 5 < 2 ^ 32 ->
    hex_value (fmt_X (131072 * sizeof_buf + 5)) = 131072 * sizeof_buf + 5) /\
   String.length (fmt_0X 2 (byte_value x41)) = 2%nat /\
   hex_value (fmt_0X 2 (byte_value x41)) = byte_value x41 /\
   String.length (fmt_0X 2 (byte_value x42)) = 2%nat /\
   hex_value (fmt_0X 2 (byte_value x42)) = byte_value x42 /\
   hex_value (fmt_address (131072 * sizeof_buf + 5)) = 131072 * sizeof_buf + 5 /\
   (2 ^ 32 <= 131072 * sizeof_buf + 5 ->
    fmt_address (131072 * sizeof_buf + 5)
      = (fmt_X ((131072 * sizeof_buf + 5) / 2 ^ 32)
         ++ fmt_0X 8 ((131072 * sizeof_buf + 5) mod 2 ^ 32))%string /\
    String.length (fmt_0X 8 ((131072 * sizeof_buf + 5) mod 2 ^ 32)) = 8%nat /\
    hex_value (fmt_X ((131072 * sizeof_buf + 5) / 2 ^ 32))
      = (131072 * sizeof_buf + 5) / 2 ^ 32 /\
    hex_value (fmt_0X 8 ((131072 * sizeof_buf + 5) mod 2 ^ 32))
      = (131072 * sizeof_buf + 5) mod 2 ^ 32)) /\
  131072 * sizeof_buf + 5 = 4294967301 /\
  fmt_address 4294967301 = "100000005"%string /\
  events_of (print_mismatch (card_of x41) (array_with x41 5 x42) 32768
               (131072 * sizeof_buf) (boot (card_of x00)))
    = [EvOut (nl ++ "Error at address 0x100000005: file=0x41, disk=0x42" ++ nl)] /\
  events_of (print_mismatch (card_of x41) (array_with x41 5 x42) 32768
               (3 * sizeof_buf) (boot (card_of x00)))
    = [EvOut (nl ++ "Error at address 0x18005: file=0x41, disk=0x42" ++ nl)].
Proof.
  split; [|repeat split; reflexivity].
  apply (mismatch_report_is_exact (card_of x41) (array_with x41 5 x42) 32768 131072 5
           (boot (card_of x00))).
  - lia.
  - lia.
  - unfold sizeof_buf. lia.
  - intros i Hi. unfold array_with, card_of.
    destruct (Z.eqb_spec i 5) as [E|_]; [lia|reflexivity].
  - unfold array_with, card_of. simpl. discriminate.
Defined.

(** ** Verify mode *)

(** C3, the code at two inputs.  In verify mode [disk_read] stores the card's
    bytes in [buf], over the image's bytes just read, and [memcmp] compares
    [buf] with [buf2], which nothing has stored into.  So an image of one byte
    ['A'] and a card that holds ['A'] are reported as a mismatch when the stack
    held a zero (with the card's byte as "file" and the stack's as "disk"),
    and the same image is accepted against a card that holds zeros. *)
Theorem verify_compares_the_card_with_the_stack :
  file (steady 1) 0 = x41 /\ stack_buf2 (steady 1) 0 = x00 /\
  events_of (write_image (steady 1) "sdcard.img" "/dev/sdb" 1 (boot (card_of x41))) =
    [EvOpenSrc; EvOpenDest;
     EvOut ("     Source: sdcard.img" ++ nl); EvOut ("Destination: /dev/sdb" ++ nl);
     EvSize 1; EvOut "     Verify: "; EvOut "."; EvOut (print_symbols_text backspace 1);
     EvRead 0 1; EvDiskRead 0 1; EvErr ("DATA ERROR!" ++ nl);
     EvOut (nl ++ "Error at address 0x0: file=0x41, disk=0x00" ++ nl)] /\
  exited (write_image (steady 1) "sdcard.img" "/dev/sdb" 1 (boot (card_of x41))) /\
  returned (write_image (steady 1) "sdcard.img" "/dev/sdb" 1 (boot (card_of x00))) /\
  count is_mark
    (events_of (write_image (steady 1) "sdcard.img" "/dev/sdb" 1 (boot (card_of x00)))) = 1.
Proof.
  split; [reflexivity|]. split; [reflexivity|].
  split; [vm_compute; reflexivity|].
  split; [vm_compute; exact I|].
  split; [vm_compute; exact I|].
  vm_compute. reflexivity.
Qed.

(** ** Verify mode never looks at the image *)

Lemma differ_from_ext (a a' b : buffer) :
  (forall i, a i = a' i) ->
  forall (cnt : nat) (i : Z), differ_from cnt a b i = differ_from cnt a' b i.
Proof.
  intros Hext. induction cnt as [|cnt IH]; intros i; [reflexivity|].
  cbn [differ_from]. rewrite Hext, IH. reflexivity.
Qed.

Lemma find_mismatch_ext (a a' b : buffer) (offset : Z) :
  (forall i, a i = a' i) ->
  forall (cnt : nat) (i : Z),
    find_mismatch cnt a b i offset = find_mismatch cnt a' b i offset.
Proof.
  intros Hext. induction cnt as [|cnt IH]; intros i; [reflexivity|].
  cbn [find_mismatch]. rewrite Hext, IH. reflexivity.
Qed.

(** What [disk_read] leaves in [buf] does not depend on what [read] had put
    there. *)
Lemma fill_over_fill (b b' : buffer) (image image' data : Z -> byte) (p q n : Z) :
  (forall i, b i = b' i) ->
  forall i, fill (fill b image p n) data q n i = fill (fill b' image' p n) data q n i.
Proof.
  intros Hext i. unfold fill. destruct ((0 <=? i) && (i <? n)); [reflexivity|apply Hext].
Qed.

Lemma verify_chunks_ignores_image (w : world) (image : Z -> byte)
    (filename device_name : string) (nbytes step : Z) (buf2 : buffer) :
  forall (fuel : nat) (count : Z) (buf buf' : buffer) (s : state),
    (forall i, buf i = buf' i) ->
    same_run
      (verify_chunks fuel w filename device_name nbytes step count buf buf2 s)
      (verify_chunks fuel (with_image w image) filename device_name nbytes step count
         buf' buf2 s).
Proof.
  induction fuel as [|fuel IH]; intros count buf buf' s Hext; [exact I|].
  cbn [verify_chunks]. destruct (count <? nbytes); [|reflexivity].
  set (n := chunk_len nbytes count).
  unfold bind, read_src. cbn [read_ok file with_image].
  destruct (read_ok w (src_pos s) n); [|repeat split].
  unfold disk_read. state_simpl. cbn [disk_read_ok with_image].
  destruct (disk_read_ok w (dest_pos s) n); [|repeat split].
  pose proof (fill_over_fill buf buf' (file w) image (disk s) (src_pos s) (dest_pos s) n
                Hext) as Hbuf.
  unfold memcmp_ne. rewrite (differ_from_ext _ _ buf2 Hbuf).
  match goal with |- context [differ_from ?c ?a ?b ?i] => destruct (differ_from c a b i) end.
  - unfold print_mismatch, bind, eprintf, log. state_simpl.
    rewrite (find_mismatch_ext _ _ buf2 _ Hbuf).
    match goal with |- context [find_mismatch ?c ?a ?b ?i ?o] =>
      destruct (find_mismatch c a b i o) end; repeat split.
  - unfold ret, progress. state_simpl.
    destruct (to_uint step =? 0); [exact I|].
    destruct (to_uint (progress_count s + 1) mod to_uint step =? 0); apply IH; exact Hbuf.
Qed.

(** X4.  In verify mode the bytes of the image have no part in what the job does:
    over the same card, with the same stack and the same answers of the
    operating system, any two images of the same size give the same calls,
    the same output, the same verdict and the same exit status. *)
Theorem verify_ignores_the_image :
  forall (w : world) (image : Z -> byte) (filename device_name : string)
         (verify_only : Z) (s : state),
    verify_only <> 0 ->
    same_run (write_image w filename device_name verify_only s)
             (write_image (with_image w image) filename device_name verify_only s).
Proof.
  intros w image filename device_name verify_only s Hv.
  unfold write_image. cbn [st_size src_opens with_image].
  unfold bind, disk_open, log, printf. cbn [dest_opens with_image].
  destruct (src_opens w); [|repeat split].
  unfold bind, log. state_simpl.
  destruct (dest_opens w); [|repeat split].
  cbv beta iota. state_simpl.
  destruct (cadence (to_long (st_size w))) as [[len step]|]; [|exact I].
  destruct (Z.eqb_spec verify_only 0) as [E|_]; [contradiction|].
  unfold ret. cbn [stack_buf stack_buf2 clock_start clock_end with_image].
  match goal with
  | |- context [verify_chunks ?f w ?fn ?dn ?nb ?st ?c ?b ?b2 ?s1] =>
      pose proof (verify_chunks_ignores_image w image fn dn nb st b2 f c b b s1
                    (fun i => eq_refl)) as H;
      destruct (verify_chunks f w fn dn nb st c b b2 s1) as [b1 s1'|st1 why1 s1'| |];
      destruct (verify_chunks f (with_image w image) fn dn nb st c b b2 s1)
        as [b2' s2'|st2 why2 s2'| |];
      cbn [same_run] in H; try contradiction
  end.
  - subst s2'. unfold disk_close, log. reflexivity.
  - destruct H as (-> & -> & ->). repeat split.
  - exact I.
  - exact I.
Qed.

Lemma verify_ignores_the_image_witness :
  same_run
    (write_image (steady 1) "sdcard.img" "/dev/sdb" 1 (boot (card_of x41)))
    (write_image (with_image (steady 1) (card_of x42)) "sdcard.img" "/dev/sdb" 1
       (boot (card_of x41))).
Proof.
  apply (verify_ignores_the_image (steady 1) (card_of x42) "sdcard.img" "/dev/sdb" 1
           (boot (card_of x41))).
  intros E. discriminate E.
Defined.

(** ** Write mode *)

(** Whatever is left, the length of a chunk is between 0 and the size of
    the array. *)
Lemma chunk_len_range (nbytes count : Z) : 0 <= chunk_len nbytes count <= sizeof_buf.
Proof.
  unfold chunk_len, sizeof_buf.
  pose proof (to_int_range (to_long (nbytes - count))) as R.
  set (n := to_int (to_long (nbytes - count))) in *.
  destruct (Z.ltb_spec (32 * 1024) (to_ulong n)) as [Hbig|Hsmall].
  - rewrite to_int_small by lia. lia.
  - destruct (Z.lt_ge_cases n 0) as [Hneg|Hpos].
    + assert (to_ulong n = n + 2 ^ 64); [|lia].
      unfold to_ulong, wrap_unsigned. symmetry.
      apply (Z.mod_unique _ _ (-1)); lia.
    + rewrite to_ulong_small in Hsmall by lia. lia.
Qed.

(** While less than 4 GiB are left, the chunk has the length the loop means
    it to have. *)
Lemma chunk_len_below_4_GiB (nbytes count : Z) :
  0 <= count < nbytes -> nbytes - count < 2 ^ 32 ->
  chunk_len nbytes count = Z.min sizeof_buf (nbytes - count).
Proof.
  intros Hc Hr. unfold chunk_len, sizeof_buf.
  rewrite to_long_small by lia.
  destruct (Z.lt_ge_cases (nbytes - count) (2 ^ 31)) as [Hsmall|Hbig].
  - rewrite (to_int_small (nbytes - count)) by lia.
    rewrite to_ulong_small by lia. rewrite to_int_small by lia.
    destruct (Z.ltb_spec (32 * 1024) (nbytes - count)); lia.
  - assert (E : to_int (nbytes - count) = nbytes - count - 2 ^ 32).
    { unfold to_int, wrap_signed. change (2 ^ (32 - 1)) with (2 ^ 31).
      rewrite <- (Z.mod_unique (nbytes - count + 2 ^ 31) (2 ^ 32) 1
                    (nbytes - count - 2 ^ 31)); lia. }
    rewrite E.
    assert (U : to_ulong (nbytes - count - 2 ^ 32) = nbytes - count - 2 ^ 32 + 2 ^ 64).
    { unfold to_ulong, wrap_unsigned. symmetry.
      apply (Z.mod_unique _ _ (-1)); lia. }
    rewrite U. rewrite to_int_small by lia.
    destruct (Z.ltb_spec (32 * 1024) (nbytes - count - 2 ^ 32 + 2 ^ 64)); lia.
Qed.

(** C8, the code at a 4 GiB image.  [n = nbytes - count] narrows what is left
    to an [int]: with exactly [2 ^ 32] bytes left [n] is 0, not 32768, so the
    first chunk of the image is read and written with the length 0 (here the
    card refuses every [write], which ends the run at that call); the chunks
    after it have their 32768 bytes. *)
Theorem write_mode_short_chunk_at_4_GiB :
  Z.min sizeof_buf (4294967296 - 0 * sizeof_buf) = 32768 /\
  chunk_len 4294967296 (0 * sizeof_buf) = 0 /\
  chunk_len 4294967296 (1 * sizeof_buf) = 32768 /\
  events_of (write_image (write_protected 4294967296) "sdcard.img" "/dev/sdb" 0
               (boot (card_of x00))) =
    [EvOpenSrc; EvOpenDest;
     EvOut ("     Source: sdcard.img" ++ nl); EvOut ("Destination: /dev/sdb" ++ nl);
     EvSize 4294967296; EvOut "      Write: ";
     EvOut (print_symbols_text "." 32); EvOut (print_symbols_text backspace 32);
     EvRead 0 0; EvDiskWrite 0 0; EvErr ("/dev/sdb: Write error" ++ nl)].
Proof.
  split; [reflexivity|]. split; [reflexivity|]. split; [reflexivity|].
  vm_compute. reflexivity.
Qed.

(** ** Write mode below 4 GiB *)

Section Planned.

Variables (w : world) (filename device_name : string) (nbytes j : Z).
Hypothesis Hfree : fault_free w.
Hypothesis Hsize : 0 <= nbytes < 2 ^ 32.
Hypothesis Hj : 0 <= j <= 25.

(** The loop does what is planned for the chunks that are left. *)
Lemma write_chunks_as_planned :
  forall (todo fuel : nat) (k : Z) (buf : buffer) (s : state),
    0 <= k -> Z.of_nat todo = total_chunks nbytes - k ->
    (todo < fuel)%nat ->
    src_pos s = Z.min nbytes (sizeof_buf * k) ->
    dest_pos s = Z.min nbytes (sizeof_buf * k) ->
    progress_count s = k ->
    exists buf' s',
      write_chunks fuel w filename device_name nbytes (2 ^ j) (sizeof_buf * k) buf s
        = Ret buf' s' /\
      trace s' = rev (planned_chunks todo nbytes (2 ^ j) k) ++ trace s.
Proof.
  destruct Hfree as (_ & _ & Hread & Hwrite & _).
  induction todo as [|todo IH]; intros fuel k buf s Hk Htodo Hfuel Hsrc Hdest Hpc;
    (destruct fuel as [|fuel]; [lia|]); cbn [write_chunks];
    rewrite chunk_left by lia.
  - destruct (Z.ltb_spec k (total_chunks nbytes)) as [Hlt|_]; [lia|].
    exists buf, s. split; reflexivity.
  - destruct (Z.ltb_spec k (total_chunks nbytes)) as [Hlt|Hge]; [|lia].
    assert (Hcount : sizeof_buf * k < nbytes).
    { pose proof (chunk_left nbytes k (proj1 Hsize) Hk) as E.
      rewrite (proj2 (Z.ltb_lt _ _) Hlt) in E. apply Z.ltb_lt in E. exact E. }
    assert (Hchunks : total_chunks nbytes <= 2 ^ 17).
    { unfold total_chunks, cdiv, sizeof_buf.
      enough ((nbytes + 32 * 1024 - 1) / (32 * 1024) < 2 ^ 17 + 1) by lia.
      apply Z.div_lt_upper_bound; lia. }
    rewrite chunk_len_below_4_GiB by (unfold sizeof_buf in *; lia).
    set (n := Z.min sizeof_buf (nbytes - sizeof_buf * k)).
    destruct (progress_arith j k Hj Hk) as (Hinc & Hstep & Hpos & Hmod & Hdiv).
    unfold bind, read_src. rewrite Hread.
    unfold disk_write. state_simpl. rewrite Hwrite.
    unfold progress. state_simpl. rewrite Hpc, Hstep.
    rewrite (to_uint_small (k + 1)) by lia.
    destruct (Z.eqb_spec (2 ^ j) 0) as [E|_]; [lia|].
    rewrite next_count_exact by (unfold sizeof_buf in *; lia).
    rewrite Hsrc, Hdest. rewrite (Z.min_r nbytes (sizeof_buf * k)) by lia.
    destruct (Z.eqb_spec ((k + 1) mod 2 ^ j) 0) as [Hhit|Hmiss].
    + unfold disk_flush, log.
      match goal with |- context [write_chunks fuel _ _ _ _ _ _ ?b ?s1] =>
        destruct (IH fuel (k + 1) b s1) as (buf' & s' & Hrun & Htrace)
      end; try lia; try (state_simpl; unfold n, sizeof_buf in *; lia).
      exists buf', s'. split; [exact Hrun|].
      rewrite Htrace. state_simpl. cbn [planned_chunks]. fold n.
      rewrite (proj2 (Z.eqb_eq _ _) Hhit). cbn [rev app].
      rewrite <- !app_assoc. reflexivity.
    + unfold ret.
      match goal with |- context [write_chunks fuel _ _ _ _ _ _ ?b ?s1] =>
        destruct (IH fuel (k + 1) b s1) as (buf' & s' & Hrun & Htrace)
      end; try lia; try (state_simpl; unfold n, sizeof_buf in *; lia).
      exists buf', s'. split; [exact Hrun|].
      rewrite Htrace. state_simpl. cbn [planned_chunks]. fold n.
      rewrite (proj2 (Z.eqb_neq _ _) Hmiss). cbn [rev app].
      rewrite <- !app_assoc. reflexivity.
Qed.

End Planned.

Lemma count_app (p : event -> bool) (l l' : list event) :
  count p (l ++ l') = count p l + count p l'.
Proof. unfold count. rewrite filter_app, length_app. lia. Qed.

(** The plan writes every chunk once and flushes after every [step]-th. *)
Lemma planned_counts (nbytes step : Z) :
  0 < step ->
  forall (todo : nat) (k : Z),
    0 <= k ->
    count is_disk_write (planned_chunks todo nbytes step k) = Z.of_nat todo /\
    count is_flush (planned_chunks todo nbytes step k)
      = (k + Z.of_nat todo) / step - k / step /\
    count is_mark (planned_chunks todo nbytes step k)
      = (k + Z.of_nat todo) / step - k / step.
Proof.
  intros Hstep. induction todo as [|todo IH]; intros k Hk.
  - cbn [planned_chunks]. rewrite Z.add_0_r. repeat split; try reflexivity;
      change (count _ []) with 0; lia.
  - cbn [planned_chunks]. destruct (IH (k + 1) ltac:(lia)) as (Hw & Hf & Hm).
    rewrite !count_cons, !count_app, Hw, Hf, Hm.
    cbn [is_disk_write is_flush is_mark].
    replace (k + 1 + Z.of_nat todo) with (k + Z.of_nat (S todo)) by lia.
    assert (Hdiv : (k + 1) / step = k / step + (if (k + 1) mod step =? 0 then 1 else 0)).
    { pose proof (Z.div_mod k step ltac:(lia)). pose proof (Z.mod_pos_bound k step Hstep).
      pose proof (Z.div_mod (k + 1) step ltac:(lia)).
      pose proof (Z.mod_pos_bound (k + 1) step Hstep).
      destruct (Z.eqb_spec ((k + 1) mod step) 0); nia. }
    destruct ((k + 1) mod step =? 0); rewrite ?count_cons;
      cbn [is_disk_write is_flush is_mark]; change (count _ []) with 0;
      repeat split; lia.
Qed.

(** X1.  Write mode on an image of less than 4 GiB, when nothing fails: the job
    returns, and between the header and " done" it does exactly what is
    planned, chunk by chunk, each of [min(32768, nbytes - 32768 k)] bytes
    read and written at the offset [32768 k]; it writes every chunk once,
    flushes after every [step]-th chunk and once more at the end. *)
Theorem write_mode_below_4_GiB_as_planned :
  forall (w : world) (filename device_name : string) (d : Z -> byte) (len step : Z),
    fault_free w ->
    0 <= st_size w < 2 ^ 32 ->
    cadence (st_size w) = Some (len, step) ->
    returned (write_image w filename device_name 0 (boot d)) /\
    events_of (write_image w filename device_name 0 (boot d)) =
      [EvOpenSrc; EvOpenDest;
       EvOut ("     Source: " ++ filename ++ nl);
       EvOut ("Destination: " ++ device_name ++ nl);
       EvSize (st_size w);
       EvOut "      Write: ";
       EvOut (print_symbols_text "." len);
       EvOut (print_symbols_text backspace len)]
      ++ planned_chunks (Z.to_nat (total_chunks (st_size w))) (st_size w) step 0
      ++ [EvOut (" done      " ++ nl); EvFlush; EvCloseSrc; EvCloseDest;
          EvSpeed (st_size w) (mseconds_elapsed (clock_start w) (clock_end w))] /\
    count is_disk_write (events_of (write_image w filename device_name 0 (boot d)))
      = total_chunks (st_size w) /\
    count is_flush (events_of (write_image w filename device_name 0 (boot d)))
      = total_chunks (st_size w) / step + 1.
Proof.
  intros w filename device_name d len step Hfree Hsize Hcad.
  destruct (cadence_total (st_size w)) as (len' & j & Hj & Hcad').
  rewrite Hcad in Hcad'. injection Hcad' as _ ->.
  pose proof (total_chunks_nonneg _ (proj1 Hsize)) as Hchunks.
  assert (Hpos : 0 < 2 ^ j) by (apply Z.pow_pos_nonneg; lia).
  assert (Hrun : exists s',
    write_image w filename device_name 0 (boot d) = Ret tt s' /\
    trace s' =
      rev ([EvOpenSrc; EvOpenDest;
            EvOut ("     Source: " ++ filename ++ nl);
            EvOut ("Destination: " ++ device_name ++ nl);
            EvSize (st_size w);
            EvOut "      Write: ";
            EvOut (print_symbols_text "." len);
            EvOut (print_symbols_text backspace len)]
           ++ planned_chunks (Z.to_nat (total_chunks (st_size w))) (st_size w) (2 ^ j) 0
           ++ [EvOut (" done      " ++ nl); EvFlush; EvCloseSrc; EvCloseDest;
               EvSpeed (st_size w) (mseconds_elapsed (clock_start w) (clock_end w))])).
  { unfold write_image. rewrite to_long_small by lia. rewrite Hcad.
    destruct Hfree as (Hsrc & Hdest & Hrest).
    unfold bind, disk_open, log, printf. rewrite Hsrc. unfold bind, log. state_simpl.
    rewrite Hdest. cbv beta iota. state_simpl. cbn [Z.eqb].
    match goal with |- context [write_chunks ?f _ _ _ _ _ _ ?b ?s1] =>
      destruct (write_chunks_as_planned w filename device_name (st_size w) j
                  (conj Hsrc (conj Hdest Hrest)) Hsize Hj
                  (Z.to_nat (total_chunks (st_size w))) f 0 b s1)
        as (buf' & s' & Hloop & Htrace)
    end; try (unfold chunk_fuel; state_simpl; lia).
    rewrite Z.mul_0_r in Hloop. rewrite Hloop.
    unfold disk_flush, disk_close, log, ret. state_simpl.
    eexists. split; [reflexivity|]. state_simpl. rewrite Htrace. state_simpl.
    rewrite !rev_app_distr. cbn [rev app]. reflexivity. }
  destruct Hrun as (s' & Hrun & Htrace).
  rewrite Hrun. unfold events_of. rewrite <- rev_alt, Htrace, rev_involutive.
  split; [exact I|]. split; [reflexivity|].
  destruct (planned_counts (st_size w) (2 ^ j) Hpos
              (Z.to_nat (total_chunks (st_size w))) 0 ltac:(lia)) as (Hw & Hf & _).
  rewrite !count_app, Hw, Hf, !count_cons. cbn [is_disk_write is_flush].
  change (count _ []) with 0. rewrite Z.div_0_l by lia.
  rewrite Z2Nat.id by lia. rewrite (Z.add_0_l (total_chunks (st_size w))).
  split; lia.
Qed.

Lemma write_mode_below_4_GiB_as_planned_witness :
  returned (write_image (steady 10485760) "sdcard.img" "/dev/sdb" 0 (boot (card_of x00))) /\
  events_of (write_image (steady 10485760) "sdcard.img" "/dev/sdb" 0 (boot (card_of x00))) =
    [EvOpenSrc; EvOpenDest;
     EvOut ("     Source: " ++ "sdcard.img" ++ nl);
     EvOut ("Destination: " ++ "/dev/sdb" ++ nl);
     EvSize (st_size (steady 10485760));
     EvOut "      Write: ";
     EvOut (print_symbols_text "." 40);
     EvOut (print_symbols_text backspace 40)]
    ++ planned_chunks (Z.to_nat (total_chunks (st_size (steady 10485760))))
         (st_size (steady 10485760)) 8 0
    ++ [EvOut (" done      " ++ nl); EvFlush; EvCloseSrc; EvCloseDest;
        EvSpeed (st_size (steady 10485760))
          (mseconds_elapsed (clock_start (steady 10485760))
             (clock_end (steady 10485760)))] /\
  count is_disk_write
    (events_of (write_image (steady 10485760) "sdcard.img" "/dev/sdb" 0
                  (boot (card_of x00))))
    = total_chunks (st_size (steady 10485760)) /\
  count is_flush
    (events_of (write_image (steady 10485760) "sdcard.img" "/dev/sdb" 0
                  (boot (card_of x00))))
    = total_chunks (st_size (steady 10485760)) / 8 + 1.
Proof.
  apply (write_mode_below_4_GiB_as_planned (steady 10485760) "sdcard.img" "/dev/sdb"
           (card_of x00) 40 8).
  - repeat split.
  - cbn [st_size steady]. lia.
  - reflexivity.
Defined.

(** The scenario of 10485760 bytes: 320 chunks, the step 8, 320 calls of
    [disk_write], 40 flushes on the cadence and one at the end, 40 marks. *)
Example ten_MiB_scenario :
  total_chunks 10485760 = 320 /\
  cadence 10485760 = Some (40, 8) /\
  count is_disk_write
    (events_of (write_image (steady 10485760) "sdcard.img" "/dev/sdb" 0
                  (boot (card_of x00)))) = 320 /\
  count is_flush
    (events_of (write_image (steady 10485760) "sdcard.img" "/dev/sdb" 0
                  (boot (card_of x00)))) = 40 + 1 /\
  marks (write_image (steady 10485760) "sdcard.img" "/dev/sdb" 0 (boot (card_of x00)))
    = 40.
Proof.
  repeat split; vm_compute; reflexivity.
Qed.

(** ** Write mode from 4 GiB on *)

Lemma bytes_written_app (l l' : list event) :
  bytes_written (l ++ l') = bytes_written l + bytes_written l'.
Proof.
  induction l as [|e l IH]; [reflexivity|].
  cbn [app bytes_written]. destruct e; rewrite IH; lia.
Qed.

Lemma bytes_written_rev (l : list event) : bytes_written (rev l) = bytes_written l.
Proof.
  induction l as [|e l IH]; [reflexivity|].
  cbn [rev]. rewrite bytes_written_app, IH. cbn [bytes_written].
  destruct e; lia.
Qed.

Section Written.

Variables (w : world) (filename device_name : string) (nbytes j : Z).
Hypothesis Hfree : fault_free w.
Hypothesis Hsize : 0 <= nbytes <= 2 ^ 62.
Hypothesis Hj : 0 <= j <= 25.

(** When nothing fails the loop of write mode runs through, and hands to
    [disk_write] the lengths it computes, whatever they are. *)
Lemma write_chunks_bytes :
  forall (todo fuel : nat) (k : Z) (buf : buffer) (s : state),
    0 <= k -> Z.of_nat todo = total_chunks nbytes - k ->
    (todo < fuel)%nat ->
    exists buf' s',
      write_chunks fuel w filename device_name nbytes (2 ^ j) (sizeof_buf * k) buf s
        = Ret buf' s' /\
      bytes_written (trace s') = bytes_written (trace s) + sum_chunk_len todo nbytes k.
Proof.
  destruct Hfree as (_ & _ & Hread & Hwrite & _).
  induction todo as [|todo IH]; intros fuel k buf s Hk Htodo Hfuel;
    (destruct fuel as [|fuel]; [lia|]); cbn [write_chunks];
    rewrite chunk_left by lia.
  - destruct (Z.ltb_spec k (total_chunks nbytes)) as [Hlt|_]; [lia|].
    exists buf, s. split; [reflexivity|]. cbn [sum_chunk_len]. lia.
  - destruct (Z.ltb_spec k (total_chunks nbytes)) as [Hlt|Hge]; [|lia].
    assert (Hcount : sizeof_buf * k < nbytes).
    { pose proof (chunk_left nbytes k (proj1 Hsize) Hk) as E.
      rewrite (proj2 (Z.ltb_lt _ _) Hlt) in E. apply Z.ltb_lt in E. exact E. }
    set (n := chunk_len nbytes (sizeof_buf * k)).
    destruct (progress_arith j k Hj Hk) as (_ & Hstep & Hpos & _).
    unfold bind, read_src. rewrite Hread.
    unfold disk_write. state_simpl. rewrite Hwrite.
    unfold progress. state_simpl. rewrite Hstep.
    destruct (Z.eqb_spec (2 ^ j) 0) as [E|_]; [lia|].
    rewrite next_count_exact by lia.
    destruct (to_uint (progress_count s + 1) mod 2 ^ j =? 0);
      unfold disk_flush, log, ret;
      match goal with |- context [write_chunks fuel _ _ _ _ _ _ ?b ?s1] =>
        destruct (IH fuel (k + 1) b s1) as (buf' & s' & Hrun & Hbytes)
      end; try lia;
      exists buf', s'; (split; [exact Hrun|]);
      rewrite Hbytes; state_simpl; cbn [bytes_written sum_chunk_len]; fold n; lia.
Qed.

End Written.

(** In an image of [2 ^ 32] bytes every chunk but the first has its 32768
    bytes. *)
Lemma sum_chunk_len_4_GiB (todo : nat) :
  forall k : Z,
    1 <= k -> k + Z.of_nat todo <= 131072 ->
    sum_chunk_len todo 4294967296 k = sizeof_buf * Z.of_nat todo.
Proof.
  induction todo as [|todo IH]; intros k Hk Hmax.
  - cbn [sum_chunk_len]. lia.
  - cbn [sum_chunk_len]. rewrite IH by lia.
    rewrite chunk_len_below_4_GiB by (unfold sizeof_buf; lia).
    unfold sizeof_buf. lia.
Qed.

Lemma sum_chunk_len_of_4_GiB (chunks : nat) :
  Z.of_nat chunks = 131072 ->
  sum_chunk_len chunks 4294967296 0 = 4294967296 - 32768.
Proof.
  intros H. destruct chunks as [|todo]; [lia|].
  cbn [sum_chunk_len]. rewrite sum_chunk_len_4_GiB by lia.
  change (chunk_len 4294967296 (sizeof_buf * 0)) with 0. unfold sizeof_buf. lia.
Qed.

(** X5.  An image of exactly 4 GiB, on an operating system on which nothing
    fails: write mode returns as after a complete job (and the run then ends
    with the status 0), but [disk_write] was handed 32768 bytes less than the
    image holds, because the first chunk was taken to be empty. *)
Theorem write_mode_drops_a_chunk_of_4_GiB :
  forall (w : world) (filename device_name : string) (d : Z -> byte),
    fault_free w ->
    st_size w = 4294967296 ->
    returned (write_image w filename device_name 0 (boot d)) /\
    bytes_written (events_of (write_image w filename device_name 0 (boot d)))
      = 4294967296 - 32768.
Proof.
  intros w filename device_name d Hfree Hsize.
  destruct (cadence_total (st_size w)) as (len & j & Hj & Hcad).
  assert (Hrange : 0 <= st_size w <= 2 ^ 62) by (rewrite Hsize; lia).
  pose proof (total_chunks_nonneg _ (proj1 Hrange)) as Hchunks.
  assert (Hrun : exists s',
            write_image w filename device_name 0 (boot d) = Ret tt s' /\
            bytes_written (trace s')
              = sum_chunk_len (Z.to_nat (total_chunks (st_size w))) (st_size w) 0).
  { unfold write_image. rewrite to_long_small by lia. rewrite Hcad.
    pose proof Hfree as (Hsrc & Hdest & _).
    unfold bind, disk_open, log, printf. rewrite Hsrc. unfold bind, log. state_simpl.
    rewrite Hdest. cbv beta iota. state_simpl. cbn [Z.eqb].
    match goal with |- context [write_chunks ?f _ _ _ _ _ _ ?b ?s1] =>
      destruct (write_chunks_bytes w filename device_name (st_size w) j Hfree Hrange Hj
                  (Z.to_nat (total_chunks (st_size w))) f 0 b s1)
        as (buf' & s' & Hloop & Hbytes)
    end; try (unfold chunk_fuel; lia).
    rewrite Z.mul_0_r in Hloop. rewrite Hloop.
    unfold disk_flush, disk_close, log, ret. state_simpl.
    eexists. split; [reflexivity|]. state_simpl. cbn [bytes_written].
    cbn [trace emit set_progress_count set_src_pos set_dest_pos set_disk boot
         bytes_written] in Hbytes.
    rewrite Z.add_0_l in Hbytes. exact Hbytes. }
  destruct Hrun as (s' & Hrun & Hbytes).
  rewrite Hrun. unfold events_of. rewrite <- rev_alt, bytes_written_rev, Hbytes, Hsize.
  split; [exact I|].
  apply sum_chunk_len_of_4_GiB. rewrite Z2Nat.id; [reflexivity|].
  rewrite <- Hsize. exact Hchunks.
Qed.

Lemma write_mode_drops_a_chunk_of_4_GiB_witness :
  returned (write_image (steady 4294967296) "sdcard.img" "/dev/sdb" 0
              (boot (card_of x00))) /\
  bytes_written (events_of (write_image (steady 4294967296) "sdcard.img" "/dev/sdb" 0
                              (boot (card_of x00))))
    = 4294967296 - 32768.
Proof.
  apply (write_mode_drops_a_chunk_of_4_GiB (steady 4294967296) "sdcard.img" "/dev/sdb"
           (card_of x00)).
  - repeat split.
  - reflexivity.
Defined.

(** ** Device enumeration *)

(** C6 (as amended).  When [udev_new] gives no object, [get_devices] prints
    "Can't create udev" and ends the process through [quit(0)], that is with
    [exit(-1)], which the parent reads as 255.  It returns no sequence; its
    callers [ask_device] and [usage] end there with it. *)
Theorem udev_failure_ends_the_process :
  forall (p : platform) (maxdev : Z) (stdin : list string) (s : state),
    udev_new_ok p = false ->
    get_devices p maxdev s
      = Exit (-1) AtUdev (emit (EvOut ("Can't create udev" ++ nl)) s) /\
    ask_device p stdin s
      = Exit (-1) AtUdev (emit (EvOut ("Can't create udev" ++ nl)) s) /\
    exited (@usage unit p s) /\
    (forall status why s', @usage unit p s = Exit status why s' ->
                           status = -1 /\ why = AtUdev) /\
    wait_status (-1) = 255.
Proof.
  intros p maxdev stdin s Hudev.
  assert (Hget : forall m s0, get_devices p m s0
                 = Exit (-1) AtUdev (emit (EvOut ("Can't create udev" ++ nl)) s0)).
  { intros m s0. unfold get_devices. rewrite Hudev. reflexivity. }
  split; [apply Hget|]. split; [|split; [|split]].
  - unfold ask_device, bind. rewrite Hget. reflexivity.
  - unfold usage, bind, printf, log. rewrite Hget. exact I.
  - intros status why s'. unfold usage, bind, printf, log. rewrite Hget.
    intros E. inversion E. split; reflexivity.
  - reflexivity.
Qed.

Lemma udev_failure_ends_the_process_witness :
  get_devices no_udev MAXDEV (boot (card_of x00))
    = Exit (-1) AtUdev (emit (EvOut ("Can't create udev" ++ nl)) (boot (card_of x00))) /\
  ask_device no_udev [] (boot (card_of x00))
    = Exit (-1) AtUdev (emit (EvOut ("Can't create udev" ++ nl)) (boot (card_of x00))) /\
  exited (@usage unit no_udev (boot (card_of x00))) /\
  (forall status why s', @usage unit no_udev (boot (card_of x00)) = Exit status why s' ->
                         status = -1 /\ why = AtUdev) /\
  wait_status (-1) = 255.
Proof.
  apply (udev_failure_ends_the_process no_udev MAXDEV [] (boot (card_of x00))).
  reflexivity.
Defined.

(** C6, the counterexample.  With libudev out of order [get_devices] does not
    return the empty sequence, nor any other: the run ends there, and with a
    status that is not 0. *)
Lemma udev_failure_returns_no_sequence :
  get_devices no_udev MAXDEV (boot (card_of x00))
    = Exit (-1) AtUdev (emit (EvOut ("Can't create udev" ++ nl)) (boot (card_of x00))) /\
  ~ returned (get_devices no_udev MAXDEV (boot (card_of x00))) /\
  ~ (exists s', get_devices no_udev MAXDEV (boot (card_of x00)) = Ret [] s') /\
  wait_status (-1) <> 0.
Proof.
  split; [reflexivity|]. split; [|split].
  - intros H. exact H.
  - intros (s' & H). discriminate H.
  - intros H. discriminate H.
Qed.

(** The loop lists the eligible entries in the order of the enumeration, and
    stops when the array is full. *)
Lemma scan_entries_filter (entries : list udev_entry) :
  forall maxdev ndev : Z,
    - 2 ^ 31 <= ndev <= maxdev -> maxdev < 2 ^ 31 ->
    scan_entries entries maxdev ndev
      = map entry_label (firstn (Z.to_nat (maxdev - ndev)) (filter eligible entries)).
Proof.
  induction entries as [|dev entries IH]; intros maxdev ndev Hn Hmax.
  - cbn [scan_entries filter]. rewrite firstn_nil. reflexivity.
  - cbn [scan_entries filter].
    destruct (Z.leb_spec maxdev ndev) as [Hfull|Hroom].
    + replace (maxdev - ndev) with 0 by lia. reflexivity.
    + unfold eligible at 1, entry_label.
      destruct (usb_parent dev) as [usb|] eqn:Husb.
      * destruct (not_removable (removable dev)); cbn [negb andb].
        -- apply IH; lia.
        -- destruct (to_uint (size_blocks dev) =? 0); cbn [negb].
           ++ apply IH; lia.
           ++ rewrite to_int_small by lia. rewrite IH by lia.
              replace (Z.to_nat (maxdev - ndev)) with (S (Z.to_nat (maxdev - (ndev + 1))))
                by lia.
              cbn [firstn map]. rewrite Husb. reflexivity.
      * apply IH; lia.
Qed.



(** The filter at work: of a fixed disk, a reader without a card and a reader
    with a card, only the last is listed. *)
Example enumeration_filter :
  get_devices three_disks MAXDEV (boot (card_of x00))
    = Ret ["/dev/sdc - Generic Mass-Storage, size 1931 MB"%string] (boot (card_of x00)).
Proof. vm_compute. reflexivity. Qed.

(** ** The exit status *)

Lemma wp_log {A : Type} (e : event) (k : M A) Q E s :
  wp k Q E (emit e s) -> wp (log e ;; k) Q E s.
Proof. intros H. exact H. Qed.










(** ** How exact the elapsed time is *)

(** X12.  For two normalised times (microseconds below a million), the second
    not before the first and at most four million seconds after it,
    [mseconds_elapsed] is the time between them in milliseconds to within one
    millisecond, and 1 when less than a millisecond has passed. *)
Theorem mseconds_elapsed_within_a_millisecond :
  forall t0 t1 : timeval,
    0 <= tv_usec t0 < 1000000 -> 0 <= tv_usec t1 < 1000000 ->
    tv_sec t1 - tv_sec t0 <= 4000000 ->
    0 <= microseconds_between t0 t1 ->
    (microseconds_between t0 t1 < 1000 -> mseconds_elapsed t0 t1 = 1) /\
    (1000 <= microseconds_between t0 t1 ->
     1000 * mseconds_elapsed t0 t1 - 1000 < microseconds_between t0 t1
       < 1000 * mseconds_elapsed t0 t1 + 1000).
Proof.
  intros t0 t1 Hu0 Hu1 Hs Hpos. unfold microseconds_between in *.
  set (ds := tv_sec t1 - tv_sec t0) in *. set (du := tv_usec t1 - tv_usec t0) in *.
  assert (Hdu : -1000000 < du < 1000000) by (unfold du; lia).
  assert (Hds : 0 <= ds) by lia.
  pose proof (Z.quot_rem' du 1000) as Hqr.
  assert (Hrem : -1000 < Z.rem du 1000 < 1000).
  { pose proof (Z.rem_bound_abs du 1000 ltac:(lia)). lia. }
  assert (Hq : -1001 < Z.quot du 1000 < 1001) by lia.
  assert (Hraw : to_uint (to_long (to_long (to_long ds * 1000) + Z.quot (to_long du) 1000))
                 = ds * 1000 + Z.quot du 1000 \/ ds * 1000 + Z.quot du 1000 < 0).
  { destruct (Z.lt_ge_cases (ds * 1000 + Z.quot du 1000) 0) as [Hneg|Hnn];
      [right; exact Hneg|left].
    rewrite (to_long_small ds) by lia. rewrite (to_long_small (ds * 1000)) by lia.
    rewrite (to_long_small du) by lia. rewrite to_long_small by lia.
    apply to_uint_small. lia. }
  unfold mseconds_elapsed. fold ds du.
  destruct Hraw as [Hraw|Hneg].
  - rewrite Hraw.
    destruct (Z.ltb_spec (ds * 1000 + Z.quot du 1000) 1); split; intros; lia.
  - exfalso. lia.
Qed.

Lemma mseconds_elapsed_within_a_millisecond_witness :
  (microseconds_between {| tv_sec := 100; tv_usec := 999999 |}
                        {| tv_sec := 103; tv_usec := 250 |} < 1000 ->
   mseconds_elapsed {| tv_sec := 100; tv_usec := 999999 |}
                    {| tv_sec := 103; tv_usec := 250 |} = 1) /\
  (1000 <= microseconds_between {| tv_sec := 100; tv_usec := 999999 |}
                                {| tv_sec := 103; tv_usec := 250 |} ->
   1000 * mseconds_elapsed {| tv_sec := 100; tv_usec := 999999 |}
                           {| tv_sec := 103; tv_usec := 250 |} - 1000
     < microseconds_between {| tv_sec := 100; tv_usec := 999999 |}
                            {| tv_sec := 103; tv_usec := 250 |}
     < 1000 * mseconds_elapsed {| tv_sec := 100; tv_usec := 999999 |}
                               {| tv_sec := 103; tv_usec := 250 |} + 1000).
Proof.
  apply (mseconds_elapsed_within_a_millisecond
           {| tv_sec := 100; tv_usec := 999999 |} {| tv_sec := 103; tv_usec := 250 |});
    unfold microseconds_between; simpl; lia.
Defined.

(** ** The indicator and its marks *)

(** Up to 32 TiB the length of the indicator is the number of chunks divided
    by the step, rounded up. *)
Lemma cadence_length (nbytes : Z) :
  0 <= nbytes <= 2 ^ 45 ->
  exists j, 0 <= j <= 25 /\
    cadence nbytes = Some (cdiv (total_chunks nbytes) (2 ^ j), 2 ^ j) /\
    total_chunks nbytes / 2 ^ j < 64.
Proof.
  intros H.
  assert (Hint : 0 <= nbytes <= INT_MAX * sizeof_buf) by (unfold INT_MAX, sizeof_buf; lia).
  pose proof (progress_len0_exact nbytes Hint) as Hlen.
  assert (Hchunks : 0 <= total_chunks nbytes <= 2 ^ 30).
  { unfold total_chunks, cdiv, sizeof_buf. split; [apply Z.div_pos; lia|].
    enough ((nbytes + 32 * 1024 - 1) / (32 * 1024) < 2 ^ 30 + 1) by lia.
    apply Z.div_lt_upper_bound; lia. }
  destruct (cadence_loop_stops nbytes) with (fuel := 32%nat) (k := 0)
    as (m & Hm & Hrun & Hacc & _).
  - rewrite Hlen. lia.
  - lia.
  - simpl. lia.
  - intros i Hi. lia.
  - rewrite Hlen in *. exists m. split; [lia|]. split; [|exact Hacc].
    assert (Hpos : 0 < 2 ^ m) by (apply Z.pow_pos_nonneg; lia).
    assert (Hle : 2 ^ m <= 2 ^ 25) by (apply Z.pow_le_mono_r; lia).
    unfold cadence. change (cadence_loop 32 nbytes 1) with (cadence_loop 32 nbytes (2 ^ 0)).
    rewrite Hrun. rewrite to_int_small by lia.
    rewrite Z.quot_div_nonneg by lia.
    unfold cdiv at 1. do 3 f_equal. lia.
Qed.

(** The quotient rounded up is the quotient rounded down, or one more when
    the division leaves a remainder. *)
Lemma cdiv_floor (a b : Z) :
  0 <= a -> 0 < b -> cdiv a b = a / b + (if a mod b =? 0 then 0 else 1).
Proof.
  intros Ha Hb. unfold cdiv.
  pose proof (Z.div_mod a b ltac:(lia)) as Hdm. pose proof (Z.mod_pos_bound a b Hb) as Hm.
  destruct (Z.eqb_spec (a mod b) 0) as [E|E].
  - symmetry. apply (Z.div_unique _ _ _ (b - 1)); lia.
  - symmetry. apply (Z.div_unique _ _ _ (a mod b - 1)); lia.
Qed.

(** X11.  For an image of at most 32 TiB, the indicator printed before the
    chunks has as many places as the chunks divided by the step, rounded up,
    and at most 64.  No job emits more marks than the indicator has places,
    and a job that returns has filled it, but for its last place when the
    number of chunks is no multiple of the step. *)
Theorem indicator_holds_the_marks :
  forall (w : world) (filename device_name : string) (verify_only : Z) (d : Z -> byte),
    0 <= st_size w <= 2 ^ 45 ->
    exists len step,
      cadence (st_size w) = Some (len, step) /\
      len = cdiv (cdiv (st_size w) sizeof_buf) step /\
      0 <= len <= 64 /\
      0 <= marks (write_image w filename device_name verify_only (boot d)) <= len /\
      (returned (write_image w filename device_name verify_only (boot d)) ->
       marks (write_image w filename device_name verify_only (boot d))
         = len - (if cdiv (st_size w) sizeof_buf mod step =? 0 then 0 else 1)).
Proof.
  intros w filename device_name verify_only d Hsize.
  destruct (cadence_length _ Hsize) as (j & Hj & Hcad & Hq).
  fold (total_chunks (st_size w)).
  assert (Hchunks : 0 <= total_chunks (st_size w)) by (apply total_chunks_nonneg; lia).
  assert (Hpos : 0 < 2 ^ j) by (apply Z.pow_pos_nonneg; lia).
  pose proof (cdiv_floor _ _ Hchunks Hpos) as Hc.
  assert (Hfloor : 0 <= total_chunks (st_size w) / 2 ^ j) by (apply Z.div_pos; lia).
  exists (cdiv (total_chunks (st_size w)) (2 ^ j)), (2 ^ j).
  split; [exact Hcad|]. split; [reflexivity|].
  split; [destruct (total_chunks (st_size w) mod 2 ^ j =? 0); lia|].
  pose proof (write_image_wp w filename device_name verify_only (boot d) _ j
                ltac:(lia) Hj Hcad) as H.
  unfold wp in H. unfold marks, events_of, returned.
  destruct (write_image w filename device_name verify_only (boot d))
    as [[] s'|status why s'| |]; try contradiction.
  - destruct H as (before & n & ms & Htrace & _ & Hmarks & _).
    cbn [boot trace] in Hmarks. change (count is_mark []) with 0 in Hmarks.
    rewrite <- rev_alt, count_rev, Htrace, !count_cons. cbn [is_mark].
    split; [|intros _]; destruct (total_chunks (st_size w) mod 2 ^ j =? 0); lia.
  - destruct H as (_ & _ & _ & Hmarks & _).
    cbn [boot trace] in Hmarks. change (count is_mark []) with 0 in Hmarks.
    rewrite <- rev_alt, count_rev.
    split; [|intros []]. destruct (total_chunks (st_size w) mod 2 ^ j =? 0); lia.
Qed.

Lemma indicator_holds_the_marks_witness :
  exists len step,
    cadence (st_size (steady 4161536)) = Some (len, step) /\
    len = cdiv (cdiv (st_size (steady 4161536)) sizeof_buf) step /\
    0 <= len <= 64 /\
    0 <= marks (write_image (steady 4161536) "sdcard.img" "/dev/sdb" 0
                  (boot (card_of x00))) <= len /\
    (returned (write_image (steady 4161536) "sdcard.img" "/dev/sdb" 0
                 (boot (card_of x00))) ->
     marks (write_image (steady 4161536) "sdcard.img" "/dev/sdb" 0 (boot (card_of x00)))
       = len - (if cdiv (st_size (steady 4161536)) sizeof_buf mod step =? 0
                then 0 else 1)).
Proof.
  apply (indicator_holds_the_marks (steady 4161536) "sdcard.img" "/dev/sdb" 0
           (card_of x00)).
  cbn [st_size steady]. lia.
Defined.

(** ** What write mode leaves on the card *)

(** One chunk more on the card. *)
Lemma store_prefix (image d card : Z -> byte) (buf : buffer) (p n : Z) :
  0 <= p -> 0 <= n ->
  holds_prefix image d p card ->
  holds_prefix image d (p + n) (store card (fill buf image p n) p n).
Proof.
  intros Hp Hn Hcard x. unfold store, fill. rewrite (Hcard x).
  destruct (Z.leb_spec p x), (Z.ltb_spec x (p + n)), (Z.leb_spec 0 x), (Z.ltb_spec x p);
    cbn [andb]; try lia; try reflexivity.
  destruct (Z.leb_spec 0 (x - p)), (Z.ltb_spec (x - p) n); cbn [andb]; try lia.
  f_equal. lia.
Qed.

(** The last chunk ends where the image ends. *)
Lemma chunk_len_fits (nbytes k : Z) :
  0 <= k -> sizeof_buf * k < nbytes -> nbytes <= 2 ^ 62 ->
  0 <= chunk_len nbytes (sizeof_buf * k) <= nbytes - sizeof_buf * k.
Proof.
  intros Hk Hleft Hsize. pose proof (chunk_len_range nbytes (sizeof_buf * k)) as R.
  split; [lia|].
  destruct (Z.le_gt_cases sizeof_buf (nbytes - sizeof_buf * k)) as [Hfull|Hlast]; [lia|].
  rewrite chunk_len_below_4_GiB by (unfold sizeof_buf in *; lia). lia.
Qed.

Section Stored.

Variables (w : world) (filename device_name : string) (nbytes step : Z).
Variable d : Z -> byte.
Hypothesis Hsize : 0 <= nbytes <= 2 ^ 62.

(** While the loop of write mode runs, the two handles are at the same
    offset, and the card holds the image up to there. *)
Lemma write_chunks_stores :
  forall (fuel : nat) (k p : Z) (buf : buffer) (s : state),
    0 <= k -> 0 <= p <= Z.min nbytes (sizeof_buf * k) ->
    src_pos s = p -> dest_pos s = p ->
    holds_prefix (file w) d p (disk s) ->
    match write_chunks fuel w filename device_name nbytes step (sizeof_buf * k) buf s with
    | Ret _ s' =>
        exists m, 0 <= m <= nbytes /\ holds_prefix (file w) d m (disk s') /\
                  (nbytes < 2 ^ 32 -> p = Z.min nbytes (sizeof_buf * k) -> m = nbytes) /\
                  m = p + (bytes_written (trace s') - bytes_written (trace s))
    | Exit _ _ s' => exists m, 0 <= m <= nbytes /\ holds_prefix (file w) d m (disk s')
    | _ => True
    end.
Proof.
  induction fuel as [|fuel IH]; intros k p buf s Hk Hp Hsrc Hdest Hcard; [exact I|].
  cbn [write_chunks].
  destruct (Z.ltb_spec (sizeof_buf * k) nbytes) as [Hleft|Hdone].
  - pose proof (chunk_len_fits nbytes k Hk Hleft (proj2 Hsize)) as Hn.
    pose proof (chunk_len_range nbytes (sizeof_buf * k)) as Hmax.
    set (n := chunk_len nbytes (sizeof_buf * k)) in *.
    unfold bind, read_src. rewrite Hsrc.
    destruct (read_ok w p n).
    + unfold disk_write. state_simpl. rewrite Hdest.
      destruct (write_ok w p n).
      * unfold progress. state_simpl.
        destruct (to_uint step =? 0); [exact I|].
        rewrite next_count_exact by lia.
        pose proof (store_prefix (file w) d (disk s) buf p n ltac:(lia) ltac:(lia) Hcard)
          as Hstored.
        assert (Hnext : nbytes < 2 ^ 32 -> p = Z.min nbytes (sizeof_buf * k) ->
                        p + n = Z.min nbytes (sizeof_buf * (k + 1))).
        { intros Hsmall ->. unfold n.
          rewrite chunk_len_below_4_GiB by (unfold sizeof_buf in *; lia).
          unfold sizeof_buf in *. lia. }
        assert (Hgo : forall (b : buffer) (s1 : state),
                  src_pos s1 = p + n -> dest_pos s1 = p + n ->
                  disk s1 = store (disk s) (fill buf (file w) p n) p n ->
                  match write_chunks fuel w filename device_name nbytes step
                          (sizeof_buf * (k + 1)) b s1 with
                  | Ret _ s' =>
                      exists m, 0 <= m <= nbytes /\ holds_prefix (file w) d m (disk s') /\
                        (nbytes < 2 ^ 32 -> p = Z.min nbytes (sizeof_buf * k) -> m = nbytes) /\
                        m = p + n + (bytes_written (trace s') - bytes_written (trace s1))
                  | Exit _ _ s' =>
                      exists m, 0 <= m <= nbytes /\ holds_prefix (file w) d m (disk s')
                  | _ => True
                  end).
        { intros b s1 Hs Hd Hdisk. rewrite <- Hdisk in Hstored.
          pose proof (IH (k + 1) (p + n) b s1 ltac:(lia)
                        ltac:(unfold sizeof_buf in *; lia) Hs Hd Hstored) as Hrest.
          destruct (write_chunks fuel w filename device_name nbytes step
                      (sizeof_buf * (k + 1)) b s1) as [b' s'|status why s'| |];
            try exact I; [|exact Hrest].
          destruct Hrest as (m & Hm & Hheld & Hall & Hbytes). exists m.
          split; [exact Hm|]. split; [exact Hheld|]. split; [|exact Hbytes].
          intros Hsmall Hat. apply Hall; [exact Hsmall|apply Hnext; assumption]. }
        destruct (to_uint (progress_count s + 1) mod to_uint step =? 0);
          unfold disk_flush, log, ret;
          match goal with |- context [write_chunks fuel _ _ _ _ _ _ ?b ?s1] =>
            pose proof (Hgo b s1 eq_refl eq_refl eq_refl) as Hrest;
            destruct (write_chunks fuel w filename device_name nbytes step
                        (sizeof_buf * (k + 1)) b s1) as [b' s'|status why s'| |]
          end; try exact Hrest;
          destruct Hrest as (m & Hm & Hheld & Hall & Hbytes); exists m;
          (split; [exact Hm|]); (split; [exact Hheld|]); (split; [exact Hall|]);
          revert Hbytes; state_simpl; cbn [bytes_written]; lia.
      * unfold bind, eprintf, log, quit, c_exit. state_simpl.
        exists p. split; [lia|exact Hcard].
    + unfold bind, eprintf, log, quit, c_exit. state_simpl.
      exists p. split; [lia|exact Hcard].
  - unfold ret. exists p. split; [lia|]. split; [exact Hcard|]. split; lia.
Qed.

End Stored.

(** What the card holds at the end of a job in write mode. *)
Lemma write_image_stores (w : world) (filename device_name : string) (s : state) :
  0 <= st_size w <= 2 ^ 62 ->
  exists card m,
    card_after (write_image w filename device_name 0 s) = Some card /\
    0 <= m <= st_size w /\ holds_prefix (file w) (disk s) m card /\
    (returned (write_image w filename device_name 0 s) ->
     st_size w < 2 ^ 32 -> m = st_size w) /\
    (forall s', write_image w filename device_name 0 s = Ret tt s' ->
                m = bytes_written (trace s') - bytes_written (trace s)).
Proof.
  intros Hsize.
  assert (Hnone : holds_prefix (file w) (disk s) 0 (disk s)).
  { intros x. destruct (Z.leb_spec 0 x), (Z.ltb_spec x 0); cbn [andb]; try lia; reflexivity. }
  destruct (cadence_total (st_size w)) as (len & j & Hj & Hcad).
  pose proof (write_image_wp w filename device_name 0 s len j Hsize Hj Hcad) as Hend.
  unfold wp in Hend. revert Hend.
  unfold write_image. rewrite to_long_small by lia. rewrite Hcad.
  unfold bind, disk_open, log, printf.
  destruct (src_opens w).
  2:{ intros _. unfold quit, c_exit. cbn [card_after]. state_simpl.
      exists (disk s), 0. split; [reflexivity|]. split; [lia|]. split; [exact Hnone|].
      split; [intros []|intros s' E; discriminate E]. }
  unfold bind, log. state_simpl.
  destruct (dest_opens w).
  2:{ intros _. unfold quit, c_exit. cbn [card_after]. state_simpl.
      exists (disk s), 0. split; [reflexivity|]. split; [lia|]. split; [exact Hnone|].
      split; [intros []|intros s' E; discriminate E]. }
  cbv beta iota. state_simpl. cbn [Z.eqb].
  match goal with |- context [write_chunks ?f _ _ _ _ _ _ ?b ?s1] =>
    pose proof (write_chunks_stores w filename device_name (st_size w) (2 ^ j) (disk s)
                  Hsize f 0 0 b s1 ltac:(lia) ltac:(lia) eq_refl eq_refl Hnone) as Hloop;
    rewrite Z.mul_0_r in Hloop;
    destruct (write_chunks f w filename device_name (st_size w) (2 ^ j) 0 b s1)
      as [b' s'|status why s'| |]
  end; try contradiction.
  - intros _. destruct Hloop as (m & Hm & Hheld & Hall & Hbytes).
    unfold disk_flush, disk_close, log, ret. cbn [card_after returned]. state_simpl.
    exists (disk s'), m. split; [reflexivity|]. split; [exact Hm|]. split; [exact Hheld|].
    split.
    + intros _ Hsmall. apply Hall; [exact Hsmall|lia].
    + intros s2 E. injection E as <-. revert Hbytes. state_simpl. cbn [bytes_written]. lia.
  - intros _. destruct Hloop as (m & Hm & Hheld).
    cbn [card_after returned].
    exists (disk s'), m. split; [reflexivity|]. split; [exact Hm|]. split; [exact Hheld|].
    split; [intros []|intros s2 E; discriminate E].
Qed.

(** X7.  Write mode, an image of less than 4 GiB: when the job returns, the
    card holds the bytes of the image from its offset 0 on, each at the
    offset it has in the image, and beyond the size of the image what it held
    before. *)
Theorem write_mode_puts_the_image_on_the_card :
  forall (w : world) (filename device_name : string) (d : Z -> byte),
    0 <= st_size w < 2 ^ 32 ->
    returned (write_image w filename device_name 0 (boot d)) ->
    exists card,
      card_after (write_image w filename device_name 0 (boot d)) = Some card /\
      forall x, card x = if (0 <=? x) && (x <? st_size w) then file w x else d x.
Proof.
  intros w filename device_name d Hsize Hret.
  destruct (write_image_stores w filename device_name (boot d) ltac:(lia))
    as (card & m & Hcard & Hm & Hheld & Hall & _).
  exists card. split; [exact Hcard|].
  rewrite <- (Hall Hret (proj2 Hsize)). exact Hheld.
Qed.

Lemma write_mode_puts_the_image_on_the_card_witness :
  exists card,
    card_after (write_image (steady 100000) "sdcard.img" "/dev/sdb" 0 (boot (card_of x00)))
      = Some card /\
    forall x, card x = if (0 <=? x) && (x <? st_size (steady 100000))
                       then file (steady 100000) x else card_of x00 x.
Proof.
  apply (write_mode_puts_the_image_on_the_card (steady 100000) "sdcard.img" "/dev/sdb"
           (card_of x00)).
  - cbn [st_size steady]. lia.
  - vm_compute. exact I.
Defined.

(** X8.  Write mode, whatever the operating system answers and however the job
    ends: every byte of the card is the byte it was before the job or the
    byte the image has at the same offset.  Nothing is stored beyond the size
    of the image, and no byte of the image is stored at another offset. *)
Theorem write_mode_stores_nothing_but_the_image :
  forall (w : world) (filename device_name : string) (d : Z -> byte),
    0 <= st_size w <= 2 ^ 62 ->
    exists card,
      card_after (write_image w filename device_name 0 (boot d)) = Some card /\
      forall x, card x = d x \/ (0 <= x < st_size w /\ card x = file w x).
Proof.
  intros w filename device_name d Hsize.
  destruct (write_image_stores w filename device_name (boot d) Hsize)
    as (card & m & Hcard & Hm & Hheld & _).
  exists card. split; [exact Hcard|]. intros x. rewrite (Hheld x).
  destruct (Z.leb_spec 0 x), (Z.ltb_spec x m); cbn [andb]; auto.
  right. split; [lia|reflexivity].
Qed.

Lemma write_mode_stores_nothing_but_the_image_witness :
  exists card,
    card_after (write_image (write_protected 100000) "sdcard.img" "/dev/sdb" 0
                  (boot (card_of x00))) = Some card /\
    forall x, card x = card_of x00 x \/
              (0 <= x < st_size (write_protected 100000) /\
               card x = file (write_protected 100000) x).
Proof.
  apply (write_mode_stores_nothing_but_the_image (write_protected 100000) "sdcard.img"
           "/dev/sdb" (card_of x00)).
  cbn [st_size write_protected]. lia.
Defined.

(** ** Write mode on any image of 4 GiB or more *)

(** The length of a chunk, whatever is left: what is left is taken modulo
    [2 ^ 32] before it is compared with the size of the array. *)
Lemma chunk_len_any (nbytes count : Z) :
  0 < nbytes - count <= 2 ^ 62 ->
  chunk_len nbytes count =
    if (nbytes - count) mod 2 ^ 32 <=? sizeof_buf then (nbytes - count) mod 2 ^ 32
    else sizeof_buf.
Proof.
  intros Hr. unfold chunk_len, sizeof_buf. rewrite to_long_small by lia.
  set (r := nbytes - count) in *.
  pose proof (Z.div_mod r (2 ^ 32) ltac:(lia)) as Hdm.
  pose proof (Z.mod_pos_bound r (2 ^ 32) ltac:(lia)) as Hm.
  destruct (Z.lt_ge_cases (r mod 2 ^ 32) (2 ^ 31)) as [Hlow|Hhigh].
  - assert (E : to_int r = r mod 2 ^ 32).
    { unfold to_int, wrap_signed. change (2 ^ (32 - 1)) with (2 ^ 31).
      rewrite <- (Z.mod_unique (r + 2 ^ 31) (2 ^ 32) (r / 2 ^ 32) (r mod 2 ^ 32 + 2 ^ 31));
        lia. }
    rewrite E. rewrite to_ulong_small by lia. rewrite to_int_small by lia.
    destruct (Z.ltb_spec (32 * 1024) (r mod 2 ^ 32)), (Z.leb_spec (r mod 2 ^ 32) (32 * 1024));
      lia.
  - assert (E : to_int r = r mod 2 ^ 32 - 2 ^ 32).
    { unfold to_int, wrap_signed. change (2 ^ (32 - 1)) with (2 ^ 31).
      rewrite <- (Z.mod_unique (r + 2 ^ 31) (2 ^ 32) (r / 2 ^ 32 + 1)
                    (r mod 2 ^ 32 - 2 ^ 31)); lia. }
    rewrite E.
    assert (U : to_ulong (r mod 2 ^ 32 - 2 ^ 32) = r mod 2 ^ 32 - 2 ^ 32 + 2 ^ 64).
    { unfold to_ulong, wrap_unsigned. symmetry. apply (Z.mod_unique _ _ (-1)); lia. }
    rewrite U. rewrite to_int_small by lia.
    destruct (Z.ltb_spec (32 * 1024) (r mod 2 ^ 32 - 2 ^ 32 + 2 ^ 64)),
             (Z.leb_spec (r mod 2 ^ 32) (32 * 1024)); lia.
Qed.

(** All the chunks from index [k] on: what is left, less the bytes lost each
    time a multiple of 4 GiB is passed. *)
Lemma sum_chunk_len_any (nbytes : Z) :
  0 <= nbytes <= 2 ^ 62 ->
  forall (todo : nat) (k : Z),
    0 <= k -> Z.of_nat todo = total_chunks nbytes - k ->
    sum_chunk_len todo nbytes k =
      Z.max (nbytes - sizeof_buf * k) 0
      - Z.max (nbytes - sizeof_buf * k) 0 / 2 ^ 32 * (sizeof_buf - nbytes mod sizeof_buf).
Proof.
  intros Hsize. induction todo as [|todo IH]; intros k Hk Htodo.
  - cbn [sum_chunk_len].
    pose proof (chunk_left nbytes k (proj1 Hsize) Hk) as E.
    rewrite (proj2 (Z.ltb_ge k (total_chunks nbytes))) in E by lia.
    apply Z.ltb_ge in E. rewrite Z.max_r by lia. reflexivity.
  - cbn [sum_chunk_len]. rewrite IH by lia.
    pose proof (chunk_left nbytes k (proj1 Hsize) Hk) as E.
    rewrite (proj2 (Z.ltb_lt k (total_chunks nbytes))) in E by lia.
    apply Z.ltb_lt in E.
    rewrite chunk_len_any by (unfold sizeof_buf in *; lia).
    replace (nbytes - sizeof_buf * (k + 1)) with (nbytes - sizeof_buf * k - sizeof_buf)
      by (unfold sizeof_buf; lia).
    set (r := nbytes - sizeof_buf * k) in *.
    rewrite (Z.max_l r 0) by lia.
    assert (Hs0 : nbytes mod sizeof_buf = r mod sizeof_buf).
    { unfold r. replace (nbytes - sizeof_buf * k) with (nbytes + (- k) * sizeof_buf) by lia.
      rewrite Z.mod_add by (unfold sizeof_buf; lia). reflexivity. }
    rewrite Hs0.
    assert (Hmm : (r mod 2 ^ 32) mod sizeof_buf = r mod sizeof_buf).
    { apply Z.mod_mod_divide. exists (2 ^ 17). unfold sizeof_buf. reflexivity. }
    pose proof (Z.div_mod r (2 ^ 32) ltac:(lia)) as Hdm.
    pose proof (Z.mod_pos_bound r (2 ^ 32) ltac:(lia)) as Hm.
    pose proof (Z.mod_pos_bound r sizeof_buf ltac:(unfold sizeof_buf; lia)) as Hs.
    assert (Hq : 0 <= r / 2 ^ 32) by (apply Z.div_pos; lia).
    unfold sizeof_buf in *.
    destruct (Z.leb_spec (r mod 2 ^ 32) (32 * 1024)) as [Hshort|Hfull].
    + destruct (Z.le_gt_cases r (32 * 1024)) as [Hlast|Hmore].
      * rewrite (Z.max_r (r - 32 * 1024) 0) by lia.
        rewrite (Z.div_small r) by lia. rewrite (Z.mod_small r (2 ^ 32)) by lia.
        change (0 / 2 ^ 32) with 0. lia.
      * rewrite (Z.max_l (r - 32 * 1024) 0) by lia.
        destruct (Z.eq_dec (r mod 2 ^ 32) (32 * 1024)) as [Hexact|Hless].
        -- assert (Hzero : r mod (32 * 1024) = 0).
           { rewrite <- Hmm, Hexact. reflexivity. }
           rewrite Hzero, Hexact.
           rewrite <- (Z.div_unique (r - 32 * 1024) (2 ^ 32) (r / 2 ^ 32) 0) by lia.
           lia.
        -- assert (Hsame : r mod (32 * 1024) = r mod 2 ^ 32).
           { rewrite <- Hmm. apply Z.mod_small. lia. }
           rewrite Hsame.
           assert (Hbig : 1 <= r / 2 ^ 32) by nia.
           rewrite <- (Z.div_unique (r - 32 * 1024) (2 ^ 32) (r / 2 ^ 32 - 1)
                         (2 ^ 32 - 32 * 1024 + r mod 2 ^ 32)) by lia.
           nia.
    + rewrite (Z.max_l (r - 32 * 1024) 0) by lia.
      rewrite <- (Z.div_unique (r - 32 * 1024) (2 ^ 32) (r / 2 ^ 32)
                    (r mod 2 ^ 32 - 32 * 1024)) by lia.
      lia.
Qed.

(** X6.  Write mode on an image of 4 GiB or more, on an operating system on
    which nothing fails: the job returns as after a complete copy, but
    [disk_write] was handed fewer bytes than the image holds.  Each time what
    is left passes a multiple of 4 GiB one chunk is cut to the size of the
    image modulo 32768; the card ends with the first
    [size - floor(size / 2^32) * (32768 - size mod 32768)] bytes of the image,
    and with what it held before from there on: the end of the image is
    never written. *)
Theorem write_mode_truncates_from_4_GiB_on :
  forall (w : world) (filename device_name : string) (d : Z -> byte),
    fault_free w ->
    2 ^ 32 <= st_size w <= 2 ^ 62 ->
    returned (write_image w filename device_name 0 (boot d)) /\
    bytes_written (events_of (write_image w filename device_name 0 (boot d)))
      = bytes_kept (st_size w) /\
    0 <= bytes_kept (st_size w) < st_size w /\
    exists card,
      card_after (write_image w filename device_name 0 (boot d)) = Some card /\
      forall x, card x = if (0 <=? x) && (x <? bytes_kept (st_size w))
                         then file w x else d x.
Proof.
  intros w filename device_name d Hfree Hsize.
  destruct (cadence_total (st_size w)) as (len & j & Hj & Hcad).
  assert (Hrange : 0 <= st_size w <= 2 ^ 62) by lia.
  pose proof (total_chunks_nonneg _ (proj1 Hrange)) as Hchunks.
  assert (Hrun : exists s',
            write_image w filename device_name 0 (boot d) = Ret tt s' /\
            bytes_written (trace s')
              = sum_chunk_len (Z.to_nat (total_chunks (st_size w))) (st_size w) 0).
  { unfold write_image. rewrite to_long_small by lia. rewrite Hcad.
    pose proof Hfree as (Hsrc & Hdest & _).
    unfold bind, disk_open, log, printf. rewrite Hsrc. unfold bind, log. state_simpl.
    rewrite Hdest. cbv beta iota. state_simpl. cbn [Z.eqb].
    match goal with |- context [write_chunks ?f _ _ _ _ _ _ ?b ?s1] =>
      destruct (write_chunks_bytes w filename device_name (st_size w) j Hfree Hrange Hj
                  (Z.to_nat (total_chunks (st_size w))) f 0 b s1)
        as (buf' & s' & Hloop & Hbytes)
    end; try (unfold chunk_fuel; lia).
    rewrite Z.mul_0_r in Hloop. rewrite Hloop.
    unfold disk_flush, disk_close, log, ret. state_simpl.
    eexists. split; [reflexivity|]. state_simpl. cbn [bytes_written].
    cbn [trace emit set_progress_count set_src_pos set_dest_pos set_disk boot
         bytes_written] in Hbytes.
    rewrite Z.add_0_l in Hbytes. exact Hbytes. }
  destruct Hrun as (s' & Hrun & Hbytes).
  rewrite (sum_chunk_len_any (st_size w) Hrange) in Hbytes by lia.
  rewrite Z.mul_0_r, Z.sub_0_r, Z.max_l in Hbytes by lia. fold (bytes_kept (st_size w)) in Hbytes.
  destruct (write_image_stores w filename device_name (boot d) Hrange)
    as (card & m & Hcard & _ & Hheld & _ & Hm).
  specialize (Hm s' Hrun). cbn [boot trace bytes_written] in Hm.
  rewrite Hbytes, Z.sub_0_r in Hm. subst m.
  revert Hcard. rewrite Hrun. unfold events_of. rewrite <- rev_alt, bytes_written_rev, Hbytes.
  intros Hcard.
  split; [exact I|]. split; [reflexivity|]. split.
  - unfold bytes_kept.
    assert (Hq : 1 <= st_size w / 2 ^ 32) by (apply Z.div_le_lower_bound; lia).
    pose proof (Z.mod_pos_bound (st_size w) sizeof_buf ltac:(unfold sizeof_buf; lia)) as Hs.
    pose proof (Z.div_mod (st_size w) (2 ^ 32) ltac:(lia)) as Hdm.
    pose proof (Z.mod_pos_bound (st_size w) (2 ^ 32) ltac:(lia)) as Hm.
    unfold sizeof_buf in *. nia.
  - exists card. split; [exact Hcard|exact Hheld].
Qed.

Lemma write_mode_truncates_from_4_GiB_on_witness :
  returned (write_image (steady 10000000000) "sdcard.img" "/dev/sdb" 0
              (boot (card_of x00))) /\
  bytes_written (events_of (write_image (steady 10000000000) "sdcard.img" "/dev/sdb" 0
                              (boot (card_of x00))))
    = bytes_kept (st_size (steady 10000000000)) /\
  0 <= bytes_kept (st_size (steady 10000000000)) < st_size (steady 10000000000) /\
  exists card,
    card_after (write_image (steady 10000000000) "sdcard.img" "/dev/sdb" 0
                  (boot (card_of x00))) = Some card /\
    forall x, card x = if (0 <=? x) && (x <? bytes_kept (st_size (steady 10000000000)))
                       then file (steady 10000000000) x else card_of x00 x.
Proof.
  apply (write_mode_truncates_from_4_GiB_on (steady 10000000000) "sdcard.img" "/dev/sdb"
           (card_of x00)).
  - repeat split.
  - cbn [st_size steady]. lia.
Defined.

(** ** What verify mode leaves on the card *)

(** The loop of verify mode stores nothing and flushes nothing. *)
Lemma verify_chunks_reads_only (w : world) (filename device_name : string)
    (nbytes step : Z) (buf2 : buffer) :
  forall (fuel : nat) (c : Z) (buf : buffer) (s : state),
    match verify_chunks fuel w filename device_name nbytes step c buf buf2 s with
    | Ret _ s' | Exit _ _ s' =>
        disk s' = disk s /\
        count is_disk_write (trace s') = count is_disk_write (trace s) /\
        count is_flush (trace s') = count is_flush (trace s)
    | _ => True
    end.
Proof.
  induction fuel as [|fuel IH]; intros c buf s; [exact I|].
  cbn [verify_chunks]. destruct (c <? nbytes); [|unfold ret; repeat split].
  set (n := chunk_len nbytes c).
  unfold bind, read_src.
  destruct (read_ok w (src_pos s) n).
  - unfold disk_read. state_simpl.
    destruct (disk_read_ok w (dest_pos s) n).
    + match goal with |- context [memcmp_ne ?a ?b ?c] => destruct (memcmp_ne a b c) end.
      * unfold print_mismatch, bind, eprintf, printf, log, quit, c_exit. state_simpl.
        match goal with |- context [find_mismatch ?a ?b ?c ?d ?e] =>
          destruct (find_mismatch a b c d e) end;
          unfold bind, ret, log, c_exit; state_simpl; rewrite ?count_cons;
          cbn [is_disk_write is_flush]; repeat split.
      * unfold ret, progress. state_simpl.
        destruct (to_uint step =? 0); [exact I|].
        destruct (to_uint (progress_count s + 1) mod to_uint step =? 0);
          match goal with |- context [verify_chunks fuel _ _ _ _ _ ?c1 ?b ?b2 ?s1] =>
            pose proof (IH c1 b s1) as Hrest;
            destruct (verify_chunks fuel w filename device_name nbytes step c1 b b2 s1)
          end; try exact I; revert Hrest; state_simpl; rewrite ?count_cons;
          cbn [is_disk_write is_flush]; intros Hrest; exact Hrest.
    + unfold bind, eprintf, log, quit, c_exit. state_simpl. rewrite ?count_cons.
      cbn [is_disk_write is_flush]. repeat split.
  - unfold bind, eprintf, log, quit, c_exit. state_simpl. rewrite ?count_cons.
    cbn [is_disk_write is_flush]. repeat split.
Qed.

(** X9.  Verify mode, whatever the operating system answers and however the job
    ends: the card holds what it held before, [disk_write] is never called and
    neither is [disk_flush]. *)
Theorem verify_mode_leaves_the_card_alone :
  forall (w : world) (filename device_name : string) (verify_only : Z) (d : Z -> byte),
    verify_only <> 0 ->
    0 <= st_size w <= 2 ^ 62 ->
    card_after (write_image w filename device_name verify_only (boot d)) = Some d /\
    count is_disk_write (events_of (write_image w filename device_name verify_only (boot d)))
      = 0 /\
    count is_flush (events_of (write_image w filename device_name verify_only (boot d)))
      = 0.
Proof.
  intros w filename device_name verify_only d Hv Hsize.
  assert (Hrun : match write_image w filename device_name verify_only (boot d) with
                 | Ret _ s' | Exit _ _ s' =>
                     disk s' = d /\ count is_disk_write (trace s') = 0 /\
                     count is_flush (trace s') = 0
                 | _ => False
                 end).
  { destruct (cadence_total (st_size w)) as (len & j & Hj & Hcad).
    pose proof (write_image_wp w filename device_name verify_only (boot d) len j Hsize Hj
                  Hcad) as Hend.
    unfold wp in Hend. revert Hend.
    unfold write_image. rewrite to_long_small by lia. rewrite Hcad.
    unfold bind, disk_open, log, printf.
    destruct (src_opens w); [|intros _; repeat split].
    unfold bind, log. state_simpl.
    destruct (dest_opens w); [|intros _; repeat split].
    cbv beta iota. state_simpl.
    destruct (Z.eqb_spec verify_only 0) as [E|_]; [contradiction|].
    unfold ret.
    match goal with |- context [verify_chunks ?f _ _ _ _ _ ?c ?b ?b2 ?s1] =>
      pose proof (verify_chunks_reads_only w filename device_name (st_size w) (2 ^ j) b2
                    f c b s1) as Hloop;
      destruct (verify_chunks f w filename device_name (st_size w) (2 ^ j) c b b2 s1)
        as [b' s'|status why s'| |]
    end; try contradiction; intros _; revert Hloop; state_simpl; cbn [boot disk trace];
      rewrite ?count_cons; cbn [is_disk_write is_flush]; change (count _ []) with 0;
      intros (Hdisk & Hwrites & Hflushes);
      unfold disk_close, log; state_simpl; rewrite ?count_cons;
      cbn [is_disk_write is_flush]; (split; [exact Hdisk|]); split; lia. }
  unfold events_of, card_after.
  destruct (write_image w filename device_name verify_only (boot d))
    as [[] s'|status why s'| |]; try contradiction;
    destruct Hrun as (-> & Hwrites & Hflushes);
    rewrite <- rev_alt, !count_rev; repeat split; assumption.
Qed.

Lemma verify_mode_leaves_the_card_alone_witness :
  card_after (write_image (steady 100000) "sdcard.img" "/dev/sdb" 1 (boot (card_of x00)))
    = Some (card_of x00) /\
  count is_disk_write
    (events_of (write_image (steady 100000) "sdcard.img" "/dev/sdb" 1 (boot (card_of x00))))
    = 0 /\
  count is_flush
    (events_of (write_image (steady 100000) "sdcard.img" "/dev/sdb" 1 (boot (card_of x00))))
    = 0.
Proof.
  apply (verify_mode_leaves_the_card_alone (steady 100000) "sdcard.img" "/dev/sdb" 1
           (card_of x00)).
  - intros E. discriminate E.
  - cbn [st_size steady]. lia.
Defined.

(** ** The verdict of verify mode *)

Lemma differ_from_false (a b : buffer) :
  forall (cnt : nat) (i : Z),
    differ_from cnt a b i = false ->
    forall t, i <= t < i + Z.of_nat cnt -> a t = b t.
Proof.
  induction cnt as [|cnt IH]; intros i H t Ht; [lia|].
  cbn [differ_from] in H. apply Bool.orb_false_iff in H as [Hhere Hrest].
  destruct (Z.eq_dec t i) as [->|Hne].
  - apply Bool.negb_false_iff in Hhere. apply Byte.byte_dec_bl. exact Hhere.
  - apply (IH (i + 1) Hrest). lia.
Qed.

Lemma differ_from_true (a b : buffer) :
  forall (cnt : nat) (i : Z),
    differ_from cnt a b i = true ->
    exists t, i <= t < i + Z.of_nat cnt /\ a t <> b t /\
              forall u, i <= u < t -> a u = b u.
Proof.
  induction cnt as [|cnt IH]; intros i H; [discriminate H|].
  cbn [differ_from] in H.
  destruct (Byte.eqb (a i) (b i)) eqn:E.
  - cbn [negb orb] in H. destruct (IH (i + 1) H) as (t & Ht & Hdiff & Hsame).
    exists t. split; [lia|]. split; [exact Hdiff|].
    intros u Hu. destruct (Z.eq_dec u i) as [->|Hne].
    + apply Byte.byte_dec_bl. exact E.
    + apply Hsame. lia.
  - exists i. split; [lia|]. split.
    + intros Heq. rewrite Heq in E. rewrite (Byte.byte_dec_lb eq_refl) in E. discriminate E.
    + intros u Hu. lia.
Qed.

(** The index in the array of the byte at an offset of the image. *)
Lemma index_in_chunk (k u : Z) :
  0 <= u < sizeof_buf -> (sizeof_buf * k + u) mod sizeof_buf = u.
Proof.
  intros Hu. symmetry. apply (Z.mod_unique _ _ k); unfold sizeof_buf in *; lia.
Qed.

Section Verdict.

Variables (w : world) (filename device_name : string) (nbytes j : Z).
Variable d : Z -> byte.
Variable buf2 : buffer.
Hypothesis Hfree : fault_free w.
Hypothesis Hsize : 0 <= nbytes < 2 ^ 32.
Hypothesis Hj : 0 <= j <= 25.

(** The loop of verify mode runs as long as the card holds, chunk by chunk,
    what [buf2] holds, and ends the run with the report of the first byte of
    the card that differs. *)
Lemma verify_chunks_verdict :
  forall (todo fuel : nat) (k : Z) (buf : buffer) (s : state),
    0 <= k -> Z.of_nat todo = total_chunks nbytes - k ->
    (todo < fuel)%nat ->
    src_pos s = Z.min nbytes (sizeof_buf * k) ->
    dest_pos s = Z.min nbytes (sizeof_buf * k) ->
    disk s = d ->
    match verify_chunks fuel w filename device_name nbytes (2 ^ j) (sizeof_buf * k)
            buf buf2 s with
    | Ret _ s' =>
        forall x, sizeof_buf * k <= x < nbytes -> d x = buf2 (x mod sizeof_buf)
    | Exit status why s' =>
        exists x0,
          sizeof_buf * k <= x0 < nbytes /\
          d x0 <> buf2 (x0 mod sizeof_buf) /\
          (forall x, sizeof_buf * k <= x < x0 -> d x = buf2 (x mod sizeof_buf)) /\
          status = -1 /\ why = AtMismatch /\
          hd_error (trace s') =
            Some (EvOut (mismatch_text {| mm_offset := x0;
                                          mm_expected := d x0;
                                          mm_byte := buf2 (x0 mod sizeof_buf) |}))
    | _ => False
    end.
Proof.
  destruct Hfree as (_ & _ & Hread & _ & Hdread).
  induction todo as [|todo IH]; intros fuel k buf s Hk Htodo Hfuel Hsrc Hdest Hdisk;
    (destruct fuel as [|fuel]; [lia|]); cbn [verify_chunks];
    rewrite chunk_left by lia.
  - destruct (Z.ltb_spec k (total_chunks nbytes)) as [Hlt|Hge]; [lia|].
    unfold ret. intros x Hx.
    pose proof (chunk_left nbytes k (proj1 Hsize) Hk) as E.
    rewrite (proj2 (Z.ltb_ge _ _) Hge) in E. apply Z.ltb_ge in E. lia.
  - destruct (Z.ltb_spec k (total_chunks nbytes)) as [Hlt|Hge]; [|lia].
    assert (Hcount : sizeof_buf * k < nbytes).
    { pose proof (chunk_left nbytes k (proj1 Hsize) Hk) as E.
      rewrite (proj2 (Z.ltb_lt _ _) Hlt) in E. apply Z.ltb_lt in E. exact E. }
    rewrite chunk_len_below_4_GiB by (unfold sizeof_buf in *; lia).
    set (n := Z.min sizeof_buf (nbytes - sizeof_buf * k)).
    assert (Hn : 0 < n <= sizeof_buf) by (unfold n, sizeof_buf in *; lia).
    set (p := sizeof_buf * k) in *.
    assert (Hp : 0 <= p) by (unfold p, sizeof_buf; lia).
    assert (Hidx : forall u, 0 <= u < sizeof_buf -> (p + u) mod sizeof_buf = u)
      by (intros u Hu; unfold p; apply index_in_chunk; exact Hu).
    destruct (progress_arith j k Hj Hk) as (_ & Hstep & Hpos & _).
    unfold bind, read_src. rewrite Hread.
    unfold disk_read. state_simpl. rewrite Hdread.
    rewrite Hsrc, Hdest, Hdisk. rewrite (Z.min_r nbytes p) by lia.
    set (card := fill (fill buf (file w) p n) d p n).
    assert (Hcard : forall u, 0 <= u < n -> card u = d (p + u)).
    { intros u Hu. unfold card, fill.
      destruct (Z.leb_spec 0 u), (Z.ltb_spec u n); cbn [andb]; try lia. reflexivity. }
    unfold memcmp_ne. destruct (differ_from (Z.to_nat n) card buf2 0) eqn:Hcmp.
    + apply differ_from_true in Hcmp as (t & Ht & Hdiff & Hsame).
      rewrite Z2Nat.id in Ht by lia.
      unfold print_mismatch, bind, eprintf, log. state_simpl.
      rewrite (find_mismatch_first card buf2 _ (Z.to_nat n) 0 t);
        [|lia|intros x Hx; symmetry; apply Hsame; exact Hx
         |intros Heq; apply Hdiff; symmetry; exact Heq].
      unfold printf, log, quit, c_exit. state_simpl. cbn [Z.eqb hd_error].
      replace (p + n - n) with p by lia.
      rewrite (to_long_small p) by (unfold p, sizeof_buf in *; lia).
      rewrite (to_ulong_small p) by (unfold p, sizeof_buf in *; lia).
      rewrite (to_ulong_small (p + t)) by (unfold p, sizeof_buf in *; lia).
      exists (p + t). rewrite (Hidx t), <- (Hcard t) by lia.
      split; [unfold n in *; lia|]. split; [exact Hdiff|].
      split; [|repeat split].
      intros x Hx. replace x with (p + (x - p)) by lia.
      rewrite Hidx by lia. rewrite <- Hcard by lia. apply Hsame. lia.
    + pose proof (differ_from_false card buf2 _ _ Hcmp) as Hsame.
      rewrite Z2Nat.id in Hsame by lia.
      unfold ret, progress. state_simpl. rewrite Hstep.
      destruct (Z.eqb_spec (2 ^ j) 0) as [E|_]; [lia|].
      unfold p. rewrite next_count_exact by (unfold sizeof_buf in *; lia). fold p.
      assert (Hgo : forall s1,
                src_pos s1 = p + n -> dest_pos s1 = p + n -> disk s1 = d ->
                match verify_chunks fuel w filename device_name nbytes (2 ^ j)
                        (sizeof_buf * (k + 1)) card buf2 s1 with
                | Ret _ s' =>
                    forall x, p <= x < nbytes -> d x = buf2 (x mod sizeof_buf)
                | Exit status why s' =>
                    exists x0,
                      p <= x0 < nbytes /\
                      d x0 <> buf2 (x0 mod sizeof_buf) /\
                      (forall x, p <= x < x0 -> d x = buf2 (x mod sizeof_buf)) /\
                      status = -1 /\ why = AtMismatch /\
                      hd_error (trace s') =
                        Some (EvOut (mismatch_text
                                       {| mm_offset := x0;
                                          mm_expected := d x0;
                                          mm_byte := buf2 (x0 mod sizeof_buf) |}))
                | _ => False
                end).
      { intros s1 Hs Hd Hdk.
        assert (Hhere : forall x, p <= x < p + n -> d x = buf2 (x mod sizeof_buf)).
        { intros x Hx. replace x with (p + (x - p)) by lia.
          rewrite Hidx by lia. rewrite <- Hcard by lia. apply Hsame. lia. }
        assert (Hnext : p + n = Z.min nbytes (sizeof_buf * (k + 1)))
          by (unfold n, p, sizeof_buf in *; lia).
        pose proof (IH fuel (k + 1) card s1 ltac:(lia) ltac:(lia) ltac:(lia)
                      ltac:(lia) ltac:(lia) Hdk) as Hrest.
        destruct (verify_chunks fuel w filename device_name nbytes (2 ^ j)
                    (sizeof_buf * (k + 1)) card buf2 s1) as [b' s'|status why s'| |];
          try contradiction.
        - intros x Hx. destruct (Z.lt_ge_cases x (p + n)) as [Hin|Hout].
          + apply Hhere. lia.
          + apply Hrest. unfold n, p, sizeof_buf in *. lia.
        - destruct Hrest as (x0 & Hx0 & Hdiff & Hbefore & Hrest). exists x0.
          split; [unfold p, sizeof_buf in *; lia|]. split; [exact Hdiff|].
          split; [|exact Hrest].
          intros x Hx. destruct (Z.lt_ge_cases x (p + n)) as [Hin|Hout].
          + apply Hhere. lia.
          + apply Hbefore. unfold n, p, sizeof_buf in *. lia. }
      destruct (to_uint (progress_count s + 1) mod 2 ^ j =? 0);
        (apply Hgo; [reflexivity|reflexivity|exact Hdisk]).
Qed.

End Verdict.

(** X10.  Verify mode on an image of less than 4 GiB, on an operating system on
    which nothing fails.  The job returns exactly when every byte of the card
    below the size of the image equals the byte of the array [buf2] at the
    byte's index in its chunk; [buf2] is never stored into, so it holds what
    the stack held.  Otherwise the job ends with the status -1 at the report
    of the first such byte of the card that differs: its offset, the byte of
    the card as "file" and the byte of [buf2] as "disk". *)
Theorem verify_mode_verdict :
  forall (w : world) (filename device_name : string) (verify_only : Z) (d : Z -> byte),
    fault_free w ->
    verify_only <> 0 ->
    0 <= st_size w < 2 ^ 32 ->
    (returned (write_image w filename device_name verify_only (boot d)) <->
     forall x, 0 <= x < st_size w -> d x = stack_buf2 w (x mod sizeof_buf)) /\
    (forall x0,
        0 <= x0 < st_size w ->
        d x0 <> stack_buf2 w (x0 mod sizeof_buf) ->
        (forall x, 0 <= x < x0 -> d x = stack_buf2 w (x mod sizeof_buf)) ->
        ending (write_image w filename device_name verify_only (boot d))
          = Some (-1, AtMismatch) /\
        last_event (write_image w filename device_name verify_only (boot d))
          = Some (EvOut (mismatch_text
                           {| mm_offset := x0;
                              mm_expected := d x0;
                              mm_byte := stack_buf2 w (x0 mod sizeof_buf) |}))).
Proof.
  intros w filename device_name verify_only d Hfree Hv Hsize.
  assert (Hrun :
    match write_image w filename device_name verify_only (boot d) with
    | Ret _ s' => forall x, 0 <= x < st_size w -> d x = stack_buf2 w (x mod sizeof_buf)
    | Exit status why s' =>
        exists x0,
          0 <= x0 < st_size w /\
          d x0 <> stack_buf2 w (x0 mod sizeof_buf) /\
          (forall x, 0 <= x < x0 -> d x = stack_buf2 w (x mod sizeof_buf)) /\
          status = -1 /\ why = AtMismatch /\
          hd_error (trace s') =
            Some (EvOut (mismatch_text {| mm_offset := x0;
                                          mm_expected := d x0;
                                          mm_byte := stack_buf2 w (x0 mod sizeof_buf) |}))
    | _ => False
    end).
  { destruct (cadence_total (st_size w)) as (len & j & Hj & Hcad).
    pose proof (total_chunks_nonneg _ (proj1 Hsize)) as Hchunks.
    unfold write_image. rewrite to_long_small by lia. rewrite Hcad.
    pose proof Hfree as (Hsrc & Hdest & _).
    unfold bind, disk_open, log, printf. rewrite Hsrc. unfold bind, log. state_simpl.
    rewrite Hdest. cbv beta iota. state_simpl.
    destruct (Z.eqb_spec verify_only 0) as [E|_]; [contradiction|].
    unfold ret.
    match goal with |- context [verify_chunks ?f _ _ _ _ _ _ ?b ?b2 ?s1] =>
      pose proof (verify_chunks_verdict w filename device_name (st_size w) j d b2
                    Hfree Hsize Hj
                    (Z.to_nat (total_chunks (st_size w))) f 0 b s1
                    ltac:(lia) ltac:(lia) ltac:(unfold chunk_fuel; lia)
                    ltac:(state_simpl; lia) ltac:(state_simpl; lia) eq_refl) as Hloop;
      rewrite Z.mul_0_r in Hloop;
      destruct (verify_chunks f w filename device_name (st_size w) (2 ^ j) 0 b b2 s1)
        as [b' s'|status why s'| |]
    end; try contradiction.
    - unfold disk_close, log. exact Hloop.
    - exact Hloop. }
  unfold returned, ending, last_event.
  destruct (write_image w filename device_name verify_only (boot d))
    as [[] s'|status why s'| |]; try contradiction.
  - split; [split; [intros _; exact Hrun|intros _; exact I]|].
    intros x0 Hx0 Hdiff _. exfalso. apply Hdiff. apply Hrun. exact Hx0.
  - destruct Hrun as (x1 & Hx1 & Hdiff1 & Hbefore1 & -> & -> & Hlast).
    split.
    + split; [intros []|]. intros Hall. exfalso. apply Hdiff1. apply Hall. exact Hx1.
    + intros x0 Hx0 Hdiff Hbefore.
      assert (x0 = x1) as ->.
      { destruct (Z.lt_trichotomy x0 x1) as [Hlt|[Heq|Hgt]]; [|exact Heq|].
        - exfalso. apply Hdiff. apply Hbefore1. lia.
        - exfalso. apply Hdiff1. apply Hbefore. lia. }
      split; [reflexivity|exact Hlast].
Qed.

Lemma verify_mode_verdict_witness :
  (returned (write_image (steady 100000) "sdcard.img" "/dev/sdb" 1 (boot (card_of x00))) <->
   forall x, 0 <= x < st_size (steady 100000) ->
             card_of x00 x = stack_buf2 (steady 100000) (x mod sizeof_buf)) /\
  (forall x0,
      0 <= x0 < st_size (steady 100000) ->
      card_of x00 x0 <> stack_buf2 (steady 100000) (x0 mod sizeof_buf) ->
      (forall x, 0 <= x < x0 ->
                 card_of x00 x = stack_buf2 (steady 100000) (x mod sizeof_buf)) ->
      ending (write_image (steady 100000) "sdcard.img" "/dev/sdb" 1 (boot (card_of x00)))
        = Some (-1, AtMismatch) /\
      last_event (write_image (steady 100000) "sdcard.img" "/dev/sdb" 1
                    (boot (card_of x00)))
        = Some (EvOut (mismatch_text
                         {| mm_offset := x0;
                            mm_expected := card_of x00 x0;
                            mm_byte := stack_buf2 (steady 100000) (x0 mod sizeof_buf) |}))).
Proof.
  apply (verify_mode_verdict (steady 100000) "sdcard.img" "/dev/sdb" 1 (card_of x00)).
  - repeat split.
  - intros E. discriminate E.
  - cbn [st_size steady]. lia.
Defined.

(** ** The prompt *)

(** [strchr] and [*p = 0] cut a label after its device node. *)
Lemma until_space_cuts (name rest : string) :
  no_space name = true -> until_space (name ++ String " " rest) = name.
Proof.
  induction name as [|c name IH]; intros H; [reflexivity|].
  cbn [no_space] in H. apply Bool.andb_true_iff in H as [Hc Hrest].
  cbn [append until_space]. apply Bool.negb_true_iff in Hc. rewrite Hc, IH by exact Hrest.
  reflexivity.
Qed.

Lemma until_space_label (dev : udev_entry) :
  eligible dev = true -> no_space (devnode dev) = true ->
  until_space (entry_label dev) = devnode dev.
Proof.
  unfold eligible, entry_label. destruct (usb_parent dev) as [usb|]; [|discriminate].
  intros _ H. apply (until_space_cuts _ _ H).
Qed.

Lemma in_firstn {A : Type} (x : A) :
  forall (n : nat) (l : list A), In x (firstn n l) -> In x l.
Proof.
  induction n as [|n IH]; intros [|y l] H; try contradiction.
  cbn [firstn] in H. destruct H as [->|H]; [left; reflexivity|right; apply IH, H].
Qed.

(** The lines that answer nothing are asked for again. *)
Lemma ask_loop_skips (devices : list string) (stdin : list string) :
  forall (bad : list string) (s : state),
    forallb (unusable_reply (Z.of_nat (List.length devices))) bad = true ->
    exists s', ask_loop devices (bad ++ stdin) s = ask_loop devices stdin s' /\
               disk s' = disk s.
Proof.
  induction bad as [|reply bad IH]; intros s H; [exists s; split; reflexivity|].
  cbn [forallb] in H. apply Bool.andb_true_iff in H as [Hreply Hbad].
  unfold unusable_reply in Hreply. apply Bool.andb_true_iff in Hreply as [Hq Hc].
  apply Bool.negb_true_iff in Hq, Hc.
  cbn [app ask_loop]. unfold bind, printf, log. rewrite Hq, Hc.
  destruct (1 <? Z.of_nat (List.length devices)); unfold ret;
    match goal with |- context [ask_loop devices (bad ++ stdin) ?s1] =>
      destruct (IH s1 Hbad) as (s' & Hrun & Hdisk)
    end; exists s'; (split; [exact Hrun|exact Hdisk]).
Qed.

(** X13.  The prompt on Linux.  When the answer, after any number of lines that
    are no answer, is the digit shown before a device in the menu,
    [ask_device] returns the node of that device, which is the [i]-th (from
    0) of the first nine eligible entries of the enumeration: the label is cut
    at its first space. *)
Theorem ask_device_returns_the_chosen_node :
  forall (p : platform) (bad : list string) (reply : string) (rest : list string)
         (s : state) (i : nat) (dev : udev_entry),
    udev_new_ok p = true ->
    nth_error (firstn 9 (filter eligible (block_devices p))) i = Some dev ->
    no_space (devnode dev) = true ->
    forallb (unusable_reply
               (Z.of_nat (List.length (firstn 9 (filter eligible (block_devices p))))))
            bad = true ->
    first_char reply = char_code "1" + Z.of_nat i ->
    exists s', ask_device p (bad ++ reply :: rest) s = Ret (devnode dev) s' /\
               disk s' = disk s.
Proof.
  intros p bad reply rest s i dev Hudev Hdev Hname Hbad Hreply.
  set (listed := firstn 9 (filter eligible (block_devices p))) in *.
  assert (Hlen : (i < List.length listed)%nat).
  { apply nth_error_Some. rewrite Hdev. discriminate. }
  assert (Hmax : (List.length listed <= 9)%nat) by (unfold listed; apply firstn_le_length).
  assert (Heligible : eligible dev = true).
  { apply nth_error_In in Hdev. unfold listed in Hdev. apply in_firstn in Hdev.
    apply filter_In in Hdev. apply Hdev. }
  unfold ask_device, bind, get_devices. rewrite Hudev. unfold ret.
  rewrite (scan_entries_filter (block_devices p) MAXDEV 0) by (unfold MAXDEV; lia).
  change (Z.to_nat (MAXDEV - 0)) with 9%nat. fold listed.
  destruct (map entry_label listed) as [|label labels] eqn:Hlabels.
  { apply (f_equal (@List.length string)) in Hlabels. rewrite length_map in Hlabels.
    cbn [List.length] in Hlabels. lia. }
  rewrite <- Hlabels.
  assert (Hndev : List.length (map entry_label listed) = List.length listed)
    by apply length_map.
  destruct (ask_loop_skips (map entry_label listed) (reply :: rest) bad s) as (s1 & Hskip & Hdisk).
  { rewrite Hndev. exact Hbad. }
  rewrite Hskip. cbn [ask_loop]. unfold bind, printf, log. rewrite Hndev, Hreply.
  assert (Hcode : char_code "1" = 49) by reflexivity.
  assert (Hq : (char_code "1" + Z.of_nat i =? char_code "q")
               || (char_code "1" + Z.of_nat i =? char_code "Q") = false).
  { change (char_code "q") with 113. change (char_code "Q") with 81. rewrite Hcode.
    apply Bool.orb_false_iff. split; apply Z.eqb_neq; lia. }
  assert (Hc : (char_code "1" <=? char_code "1" + Z.of_nat i)
               && (char_code "1" + Z.of_nat i <? char_code "1" + Z.of_nat (List.length listed))
               = true).
  { apply Bool.andb_true_iff. split; [apply Z.leb_le|apply Z.ltb_lt]; lia. }
  rewrite Hq, Hc.
  replace (char_code "1" + Z.of_nat i - char_code "1") with (Z.of_nat i) by lia.
  rewrite Nat2Z.id.
  rewrite (nth_error_nth (map entry_label listed) i EmptyString
             (map_nth_error entry_label i listed Hdev)).
  rewrite (until_space_label dev Heligible Hname).
  destruct (1 <? Z.of_nat (List.length listed)); unfold ret; eexists;
    (split; [reflexivity|exact Hdisk]).
Qed.

Lemma ask_device_returns_the_chosen_node_witness :
  exists s',
    ask_device three_disks ["x"%string; ""%string; "1"%string] (boot (card_of x00))
      = Ret "/dev/sdc"%string s' /\
    disk s' = disk (boot (card_of x00)).
Proof.
  apply (ask_device_returns_the_chosen_node three_disks ["x"%string; ""%string]
           "1"%string [] (boot (card_of x00)) 0
           {| usb_parent := Some {| manufacturer := "Generic"; product := "Mass-Storage" |};
              removable := Some "1"%string;
              size_blocks := 3862528;
              devnode := "/dev/sdc" |}); reflexivity.
Defined.

(** ** The command line *)

Lemma is_setting_cases (ch : ascii) (optarg : string) :
  is_setting (ch, optarg) = true ->
  (Ascii.eqb ch "v" = true) \/
  (Ascii.eqb ch "v" = false /\ Ascii.eqb ch "d" = true) \/
  (Ascii.eqb ch "v" = false /\ Ascii.eqb ch "d" = false /\ Ascii.eqb ch "D" = true).
Proof.
  unfold is_setting, has_option. cbn [fst].
  destruct (Ascii.eqb ch "v"), (Ascii.eqb ch "d"), (Ascii.eqb ch "D"); cbn [orb]; intros H;
    try discriminate H; auto.
Qed.

Lemma count_options_cons (ch : ascii) (o : ascii * string) (l : list (ascii * string)) :
  count_options ch (o :: l) = (if has_option ch o then 1 else 0) + count_options ch l.
Proof.
  unfold count_options. cbn [filter]. destruct (has_option ch o); cbn [List.length]; lia.
Qed.

(** Over [-v], [-d] and [-D] the loop of [main] runs through, counts the
    [-v] and keeps the argument of the last [-d]. *)
Lemma parse_settings (options : list (ascii * string)) :
  forall g : settings,
    forallb is_setting options = true ->
    0 <= verify_only g ->
    verify_only g + Z.of_nat (List.length options) < 2 ^ 31 ->
    exists g',
      (forall p s, parse_options p options g s = Ret g' s) /\
      verify_only g' = verify_only g + count_options "v" options /\
      (existsb (has_option "d") options = false -> device_name g' = device_name g).
Proof.
  induction options as [|[ch optarg] options IH]; intros g Hall Hv Hmax.
  - exists g. split; [reflexivity|]. split; [unfold count_options; cbn; lia|reflexivity].
  - cbn [forallb] in Hall. apply Bool.andb_true_iff in Hall as [Hthis Hrest].
    cbn [List.length] in Hmax. rewrite count_options_cons. cbn [existsb].
    change (has_option "v" (ch, optarg)) with (Ascii.eqb ch "v").
    change (has_option "d" (ch, optarg)) with (Ascii.eqb ch "d").
    destruct (is_setting_cases ch optarg Hthis) as [Ev|[(Ev & Ed)|(Ev & Ed & ED)]].
    + destruct (IH {| device_name := device_name g;
                      verify_only := to_int (verify_only g + 1);
                      debug_level := debug_level g |} Hrest) as (g' & Hrun & Hcount & Hname);
        cbn [verify_only device_name]; rewrite ?to_int_small by lia; try lia.
      cbn [verify_only device_name] in Hcount, Hname.
      rewrite to_int_small in Hcount by lia.
      exists g'. split; [|split].
      * intros p s. cbn [parse_options]. rewrite Ev. apply Hrun.
      * rewrite Hcount, Ev. lia.
      * assert (Ed : Ascii.eqb ch "d" = false).
        { apply Ascii.eqb_eq in Ev. subst ch. reflexivity. }
        rewrite Ed. cbn [orb]. exact Hname.
    + destruct (IH {| device_name := Some optarg;
                      verify_only := verify_only g;
                      debug_level := debug_level g |} Hrest) as (g' & Hrun & Hcount & Hname);
        cbn [verify_only device_name]; try lia.
      cbn [verify_only device_name] in Hcount, Hname.
      exists g'. split; [|split].
      * intros p s. cbn [parse_options]. rewrite Ev, Ed. apply Hrun.
      * rewrite Hcount, Ev. lia.
      * rewrite Ed. cbn [orb]. intros E. discriminate E.
    + destruct (IH {| device_name := device_name g;
                      verify_only := verify_only g;
                      debug_level := to_int (debug_level g + 1) |} Hrest)
        as (g' & Hrun & Hcount & Hname);
        cbn [verify_only device_name]; try lia.
      cbn [verify_only device_name] in Hcount, Hname.
      exists g'. split; [|split].
      * intros p s. cbn [parse_options]. rewrite Ev, Ed, ED. apply Hrun.
      * rewrite Hcount, Ev. lia.
      * rewrite Ed. cbn [orb]. exact Hname.
Qed.

Lemma count_options_app (ch : ascii) (l l' : list (ascii * string)) :
  count_options ch (l ++ l') = count_options ch l + count_options ch l'.
Proof. unfold count_options. rewrite filter_app, length_app. lia. Qed.

Lemma count_options_range (ch : ascii) (l : list (ascii * string)) :
  0 <= count_options ch l <= Z.of_nat (List.length l).
Proof.
  unfold count_options. pose proof (filter_length_le (has_option ch) l). lia.
Qed.

(** Events that only add output. *)
Lemma only_added_refl (p : event -> bool) (s : state) : only_added p s s.
Proof. split; [reflexivity|]. exists []. split; reflexivity. Qed.

Lemma only_added_emit (p : event -> bool) (e : event) (s s' : state) :
  p e = true -> only_added p s s' -> only_added p s (emit e s').
Proof.
  intros He (Hdisk & added & Htrace & Hall). split; [exact Hdisk|].
  exists (e :: added). cbn [emit trace app forallb]. rewrite Htrace, He, Hall.
  split; reflexivity.
Qed.

Lemma only_added_weaken (p q : event -> bool) (s s' : state) :
  (forall e, p e = true -> q e = true) -> only_added p s s' -> only_added q s s'.
Proof.
  intros Hpq (Hdisk & added & Htrace & Hall). split; [exact Hdisk|].
  exists added. split; [exact Htrace|].
  apply forallb_forall. intros e He. apply Hpq.
  apply (proj1 (forallb_forall p added) Hall e He).
Qed.

Lemma output_is_message (e : event) : is_output e = true -> is_message e = true.
Proof. destruct e; intros H; try discriminate H; reflexivity. Qed.



Lemma only_added_from_boot (p : event -> bool) (d : Z -> byte) (s' : state) :
  only_added p (boot d) s' -> disk s' = d /\ forallb p (trace s') = true.
Proof.
  intros (Hdisk & added & Htrace & Hall). split; [exact Hdisk|].
  rewrite Htrace. cbn [boot trace]. rewrite app_nil_r. exact Hall.
Qed.

(** [usage] ends the run, after output on [stdout] only: in its own
    [exit(0)], or in [get_devices] when udev is not there. *)
Lemma usage_exits {A : Type} (p : platform) (s : state) :
  exists status why s',
    @usage A p s = Exit status why s' /\
    ((status = 0 /\ why = AtUsage /\ udev_new_ok p = true) \/
     (status = -1 /\ why = AtUdev /\ udev_new_ok p = false)) /\
    only_added is_output s s'.
Proof.
  unfold usage, bind, printf, log, get_devices.
  destruct (udev_new_ok p).
  - unfold ret. destruct (scan_entries (block_devices p) MAXDEV 0);
      unfold bind, log, c_exit; do 3 eexists; (split; [reflexivity|]);
      (split; [left; repeat split|]);
      repeat (apply only_added_emit; [reflexivity|]); apply only_added_refl.
  - unfold bind, log, quit, c_exit; do 3 eexists; (split; [reflexivity|]);
      (split; [right; repeat split|]);
      repeat (apply only_added_emit; [reflexivity|]); apply only_added_refl.
Qed.

(** The loop of [main] over a command line in two parts. *)
Lemma parse_options_app (p : platform) (l l' : list (ascii * string)) :
  forall (g : settings) (s : state),
    parse_options p (l ++ l') g s
      = bind (parse_options p l g) (fun g' => parse_options p l' g') s.
Proof.
  induction l as [|[ch optarg] l IH]; intros g s; [reflexivity|].
  cbn [app parse_options].
  destruct (Ascii.eqb ch "v"); [apply IH|].
  destruct (Ascii.eqb ch "d"); [apply IH|].
  destruct (Ascii.eqb ch "D"); [apply IH|].
  destruct (Ascii.eqb ch "V"); [reflexivity|].
  unfold bind.
  destruct (Ascii.eqb ch "?"); unfold eprintf, log, ret;
    match goal with |- context [@usage settings p ?s1] =>
      destruct (@usage_exits settings p s1) as (status & why & s' & -> & _)
    end; reflexivity.
Qed.

(** X14.  A device named with [-d].  When the options are [-v], [-d] and [-D]
    only, with one operand, [main] asks neither libudev nor the user: it
    prints the version and the copyright, runs the job on the argument of the
    last [-d], with [verify_only] the number of [-v] given, and ends in
    [quit(1)] when the job returns. *)
Theorem device_option_is_used_as_given :
  forall (p : platform) (w : world) (stdin : list string)
         (before after : list (ascii * string)) (name filename : string) (s : state),
    forallb is_setting (before ++ ("d"%char, name) :: after) = true ->
    existsb (has_option "d") after = false ->
    Z.of_nat (List.length (before ++ ("d"%char, name) :: after)) < 2 ^ 31 ->
    main p w stdin (before ++ ("d"%char, name) :: after) [filename] s =
      (printf ("SD image writer, Version 1.0.0" ++ nl) ;;
       printf (copyright ++ nl) ;;
       write_image w filename name
         (count_options "v" (before ++ ("d"%char, name) :: after)) ;;
       quit AtDone 1) s.
Proof.
  intros p w stdin before after name filename s Hall Hlast Hmax.
  rewrite forallb_app in Hall. apply Bool.andb_true_iff in Hall as [Hbefore Hafter].
  cbn [forallb] in Hafter. apply Bool.andb_true_iff in Hafter as [_ Hafter].
  rewrite length_app in Hmax. cbn [List.length] in Hmax.
  pose proof (count_options_range "v" before) as Rbefore.
  destruct (parse_settings before {| device_name := None; verify_only := 0; debug_level := 0 |}
              Hbefore) as (g1 & Hrun1 & Hcount1 & _); cbn [verify_only]; try lia.
  cbn [verify_only] in Hcount1.
  destruct (parse_settings after {| device_name := Some name;
                                    verify_only := verify_only g1;
                                    debug_level := debug_level g1 |} Hafter)
    as (g2 & Hrun2 & Hcount2 & Hname2); cbn [verify_only]; try lia.
  cbn [verify_only device_name] in Hcount2, Hname2.
  assert (Hparse : forall s0,
            parse_options p (before ++ ("d"%char, name) :: after)
              {| device_name := None; verify_only := 0; debug_level := 0 |} s0 = Ret g2 s0).
  { intros s0. rewrite parse_options_app. unfold bind. rewrite Hrun1.
    cbn [parse_options]. change (Ascii.eqb "d" "v") with false.
    change (Ascii.eqb "d" "d") with true. cbv iota. apply Hrun2. }
  assert (Hv : verify_only g2 = count_options "v" (before ++ ("d"%char, name) :: after)).
  { rewrite count_options_app. rewrite Hcount2, Hcount1.
    change (("d"%char, name) :: after) with ([("d"%char, name)] ++ after).
    rewrite (count_options_app "v" [("d"%char, name)] after).
    change (count_options "v" [("d"%char, name)]) with 0. lia. }
  unfold main, bind, printf, log. rewrite Hparse, (Hname2 Hlast), Hv. unfold ret.
  reflexivity.
Qed.

Lemma device_option_is_used_as_given_witness :
  main one_card (steady 70000) []
       ([("v"%char, ""%string); ("d"%char, "/dev/sdx"%string)]
        ++ ("d"%char, "/dev/sdb"%string) :: [("D"%char, ""%string)])
       ["sdcard.img"%string] (boot (card_of x00)) =
    (printf ("SD image writer, Version 1.0.0" ++ nl) ;;
     printf (copyright ++ nl) ;;
     write_image (steady 70000) "sdcard.img" "/dev/sdb"
       (count_options "v"
          ([("v"%char, ""%string); ("d"%char, "/dev/sdx"%string)]
           ++ ("d"%char, "/dev/sdb"%string) :: [("D"%char, ""%string)])) ;;
     quit AtDone 1) (boot (card_of x00)).
Proof.
  apply (device_option_is_used_as_given one_card (steady 70000) []
           [("v"%char, ""%string); ("d"%char, "/dev/sdx"%string)] [("D"%char, ""%string)]
           "/dev/sdb" "sdcard.img" (boot (card_of x00))).
  - reflexivity.
  - reflexivity.
  - simpl. lia.
Defined.

(** Where the loop of [main] ends the run, and what it has done by then. *)
Lemma parse_options_ends (p : platform) (options : list (ascii * string)) :
  forall (g : settings) (s : state),
    match parse_options p options g s with
    | Ret g' s' =>
        s' = s /\ forallb is_setting options = true /\
        (existsb (has_option "v") options = false -> verify_only g' = verify_only g) /\
        (existsb (has_option "d") options = false -> device_name g' = device_name g) /\
        (existsb (has_option "d") options = true -> exists name, device_name g' = Some name)
    | Exit status why s' =>
        forallb is_setting options = false /\
        ((status = 0 /\ why = AtUsage) \/ (status = 0 /\ why = AtVersion) \/
         (status = -1 /\ why = AtUdev)) /\
        only_added is_message s s' /\
        (existsb (has_option "?") options = false -> only_added is_output s s')
    | _ => False
    end.
Proof.
  induction options as [|[ch optarg] options IH]; intros g s.
  - cbn [parse_options]. unfold ret. repeat split. intros E. discriminate E.
  - cbn [parse_options forallb existsb]. unfold is_setting at 1 3.
    change (has_option "v" (ch, optarg)) with (Ascii.eqb ch "v").
    change (has_option "d" (ch, optarg)) with (Ascii.eqb ch "d").
    change (has_option "D" (ch, optarg)) with (Ascii.eqb ch "D").
    change (has_option "?" (ch, optarg)) with (Ascii.eqb ch "?").
    destruct (Ascii.eqb ch "v") eqn:Ev; cbn [orb andb].
    { assert (Ed : Ascii.eqb ch "d" = false)
        by (apply Ascii.eqb_eq in Ev; subst ch; reflexivity).
      assert (Eq : Ascii.eqb ch "?" = false)
        by (apply Ascii.eqb_eq in Ev; subst ch; reflexivity).
      rewrite Ed, Eq. cbn [orb].
      match goal with |- context [parse_options p options ?g1 s] =>
        pose proof (IH g1 s) as Hrest; destruct (parse_options p options g1 s)
      end; try exact Hrest.
      destruct Hrest as (Hs & Hall & _ & Hname & Hnamed). cbn [device_name] in Hname, Hnamed.
      split; [exact Hs|]. split; [exact Hall|]. split; [intros E; discriminate E|].
      split; assumption. }
    destruct (Ascii.eqb ch "d") eqn:Ed; cbn [orb andb].
    { assert (Eq : Ascii.eqb ch "?" = false)
        by (apply Ascii.eqb_eq in Ed; subst ch; reflexivity).
      rewrite Eq. cbn [orb].
      match goal with |- context [parse_options p options ?g1 s] =>
        pose proof (IH g1 s) as Hrest; destruct (parse_options p options g1 s)
      end; try exact Hrest.
      destruct Hrest as (Hs & Hall & Hv & Hname & Hnamed).
      cbn [device_name verify_only] in Hv, Hname, Hnamed.
      split; [exact Hs|]. split; [exact Hall|]. split; [exact Hv|].
      split; [intros E; discriminate E|]. intros _.
      destruct (existsb (has_option "d") options) eqn:Emore.
      - apply Hnamed. reflexivity.
      - exists optarg. apply Hname. reflexivity. }
    destruct (Ascii.eqb ch "D") eqn:ED; cbn [orb andb].
    { assert (Eq : Ascii.eqb ch "?" = false)
        by (apply Ascii.eqb_eq in ED; subst ch; reflexivity).
      rewrite Eq. cbn [orb].
      match goal with |- context [parse_options p options ?g1 s] =>
        pose proof (IH g1 s) as Hrest; destruct (parse_options p options g1 s)
      end; exact Hrest. }
    destruct (Ascii.eqb ch "V").
    + unfold c_exit. split; [reflexivity|]. split; [right; left; split; reflexivity|].
      split; [apply only_added_refl|]. intros _. apply only_added_refl.
    + unfold bind. destruct (Ascii.eqb ch "?"); unfold eprintf, log, ret;
        match goal with |- context [@usage settings p ?s1] =>
          destruct (@usage_exits settings p s1) as (status & why & s' & -> & Hwhy & Hout)
        end;
        (split; [reflexivity|]);
        (split; [destruct Hwhy as [(-> & -> & _)|(-> & -> & _)];
                 [left|right; right]; split; reflexivity|]).
      * split; [|intros E; discriminate E].
        destruct Hout as (Hdisk & added & Htrace & Hall). split; [exact Hdisk|].
        exists (added ++ [EvErr optarg]). rewrite Htrace. cbn [emit trace].
        rewrite <- app_assoc. split; [reflexivity|].
        rewrite forallb_app. cbn [forallb is_message].
        rewrite (proj2 (forallb_forall is_message added)
                   (fun e He => output_is_message e
                                  (proj1 (forallb_forall is_output added) Hall e He))).
        reflexivity.
      * split; [apply (only_added_weaken is_output); [apply output_is_message|exact Hout]|].
        intros _. exact Hout.
Qed.

(** The prompt adds output on [stdout] only, and ends the run nowhere a run
    ends well. *)
Lemma ask_loop_only_asks (devices : list string) (s0 : state) :
  forall (stdin : list string) (s : state),
    only_added is_output s0 s ->
    wp (ask_loop devices stdin) (fun _ s' => only_added is_output s0 s')
       (fun _ why s' => is_success why = false /\ only_added is_output s0 s') s.
Proof.
  assert (Hstep : forall text s, only_added is_output s0 s ->
                                 only_added is_output s0 (emit (EvOut text) s))
    by (intros text s H; apply only_added_emit; [reflexivity|exact H]).
  induction stdin as [|reply stdin IH]; intros s Hs; cbn [ask_loop];
    unfold wp, bind, printf, log.
  - destruct (1 <? Z.of_nat (List.length devices)); unfold quit, c_exit;
      (split; [reflexivity|]); repeat apply Hstep; exact Hs.
  - destruct (1 <? Z.of_nat (List.length devices));
      (destruct ((first_char reply =? char_code "q") || (first_char reply =? char_code "Q"));
       [unfold quit, c_exit; split; [reflexivity|repeat apply Hstep; exact Hs]|]);
      (destruct ((char_code "1" <=? first_char reply)
                 && (first_char reply <? char_code "1" + Z.of_nat (List.length devices)));
       [unfold ret; repeat apply Hstep; exact Hs|]);
      unfold ret; apply IH; repeat apply Hstep; exact Hs.
Qed.

Lemma ask_device_only_asks (p : platform) (stdin : list string) (s : state) :
  wp (ask_device p stdin) (fun _ s' => only_added is_output s s')
     (fun _ why s' => is_success why = false /\ only_added is_output s s') s.
Proof.
  unfold ask_device, get_devices. destruct (udev_new_ok p).
  - unfold wp, bind, ret. destruct (scan_entries (block_devices p) MAXDEV 0) as [|dev devs].
    + unfold printf, log, quit, c_exit. split; [reflexivity|].
      apply only_added_emit; [reflexivity|apply only_added_refl].
    + apply ask_loop_only_asks. apply only_added_refl.
  - unfold wp, bind, printf, log, quit, c_exit. split; [reflexivity|].
    apply only_added_emit; [reflexivity|apply only_added_refl].
Qed.

Lemma forallb_rev_append (p : event -> bool) (l : list event) :
  forallb p (rev_append l []) = forallb p l.
Proof.
  rewrite <- rev_alt. induction l as [|e l IH]; [reflexivity|].
  cbn [rev forallb]. rewrite forallb_app, IH. cbn [forallb].
  destruct (p e), (forallb p l); reflexivity.
Qed.

(** X15.  A command line that asks for no job.  When an option is none of [-v],
    [-d] and [-D], or when the operands are not exactly one, [main] ends the
    run in [usage], at [-V] or where udev fails, with the status 0 in the
    first two places and -1 in the third.  All it has done by then is
    output: on [stdout], and on [stderr] the line [getopt_long] writes when
    it returns ['?'].  No file and no device is opened, read or written, the
    card holds what it held, and nothing is read from standard input. *)
Theorem a_wrong_command_line_starts_no_job :
  forall (p : platform) (w : world) (stdin : list string)
         (options : list (ascii * string)) (operands : list string) (d : Z -> byte),
    forallb is_setting options = false \/ List.length operands <> 1%nat ->
    (ending (main p w stdin options operands (boot d)) = Some (0, AtUsage) \/
     ending (main p w stdin options operands (boot d)) = Some (0, AtVersion) \/
     ending (main p w stdin options operands (boot d)) = Some (-1, AtUdev)) /\
    forallb is_message (events_of (main p w stdin options operands (boot d))) = true /\
    (existsb (has_option "?") options = false ->
     forallb is_output (events_of (main p w stdin options operands (boot d))) = true) /\
    card_after (main p w stdin options operands (boot d)) = Some d /\
    main p w stdin options operands (boot d) = main p w [] options operands (boot d).
Proof.
  intros p w stdin options operands d Hwrong.
  assert (Hrun : forall lines,
            exists status why s',
              main p w lines options operands (boot d) = Exit status why s' /\
              ((status = 0 /\ why = AtUsage) \/ (status = 0 /\ why = AtVersion) \/
               (status = -1 /\ why = AtUdev)) /\
              only_added is_message (boot d) s' /\
              (existsb (has_option "?") options = false ->
               only_added is_output (boot d) s') /\
              main p w lines options operands (boot d)
                = main p w [] options operands (boot d)).
  { intros lines. unfold main, bind, printf, log.
    set (s0 := emit (EvOut ("SD image writer, Version 1.0.0" ++ nl)) (boot d)).
    assert (Hs0 : only_added is_output (boot d) s0)
      by (apply only_added_emit; [reflexivity|apply only_added_refl]).
    pose proof (parse_options_ends p options
                  {| device_name := None; verify_only := 0; debug_level := 0 |} s0)
      as Hparse.
    destruct (parse_options p options _ s0) as [g s1|status why s1| |]; try contradiction.
    - destruct Hparse as (-> & Hall & _).
      destruct Hwrong as [Hbad|Hcount]; [rewrite Hall in Hbad; discriminate Hbad|].
      destruct (@usage_exits unit p s0) as (status & why & s' & Hrun & Hwhy & Hout).
      assert (Hfrom : only_added is_output (boot d) s').
      { destruct Hout as (Hdisk & added & Htrace & Hadded). split; [exact Hdisk|].
        exists (added ++ [EvOut ("SD image writer, Version 1.0.0" ++ nl)]).
        rewrite Htrace. unfold s0. cbn [emit trace boot]. rewrite <- app_assoc.
        split; [reflexivity|]. rewrite forallb_app, Hadded. reflexivity. }
      destruct operands as [|filename [|other operands]];
        [|cbn [List.length] in Hcount; lia|];
        rewrite Hrun; exists status, why, s';
        (split; [reflexivity|]);
        (split; [destruct Hwhy as [(-> & -> & _)|(-> & -> & _)];
                 [left|right; right]; split; reflexivity|]);
        (split; [apply (only_added_weaken is_output);
                 [apply output_is_message|exact Hfrom]|]);
        (split; [intros _; exact Hfrom|reflexivity]).
    - destruct Hparse as (_ & Hwhy & Hmsg & Hout).
      assert (Hlift : forall q, q (EvOut ("SD image writer, Version 1.0.0" ++ nl)) = true ->
                                only_added q s0 s1 -> only_added q (boot d) s1).
      { intros q Hq (Hdisk & added & Htrace & Hadded). split; [exact Hdisk|].
        exists (added ++ [EvOut ("SD image writer, Version 1.0.0" ++ nl)]).
        rewrite Htrace. unfold s0. cbn [emit trace boot]. rewrite <- app_assoc.
        split; [reflexivity|]. rewrite forallb_app, Hadded. cbn [forallb]. rewrite Hq.
        reflexivity. }
      exists status, why, s1. split; [reflexivity|]. split; [exact Hwhy|].
      split; [apply Hlift; [reflexivity|exact Hmsg]|].
      split; [intros Hq; apply Hlift; [reflexivity|apply Hout, Hq]|reflexivity]. }
  destruct (Hrun stdin) as (status & why & s' & Hmain & Hwhy & Hmsg & Hout & Hsame).
  rewrite <- Hsame, Hmain. cbn [ending events_of card_after].
  rewrite !forallb_rev_append.
  destruct (only_added_from_boot _ _ _ Hmsg) as (Hdisk & Hall).
  split; [destruct Hwhy as [(-> & ->)|[(-> & ->)|(-> & ->)]]; auto|].
  split; [exact Hall|]. split; [|rewrite Hdisk; split; reflexivity].
  intros Hq. apply (only_added_from_boot _ _ _ (Hout Hq)).
Qed.

Lemma a_wrong_command_line_starts_no_job_witness :
  (ending (main three_disks (steady 70000) ["1"%string]
             [("?"%char, "sdwriter: invalid option -- 'x'"%string)]
             ["sdcard.img"%string] (boot (card_of x00))) = Some (0, AtUsage) \/
   ending (main three_disks (steady 70000) ["1"%string]
             [("?"%char, "sdwriter: invalid option -- 'x'"%string)]
             ["sdcard.img"%string] (boot (card_of x00))) = Some (0, AtVersion) \/
   ending (main three_disks (steady 70000) ["1"%string]
             [("?"%char, "sdwriter: invalid option -- 'x'"%string)]
             ["sdcard.img"%string] (boot (card_of x00))) = Some (-1, AtUdev)) /\
  forallb is_message
    (events_of (main three_disks (steady 70000) ["1"%string]
                  [("?"%char, "sdwriter: invalid option -- 'x'"%string)]
                  ["sdcard.img"%string] (boot (card_of x00)))) = true /\
  (existsb (has_option "?") [("?"%char, "sdwriter: invalid option -- 'x'"%string)] = false ->
   forallb is_output
     (events_of (main three_disks (steady 70000) ["1"%string]
                   [("?"%char, "sdwriter: invalid option -- 'x'"%string)]
                   ["sdcard.img"%string] (boot (card_of x00)))) = true) /\
  card_after (main three_disks (steady 70000) ["1"%string]
                [("?"%char, "sdwriter: invalid option -- 'x'"%string)]
                ["sdcard.img"%string] (boot (card_of x00)))
    = Some (card_of x00) /\
  main three_disks (steady 70000) ["1"%string]
    [("?"%char, "sdwriter: invalid option -- 'x'"%string)]
    ["sdcard.img"%string] (boot (card_of x00))
  = main three_disks (steady 70000) []
      [("?"%char, "sdwriter: invalid option -- 'x'"%string)]
      ["sdcard.img"%string] (boot (card_of x00)).
Proof.
  apply (a_wrong_command_line_starts_no_job three_disks (steady 70000) ["1"%string]
           [("?"%char, "sdwriter: invalid option -- 'x'"%string)]
           ["sdcard.img"%string] (card_of x00)).
  left. reflexivity.
Defined.

(** X16.  The status 0 of a job in write mode.  When no [-v] was given and the
    image has less than 4 GiB, a run of [main] that ends in the [quit(1)]
    after the job leaves the card with the bytes of the image from the
    offset 0 on, each at its own offset, and beyond the size of the image
    with what it held before, whichever device was named or chosen. *)
Theorem success_means_the_image_is_on_the_card :
  forall (p : platform) (w : world) (stdin : list string)
         (options : list (ascii * string)) (operands : list string) (d : Z -> byte),
    0 <= st_size w < 2 ^ 32 ->
    existsb (has_option "v") options = false ->
    ending (main p w stdin options operands (boot d)) = Some (0, AtDone) ->
    exists card,
      card_after (main p w stdin options operands (boot d)) = Some card /\
      forall x, card x = if (0 <=? x) && (x <? st_size w) then file w x else d x.
Proof.
  intros p w stdin options operands d Hsize Hwrite.
  assert (Hjob : forall filename name s,
            disk s = d ->
            ending ((write_image w filename name 0 ;; @quit unit AtDone 1) s)
              = Some (0, AtDone) ->
            exists card,
              card_after ((write_image w filename name 0 ;; @quit unit AtDone 1) s)
                = Some card /\
              forall x, card x = if (0 <=? x) && (x <? st_size w) then file w x else d x).
  { intros filename name s Hs.
    destruct (write_image_stores w filename name s ltac:(lia))
      as (card & m & Hcard & Hm & Hheld & Hall & _).
    destruct (cadence_total (st_size w)) as (len & j & Hj & Hcad).
    pose proof (write_image_wp w filename name 0 s len j ltac:(lia) Hj Hcad) as Hend.
    unfold wp in Hend. unfold bind. revert Hcard Hall Hend.
    destruct (write_image w filename name 0 s) as [[] s'|status why s'| |];
      cbn [card_after returned ending]; intros Hcard Hall Hfail Hend; try discriminate Hend.
    - unfold quit, c_exit. cbn [card_after]. injection Hcard as <-.
      exists (disk s'). split; [reflexivity|].
      rewrite <- (Hall I (proj2 Hsize)), <- Hs. exact Hheld.
    - injection Hend as _ ->. destruct Hfail as (_ & Hfail & _). discriminate Hfail. }
  unfold main, bind, printf, log.
  pose proof (parse_options_ends p options
                {| device_name := None; verify_only := 0; debug_level := 0 |}
                (emit (EvOut ("SD image writer, Version 1.0.0" ++ nl)) (boot d))) as Hparse.
  destruct (parse_options p options _ _) as [g s1|status why s1| |]; try contradiction.
  - destruct Hparse as (-> & _ & Hv & _). specialize (Hv Hwrite). cbn [verify_only] in Hv.
    destruct operands as [|filename [|other operands]].
    + destruct (@usage_exits unit p
                  (emit (EvOut ("SD image writer, Version 1.0.0" ++ nl)) (boot d)))
        as (status & why & s' & -> & [(_ & -> & _)|(_ & -> & _)] & _);
        intros E; discriminate E.
    + state_simpl. rewrite Hv.
      destruct (device_name g) as [name|].
      * unfold ret. apply (Hjob filename name). reflexivity.
      * pose proof (ask_device_only_asks p stdin
                      (emit (EvOut (copyright ++ nl))
                         (emit (EvOut ("SD image writer, Version 1.0.0" ++ nl)) (boot d))))
          as Hask.
        unfold wp in Hask.
        destruct (ask_device p stdin _) as [name s2|status why s2| |]; try contradiction.
        -- apply (Hjob filename name). apply Hask.
        -- cbn [ending]. intros E. injection E as _ ->. destruct Hask as (Hno & _).
           discriminate Hno.
    + destruct (@usage_exits unit p
                  (emit (EvOut ("SD image writer, Version 1.0.0" ++ nl)) (boot d)))
        as (status & why & s' & -> & [(_ & -> & _)|(_ & -> & _)] & _);
        intros E; discriminate E.
  - cbn [ending]. intros E. injection E as -> ->.
    destruct Hparse as (_ & [(_ & H)|[(_ & H)|(_ & H)]] & _); discriminate H.
Qed.

Lemma success_means_the_image_is_on_the_card_witness :
  exists card,
    card_after (main one_card (steady 70000) ["1"%string] [] ["sdcard.img"%string]
                  (boot (card_of x00))) = Some card /\
    forall x, card x = if (0 <=? x) && (x <? st_size (steady 70000))
                       then file (steady 70000) x else card_of x00 x.
Proof.
  apply (success_means_the_image_is_on_the_card one_card (steady 70000) ["1"%string] []
           ["sdcard.img"%string] (card_of x00)).
  - cbn [st_size steady]. lia.
  - reflexivity.
  - vm_compute. reflexivity.
Defined.

(** ** Where a job fails *)



(** ** Calls that fail *)

Lemma all_answered_cons (w : world) (e : event) (l : list event) :
  failed_call w e = None -> all_answered w l -> all_answered w (e :: l).
Proof. intros He Hl e' [<-|Hin]; [exact He|apply Hl, Hin]. Qed.

Lemma all_answered_nil (w : world) : all_answered w [].
Proof. intros e []. Qed.

(** The run ended right after the one call that failed. *)
Ltac at_the_failed_call Hs :=
  split; [reflexivity|];
  let e := fresh "e" in
  let why' := fresh "why'" in
  let Hin := fresh "Hin" in
  let Hf := fresh "Hf" in
  intros e why' Hin Hf;
  cbn [trace emit set_progress_count set_src_pos set_dest_pos set_disk In] in Hin;
  repeat (destruct Hin as [<-|Hin];
          [cbn [failed_call] in Hf;
           repeat match type of Hf with
                  | context [if ?b then _ else _] =>
                      match goal with H : b = _ |- _ => rewrite H in Hf end
                  end;
           first [discriminate Hf | injection Hf as <-; reflexivity]|]);
  rewrite (Hs e Hin) in Hf; discriminate Hf.

(** The run goes on after calls that were answered. *)
Ltac after_answered_calls Hs :=
  cbn [trace emit set_progress_count set_src_pos set_dest_pos set_disk];
  repeat (apply all_answered_cons;
          [cbn [failed_call];
           repeat match goal with
                  | |- context [if ?b then _ else _] =>
                      match goal with H : b = _ |- _ => rewrite H end
                  end;
           reflexivity|]);
  exact Hs.

Section Calls.

Variables (w : world) (filename device_name : string) (nbytes step : Z).

Lemma write_chunks_calls :
  forall (fuel : nat) (c : Z) (buf : buffer) (s : state),
    all_answered w (trace s) ->
    match write_chunks fuel w filename device_name nbytes step c buf s with
    | Ret _ s' => all_answered w (trace s')
    | Exit status why s' => ended_at_failure w status why (trace s')
    | _ => True
    end.
Proof.
  induction fuel as [|fuel IH]; intros c buf s Hs; [exact I|].
  cbn [write_chunks]. destruct (c <? nbytes); [|exact Hs].
  set (n := chunk_len nbytes c).
  unfold bind, read_src.
  destruct (read_ok w (src_pos s) n) eqn:Hread.
  - unfold disk_write. state_simpl.
    destruct (write_ok w (dest_pos s) n) eqn:Hwrite.
    + unfold progress. state_simpl. destruct (to_uint step =? 0); [exact I|].
      destruct (to_uint (progress_count s + 1) mod to_uint step =? 0);
        unfold disk_flush, log, ret; apply IH; after_answered_calls Hs.
    + unfold bind, eprintf, log, quit, c_exit. at_the_failed_call Hs.
  - unfold bind, eprintf, log, quit, c_exit. at_the_failed_call Hs.
Qed.

Lemma verify_chunks_calls (buf2 : buffer) :
  forall (fuel : nat) (c : Z) (buf : buffer) (s : state),
    all_answered w (trace s) ->
    match verify_chunks fuel w filename device_name nbytes step c buf buf2 s with
    | Ret _ s' => all_answered w (trace s')
    | Exit status why s' => ended_at_failure w status why (trace s')
    | _ => True
    end.
Proof.
  induction fuel as [|fuel IH]; intros c buf s Hs; [exact I|].
  cbn [verify_chunks]. destruct (c <? nbytes); [|exact Hs].
  set (n := chunk_len nbytes c).
  unfold bind, read_src.
  destruct (read_ok w (src_pos s) n) eqn:Hread.
  - unfold disk_read. state_simpl.
    destruct (disk_read_ok w (dest_pos s) n) eqn:Hdread.
    + match goal with |- context [memcmp_ne ?a ?b ?c] => destruct (memcmp_ne a b c) end.
      * unfold print_mismatch, bind, eprintf, printf, log, quit, c_exit. state_simpl.
        match goal with |- context [find_mismatch ?a ?b ?c ?d ?e] =>
          destruct (find_mismatch a b c d e) end;
          unfold bind, ret, log, c_exit; at_the_failed_call Hs.
      * unfold ret, progress. state_simpl.
        destruct (to_uint step =? 0); [exact I|].
        destruct (to_uint (progress_count s + 1) mod to_uint step =? 0);
          apply IH; after_answered_calls Hs.
    + unfold bind, eprintf, log, quit, c_exit. at_the_failed_call Hs.
  - unfold bind, eprintf, log, quit, c_exit. at_the_failed_call Hs.
Qed.

End Calls.

(** A job goes on after every call that is answered, and ends at the first
    that is not. *)
Lemma write_image_calls (w : world) (filename device_name : string) (verify_only : Z)
    (s : state) :
  0 <= st_size w <= 2 ^ 62 ->
  all_answered w (trace s) ->
  match write_image w filename device_name verify_only s with
  | Ret _ s' => all_answered w (trace s')
  | Exit status why s' => ended_at_failure w status why (trace s')
  | _ => False
  end.
Proof.
  intros Hsize Hs.
  destruct (cadence_total (st_size w)) as (len & j & Hj & Hcad).
  pose proof (write_image_wp w filename device_name verify_only s len j Hsize Hj Hcad)
    as Hend.
  unfold wp in Hend. revert Hend.
  unfold write_image. rewrite to_long_small by lia. rewrite Hcad.
  unfold bind, disk_open, log, printf.
  destruct (src_opens w) eqn:Hsrc;
    [|intros _; unfold quit, c_exit; at_the_failed_call Hs].
  unfold bind, log. state_simpl.
  destruct (dest_opens w) eqn:Hdest;
    [|intros _; unfold quit, c_exit; at_the_failed_call Hs].
  cbv beta iota. state_simpl.
  destruct (Z.eqb_spec verify_only 0) as [->|Hv].
  - match goal with |- context [write_chunks ?f _ _ _ _ _ ?c ?b ?s1] =>
      pose proof (write_chunks_calls w filename device_name (st_size w) (2 ^ j)
                    f c b s1 ltac:(after_answered_calls Hs)) as Hloop;
      destruct (write_chunks f w filename device_name (st_size w) (2 ^ j) c b s1)
        as [b' s'|status why s'| |]
    end; try contradiction; intros _; [|exact Hloop].
    unfold disk_flush, disk_close, log, ret. after_answered_calls Hloop.
  - unfold ret.
    match goal with |- context [verify_chunks ?f _ _ _ _ _ ?c ?b ?b2 ?s1] =>
      pose proof (verify_chunks_calls w filename device_name (st_size w) (2 ^ j) b2
                    f c b s1 ltac:(after_answered_calls Hs)) as Hloop;
      destruct (verify_chunks f w filename device_name (st_size w) (2 ^ j) c b b2 s1)
        as [b' s'|status why s'| |]
    end; try contradiction; intros _; [|exact Hloop].
    unfold disk_close, log. after_answered_calls Hloop.
Qed.

(** In a run that goes on after answered calls and ends at a failed one, a
    call that failed gives the place and the status of the end. *)
Lemma failed_call_ends_the_run {A : Type} (w : world) (r : res A) (e : event)
    (why : site) :
  match r with
  | Ret _ s' => all_answered w (trace s')
  | Exit status why' s' => ended_at_failure w status why' (trace s')
  | _ => False
  end ->
  In e (events_of r) -> failed_call w e = Some why -> ending r = Some (-1, why).
Proof.
  destruct r as [a s'|status why' s'| |]; cbn [events_of ending]; intros H Hin Hf;
    try contradiction; rewrite <- rev_alt in Hin; apply in_rev in Hin.
  - rewrite (H e Hin) in Hf. discriminate Hf.
  - destruct H as (-> & H). rewrite (H e why Hin Hf). reflexivity.
Qed.

(** A job that ends in [exit] has called [close] on neither handle. *)
Lemma exit_leaves_open (w : world) (filename device_name : string) (verify_only : Z)
    (d : Z -> byte) :
  0 <= st_size w <= 2 ^ 62 ->
  exited (write_image w filename device_name verify_only (boot d)) ->
  left_open (write_image w filename device_name verify_only (boot d)).
Proof.
  intros Hsize.
  destruct (cadence_total (st_size w)) as (len & j & Hj & Hcad).
  pose proof (write_image_wp w filename device_name verify_only (boot d) len j Hsize Hj Hcad)
    as H.
  unfold wp in H. unfold left_open, exited, events_of.
  destruct (write_image w filename device_name verify_only (boot d))
    as [[] s'|status why s'| |]; try contradiction; intros Hex; try contradiction.
  destruct H as (_ & _ & _ & _ & Hcs & Hcd). cbn [boot trace] in Hcs, Hcd.
  rewrite <- rev_alt, !count_rev. split; [exact I|]. split; assumption.
Qed.

(** *** The first failure of each kind *)

Section FirstCalls.

Variables (w : world) (filename device_name : string) (verify_only : Z) (s : state).

Lemma job_open_src_fails :
  src_opens w = false ->
  exists s', write_image w filename device_name verify_only s = Exit (-1) AtOpenSrc s'.
Proof.
  intros Hsrc. unfold write_image, bind, log. rewrite Hsrc.
  unfold bind, log, quit, c_exit. eexists. reflexivity.
Qed.

Lemma job_open_dest_fails :
  src_opens w = true -> dest_opens w = false ->
  exists s', write_image w filename device_name verify_only s = Exit (-1) AtOpenDest s'.
Proof.
  intros Hsrc Hdest. unfold write_image, bind, disk_open, log. rewrite Hsrc.
  unfold bind, log. rewrite Hdest. unfold quit, c_exit. eexists. reflexivity.
Qed.

Hypothesis Hsrc : src_opens w = true.
Hypothesis Hdest : dest_opens w = true.
Hypothesis Hsize : 0 < st_size w <= 2 ^ 62.

Lemma job_first_read_fails :
  read_ok w 0 (chunk_len (st_size w) 0) = false ->
  exists s', write_image w filename device_name verify_only s = Exit (-1) AtReadSrc s'.
Proof.
  intros Hread.
  destruct (cadence_total (st_size w)) as (len & j & Hj & Hcad).
  unfold write_image. rewrite to_long_small by lia. rewrite Hcad.
  unfold bind, disk_open, log, printf. rewrite Hsrc. unfold bind, log. state_simpl.
  rewrite Hdest. cbv beta iota. state_simpl. unfold chunk_fuel.
  destruct (verify_only =? 0); unfold ret; cbn [write_chunks verify_chunks];
    rewrite (proj2 (Z.ltb_lt 0 (st_size w))) by lia;
    unfold bind, read_src; state_simpl; rewrite Hread;
    unfold bind, eprintf, log, quit, c_exit; eexists; reflexivity.
Qed.

Lemma job_first_write_fails :
  verify_only = 0 ->
  read_ok w 0 (chunk_len (st_size w) 0) = true ->
  write_ok w 0 (chunk_len (st_size w) 0) = false ->
  exists s', write_image w filename device_name verify_only s = Exit (-1) AtDiskWrite s'.
Proof.
  intros -> Hread Hwrite.
  destruct (cadence_total (st_size w)) as (len & j & Hj & Hcad).
  unfold write_image. rewrite to_long_small by lia. rewrite Hcad.
  unfold bind, disk_open, log, printf. rewrite Hsrc. unfold bind, log. state_simpl.
  rewrite Hdest. cbv beta iota. state_simpl. unfold chunk_fuel. cbn [Z.eqb write_chunks].
  rewrite (proj2 (Z.ltb_lt 0 (st_size w))) by lia.
  unfold bind, read_src. state_simpl. rewrite Hread.
  unfold disk_write. state_simpl. rewrite Hwrite.
  unfold bind, eprintf, log, quit, c_exit. eexists. reflexivity.
Qed.

Lemma job_first_card_read_fails :
  verify_only <> 0 ->
  read_ok w 0 (chunk_len (st_size w) 0) = true ->
  disk_read_ok w 0 (chunk_len (st_size w) 0) = false ->
  exists s', write_image w filename device_name verify_only s = Exit (-1) AtDiskRead s'.
Proof.
  intros Hv Hread Hdread.
  destruct (cadence_total (st_size w)) as (len & j & Hj & Hcad).
  unfold write_image. rewrite to_long_small by lia. rewrite Hcad.
  unfold bind, disk_open, log, printf. rewrite Hsrc. unfold bind, log. state_simpl.
  rewrite Hdest. cbv beta iota. state_simpl. unfold chunk_fuel.
  destruct (Z.eqb_spec verify_only 0) as [E|_]; [contradiction|].
  unfold ret. cbn [verify_chunks].
  rewrite (proj2 (Z.ltb_lt 0 (st_size w))) by lia.
  unfold bind, read_src. state_simpl. rewrite Hread.
  unfold disk_read. state_simpl. rewrite Hdread.
  unfold bind, eprintf, log, quit, c_exit. eexists. reflexivity.
Qed.

End FirstCalls.

(** The verdict of verify mode, from any state: the job returns when the
    card holds what [buf2] holds, and ends at the report otherwise. *)
Lemma write_image_verdict (w : world) (filename device_name : string) (verify_only : Z)
    (s : state) :
  fault_free w -> verify_only <> 0 -> 0 <= st_size w < 2 ^ 32 ->
  match write_image w filename device_name verify_only s with
  | Ret _ s' =>
      forall x, 0 <= x < st_size w -> disk s x = stack_buf2 w (x mod sizeof_buf)
  | Exit status why s' =>
      status = -1 /\ why = AtMismatch /\
      exists x0, 0 <= x0 < st_size w /\ disk s x0 <> stack_buf2 w (x0 mod sizeof_buf)
  | _ => False
  end.
Proof.
  intros Hfree Hv Hsize.
  destruct (cadence_total (st_size w)) as (len & j & Hj & Hcad).
  pose proof (total_chunks_nonneg _ (proj1 Hsize)) as Hchunks.
  unfold write_image. rewrite to_long_small by lia. rewrite Hcad.
  pose proof Hfree as (Hsrc & Hdest & _).
  unfold bind, disk_open, log, printf. rewrite Hsrc. unfold bind, log. state_simpl.
  rewrite Hdest. cbv beta iota. state_simpl.
  destruct (Z.eqb_spec verify_only 0) as [E|_]; [contradiction|].
  unfold ret.
  match goal with |- context [verify_chunks ?f _ _ _ _ _ _ ?b ?b2 ?s1] =>
    pose proof (verify_chunks_verdict w filename device_name (st_size w) j (disk s) b2
                  Hfree Hsize Hj
                  (Z.to_nat (total_chunks (st_size w))) f 0 b s1
                  ltac:(lia) ltac:(lia) ltac:(unfold chunk_fuel; lia)
                  ltac:(state_simpl; lia) ltac:(state_simpl; lia) eq_refl) as Hloop;
    rewrite Z.mul_0_r in Hloop;
    destruct (verify_chunks f w filename device_name (st_size w) (2 ^ j) 0 b b2 s1)
      as [b' s'|status why s'| |]
  end; try contradiction.
  - unfold disk_close, log. exact Hloop.
  - destruct Hloop as (x0 & Hx0 & Hdiff & _ & Hstatus & Hwhy & _).
    split; [exact Hstatus|]. split; [exact Hwhy|]. exists x0. split; assumption.
Qed.

(** ** How a job ends, and the two handles *)

(** C7 (as amended).  A job ends.  When it returns, the last things it did
    are [close(src)], [disk_close(dest)] and the speed line, in this order,
    and neither handle was closed before: each is closed exactly once, after
    the last transfer; a job returns when no call fails (and, in verify mode,
    no byte is found different).  When
    it ends in [exit], no [close] was called on either handle, and this is
    how every failure ends it, with the status -1: an [open] that fails, any
    [read] or [write] of the job that does not move the bytes asked for (the
    first of them in particular), and a byte that verify mode finds
    different. *)
Theorem handles_closed_once_on_return_and_never_on_exit :
  forall (w : world) (filename device_name : string) (verify_only : Z) (d : Z -> byte),
    0 <= st_size w <= 2 ^ 62 ->
    match write_image w filename device_name verify_only (boot d) with
    | Ret _ s =>
        (exists earlier nbytes mseconds,
            rev (trace s) = earlier ++ [EvCloseSrc; EvCloseDest; EvSpeed nbytes mseconds] /\
            count is_close_src earlier = 0 /\ count is_close_dest earlier = 0) /\
        count is_close_src (rev (trace s)) = 1 /\
        count is_close_dest (rev (trace s)) = 1
    | Exit status why s =>
        status = -1 /\ is_job_failure why = true /\ blamed w verify_only why /\
        count is_close_src (rev (trace s)) = 0 /\
        count is_close_dest (rev (trace s)) = 0
    | OutOfFuel | Undefined => False
    end /\
    (fault_free w -> verify_only = 0 ->
     returned (write_image w filename device_name verify_only (boot d))) /\
    (fault_free w -> verify_only <> 0 -> st_size w < 2 ^ 32 ->
     (forall x, 0 <= x < st_size w -> d x = stack_buf2 w (x mod sizeof_buf)) ->
     returned (write_image w filename device_name verify_only (boot d))) /\
    (forall e why,
        In e (events_of (write_image w filename device_name verify_only (boot d))) ->
        failed_call w e = Some why ->
        ending (write_image w filename device_name verify_only (boot d)) = Some (-1, why) /\
        left_open (write_image w filename device_name verify_only (boot d))) /\
    (src_opens w = false ->
     ending (write_image w filename device_name verify_only (boot d))
       = Some (-1, AtOpenSrc) /\
     left_open (write_image w filename device_name verify_only (boot d))) /\
    (src_opens w = true -> dest_opens w = false ->
     ending (write_image w filename device_name verify_only (boot d))
       = Some (-1, AtOpenDest) /\
     left_open (write_image w filename device_name verify_only (boot d))) /\
    (src_opens w = true -> dest_opens w = true -> 0 < st_size w ->
     read_ok w 0 (chunk_len (st_size w) 0) = false ->
     ending (write_image w filename device_name verify_only (boot d))
       = Some (-1, AtReadSrc) /\
     left_open (write_image w filename device_name verify_only (boot d))) /\
    (src_opens w = true -> dest_opens w = true -> 0 < st_size w ->
     verify_only = 0 ->
     read_ok w 0 (chunk_len (st_size w) 0) = true ->
     write_ok w 0 (chunk_len (st_size w) 0) = false ->
     ending (write_image w filename device_name verify_only (boot d))
       = Some (-1, AtDiskWrite) /\
     left_open (write_image w filename device_name verify_only (boot d))) /\
    (src_opens w = true -> dest_opens w = true -> 0 < st_size w ->
     verify_only <> 0 ->
     read_ok w 0 (chunk_len (st_size w) 0) = true ->
     disk_read_ok w 0 (chunk_len (st_size w) 0) = false ->
     ending (write_image w filename device_name verify_only (boot d))
       = Some (-1, AtDiskRead) /\
     left_open (write_image w filename device_name verify_only (boot d))) /\
    (fault_free w -> verify_only <> 0 -> st_size w < 2 ^ 32 ->
     (exists x0, 0 <= x0 < st_size w /\ d x0 <> stack_buf2 w (x0 mod sizeof_buf)) ->
     ending (write_image w filename device_name verify_only (boot d))
       = Some (-1, AtMismatch) /\
     left_open (write_image w filename device_name verify_only (boot d))).
Proof.
  intros w filename device_name verify_only d Hsize.
  assert (Hopen : forall status why,
            ending (write_image w filename device_name verify_only (boot d))
              = Some (status, why) ->
            ending (write_image w filename device_name verify_only (boot d))
              = Some (status, why) /\
            left_open (write_image w filename device_name verify_only (boot d))).
  { intros status why Hend. split; [exact Hend|].
    apply exit_leaves_open; [exact Hsize|].
    destruct (write_image w filename device_name verify_only (boot d));
      try discriminate Hend. exact I. }
  assert (Hat : forall why,
            (exists s', write_image w filename device_name verify_only (boot d)
                        = Exit (-1) why s') ->
            ending (write_image w filename device_name verify_only (boot d))
              = Some (-1, why) /\
            left_open (write_image w filename device_name verify_only (boot d))).
  { intros why (s' & Hrun). apply Hopen. rewrite Hrun. reflexivity. }
  split; [|split; [|split; [|split; [|split; [|split; [|split; [|split; [|split]]]]]]]].
  - destruct (cadence_total (st_size w)) as (len & j & Hj & Hcad).
    pose proof (write_image_wp w filename device_name verify_only (boot d) len j
                  Hsize Hj Hcad) as H.
    unfold wp in H.
    destruct (write_image w filename device_name verify_only (boot d))
      as [[] s|status why s| |]; try contradiction.
    + destruct H as (before & n & ms & Htrace & _ & _ & Hcs & Hcd).
      cbn [boot trace] in Hcs, Hcd.
      change (count is_close_src []) with 0 in Hcs.
      change (count is_close_dest []) with 0 in Hcd.
      split.
      * exists (rev before), n, ms. rewrite Htrace. cbn [rev].
        rewrite <- !app_assoc. cbn [app]. rewrite !count_rev. auto.
      * rewrite !count_rev, Htrace, !count_cons.
        cbn [is_close_src is_close_dest]. lia.
    + destruct H as (Hstatus & Hfail & Hblame & _ & Hcs & Hcd).
      rewrite !count_rev. cbn [boot trace] in Hcs, Hcd. auto.
  - intros Hfree ->.
    destruct (cadence_total (st_size w)) as (len & j & Hj & Hcad).
    pose proof (fault_free_write_returns w filename device_name (boot d) len j Hfree Hsize
                  Hj Hcad) as H.
    destruct (write_image w filename device_name 0 (boot d)); try contradiction. exact I.
  - intros Hfree Hv Hsmall Hsame.
    pose proof (write_image_verdict w filename device_name verify_only (boot d) Hfree Hv
                  ltac:(lia)) as H.
    destruct (write_image w filename device_name verify_only (boot d))
      as [[] s'|status why s'| |]; try contradiction; [exact I|].
    destruct H as (_ & _ & x0 & Hx0 & Hdiff). exfalso. apply Hdiff. apply (Hsame x0 Hx0).
  - intros e why Hin Hf. apply Hopen.
    apply (failed_call_ends_the_run w _ e why); [|exact Hin|exact Hf].
    apply write_image_calls; [exact Hsize|apply all_answered_nil].
  - intros Hsrc. apply Hat. apply job_open_src_fails, Hsrc.
  - intros Hsrc Hdest. apply Hat. apply job_open_dest_fails; assumption.
  - intros Hsrc Hdest Hpos Hread. apply Hat.
    apply job_first_read_fails; try assumption. lia.
  - intros Hsrc Hdest Hpos Hv Hread Hwrite. apply Hat.
    apply job_first_write_fails; try assumption. lia.
  - intros Hsrc Hdest Hpos Hv Hread Hdread. apply Hat.
    apply job_first_card_read_fails; try assumption. lia.
  - intros Hfree Hv Hsmall (x0 & Hx0 & Hdiff).
    pose proof (write_image_verdict w filename device_name verify_only (boot d) Hfree Hv
                  ltac:(lia)) as H.
    apply Hopen.
    destruct (write_image w filename device_name verify_only (boot d))
      as [[] s'|status why s'| |]; try contradiction.
    + exfalso. apply Hdiff. apply (H x0 Hx0).
    + destruct H as (-> & -> & _). reflexivity.
Qed.

Lemma handles_closed_once_on_return_and_never_on_exit_witness :
  match write_image (steady 70000) "sdcard.img" "/dev/sdb" 0 (boot (card_of x00)) with
  | Ret _ s =>
      (exists earlier nbytes mseconds,
          rev (trace s) = earlier ++ [EvCloseSrc; EvCloseDest; EvSpeed nbytes mseconds] /\
          count is_close_src earlier = 0 /\ count is_close_dest earlier = 0) /\
      count is_close_src (rev (trace s)) = 1 /\
      count is_close_dest (rev (trace s)) = 1
  | Exit status why s =>
      status = -1 /\ is_job_failure why = true /\ blamed (steady 70000) 0 why /\
      count is_close_src (rev (trace s)) = 0 /\
      count is_close_dest (rev (trace s)) = 0
  | OutOfFuel | Undefined => False
  end /\
  (fault_free (steady 70000) -> 0 = 0 ->
   returned (write_image (steady 70000) "sdcard.img" "/dev/sdb" 0 (boot (card_of x00)))) /\
  (fault_free (steady 70000) -> 0 <> 0 -> st_size (steady 70000) < 2 ^ 32 ->
   (forall x, 0 <= x < st_size (steady 70000) -> (card_of x00) x = stack_buf2 (steady 70000)
       (x mod sizeof_buf)) ->
   returned (write_image (steady 70000) "sdcard.img" "/dev/sdb" 0 (boot (card_of x00)))) /\
  (forall e why,
      In e (events_of (write_image (steady 70000) "sdcard.img" "/dev/sdb" 0 (boot
          (card_of x00)))) ->
      failed_call (steady 70000) e = Some why ->
      ending (write_image (steady 70000) "sdcard.img" "/dev/sdb" 0 (boot (card_of x00))) = Some
          (-1, why) /\
      left_open (write_image (steady 70000) "sdcard.img" "/dev/sdb" 0 (boot (card_of x00)))) /\
  (src_opens (steady 70000) = false ->
   ending (write_image (steady 70000) "sdcard.img" "/dev/sdb" 0 (boot (card_of x00)))
     = Some (-1, AtOpenSrc) /\
   left_open (write_image (steady 70000) "sdcard.img" "/dev/sdb" 0 (boot (card_of x00)))) /\
  (src_opens (steady 70000) = true -> dest_opens (steady 70000) = false ->
   ending (write_image (steady 70000) "sdcard.img" "/dev/sdb" 0 (boot (card_of x00)))
     = Some (-1, AtOpenDest) /\
   left_open (write_image (steady 70000) "sdcard.img" "/dev/sdb" 0 (boot (card_of x00)))) /\
  (src_opens (steady 70000) = true -> dest_opens (steady 70000) = true -> 0 < st_size
      (steady 70000) ->
   read_ok (steady 70000) 0 (chunk_len (st_size (steady 70000)) 0) = false ->
   ending (write_image (steady 70000) "sdcard.img" "/dev/sdb" 0 (boot (card_of x00)))
     = Some (-1, AtReadSrc) /\
   left_open (write_image (steady 70000) "sdcard.img" "/dev/sdb" 0 (boot (card_of x00)))) /\
  (src_opens (steady 70000) = true -> dest_opens (steady 70000) = true -> 0 < st_size
      (steady 70000) ->
   0 = 0 ->
   read_ok (steady 70000) 0 (chunk_len (st_size (steady 70000)) 0) = true ->
   write_ok (steady 70000) 0 (chunk_len (st_size (steady 70000)) 0) = false ->
   ending (write_image (steady 70000) "sdcard.img" "/dev/sdb" 0 (boot (card_of x00)))
     = Some (-1, AtDiskWrite) /\
   left_open (write_image (steady 70000) "sdcard.img" "/dev/sdb" 0 (boot (card_of x00)))) /\
  (src_opens (steady 70000) = true -> dest_opens (steady 70000) = true -> 0 < st_size
      (steady 70000) ->
   0 <> 0 ->
   read_ok (steady 70000) 0 (chunk_len (st_size (steady 70000)) 0) = true ->
   disk_read_ok (steady 70000) 0 (chunk_len (st_size (steady 70000)) 0) = false ->
   ending (write_image (steady 70000) "sdcard.img" "/dev/sdb" 0 (boot (card_of x00)))
     = Some (-1, AtDiskRead) /\
   left_open (write_image (steady 70000) "sdcard.img" "/dev/sdb" 0 (boot (card_of x00)))) /\
  (fault_free (steady 70000) -> 0 <> 0 -> st_size (steady 70000) < 2 ^ 32 ->
   (exists x0, 0 <= x0 < st_size (steady 70000) /\ (card_of x00) x0 <> stack_buf2 (steady 70000)
       (x0 mod sizeof_buf)) ->
   ending (write_image (steady 70000) "sdcard.img" "/dev/sdb" 0 (boot (card_of x00)))
     = Some (-1, AtMismatch) /\
   left_open (write_image (steady 70000) "sdcard.img" "/dev/sdb" 0 (boot (card_of x00)))).
Proof.
  apply (handles_closed_once_on_return_and_never_on_exit
           (steady 70000) "sdcard.img" "/dev/sdb" 0 (card_of x00)).
  cbn [st_size steady]. lia.
Defined.

(** ** The exit status, by cause *)








